(** * The EU-project educational analyzer: scraping, enrichment, classification

    A shallow embedding of [src/services/projectAnalyzer.ts], [src/types.ts]
    and the [analyzeProject] / [loadProjects] callbacks of [src/App.tsx].

    TypeScript types are erased when the program runs, and two of the three
    network answers reach the program unchecked ([JSON.parse(...) as
    AnalysisResult] and axios' [response.data : any]).  Those values are
    therefore modelled as run-time JavaScript values ([JSValue]); the fields
    that only the scraper ever writes keep their static type [string].

    Text is a [string] of bytes, read as the UTF-8 encoding of the JavaScript
    string.  A finite number is the rational it equals; [JSON.parse] rounds
    every literal to the nearest binary64 ([number] below), and a literal
    too large for one reads as [JInfinity].  Negative zero is not told apart
    from zero: nothing this program does with a number depends on it. *)

From Stdlib Require Import String Ascii List NArith ZArith QArith Qpower Bool Lia.
Import ListNotations.
Close Scope Q_scope.
Open Scope string_scope.

(** ** Run-time values *)

#[warnings="-register-all"]
Inductive JSValue : Type :=
| JUndefined
| JNull
| JBool (b : bool)
| JNum (q : Q)
| JInfinity (negative : bool)
| JStr (s : string)
| JArr (elements : list JSValue)
| JObj (properties : list (string * JSValue)).

(** What a [throw] carries: an [Error] instance (with its constructor name and
    its [message]) or any other value. *)
Inductive Thrown : Type :=
| ErrorObject (name message : string)
| NonError (v : JSValue).

Inductive Result (A : Type) : Type :=
| Ok (a : A)
| Throw (t : Thrown).
Arguments Ok {A} a.
Arguments Throw {A} t.

(** [ToBoolean]: the operand test of [if], [!] and [||]. *)
Definition truthy (v : JSValue) : bool :=
  match v with
  | JUndefined | JNull => false
  | JBool b => b
  | JNum q => negb (Qnum q =? 0)%Z
  | JInfinity _ => true
  | JStr s => negb (s =? "")
  | JArr _ | JObj _ => true
  end.

(** [a || b] with both operands already evaluated (the right operands in the
    source are literals). *)
Definition js_or (a b : JSValue) : JSValue := if truthy a then a else b.

Fixpoint lookup (k : string) (o : list (string * JSValue)) : option JSValue :=
  match o with
  | [] => None
  | (k', v) :: o' => if k' =? k then Some v else lookup k o'
  end.

(** Defining a property keeps the position of an existing key and appends a
    new one, as object literals and [JSON.parse] do.  (JavaScript lists keys
    that are array indices first; this program reads properties by name
    only, so the order kept here is never observed.) *)
Fixpoint define (k : string) (v : JSValue) (o : list (string * JSValue))
  : list (string * JSValue) :=
  match o with
  | [] => [(k, v)]
  | (k', v') :: o' => if k' =? k then (k, v) :: o' else (k', v') :: define k v o'
  end.

(** [v.k] for the data properties this program reads.  Reading a property of
    [undefined] or [null] throws a TypeError; a primitive or an array has none
    of the keys used here. *)
Definition get_prop (v : JSValue) (k : string) : Result JSValue :=
  match v with
  | JUndefined =>
      Throw (ErrorObject "TypeError"
               ("Cannot read properties of undefined (reading '" ++ k ++ "')"))
  | JNull =>
      Throw (ErrorObject "TypeError"
               ("Cannot read properties of null (reading '" ++ k ++ "')"))
  | JObj o => Ok (match lookup k o with Some x => x | None => JUndefined end)
  | _ => Ok JUndefined
  end.

(** [error instanceof Error ? error.message : fallback] *)
Definition message_or (fallback : string) (t : Thrown) : string :=
  match t with
  | ErrorObject _ m => m
  | NonError _ => fallback
  end.

(** ** Bytes and characters *)

Definition code (c : ascii) : N := N_of_ascii c.
Definition chr (n : N) : ascii := ascii_of_N n.

Definition chars (s : string) : list ascii := list_ascii_of_string s.
Definition text (l : list ascii) : string := string_of_list_ascii l.

(** Writes every apostrophe as a double quote, to spell out text that
    contains double quotes. *)
Definition dq (s : string) : string :=
  text (map (fun c => if (code c =? 39)%N then chr 34 else c) (chars s)).

Definition is_digit (c : ascii) : bool := ((48 <=? code c) && (code c <=? 57))%N.

Definition hex_value (c : ascii) : option N :=
  let n := code c in
  if ((48 <=? n) && (n <=? 57))%N then Some (n - 48)%N
  else if ((65 <=? n) && (n <=? 70))%N then Some (n - 55)%N
  else if ((97 <=? n) && (n <=? 102))%N then Some (n - 87)%N
  else None.

(** UTF-8 bytes of a code point (surrogate code units that stand alone are
    written with the three-byte pattern as well). *)
Definition utf8 (cp : N) : list ascii :=
  if (cp <? 128)%N then [chr cp]
  else if (cp <? 2048)%N then
    [chr (192 + cp / 64); chr (128 + cp mod 64)]
  else if (cp <? 65536)%N then
    [chr (224 + cp / 4096); chr (128 + (cp / 64) mod 64); chr (128 + cp mod 64)]
  else
    [chr (240 + cp / 262144); chr (128 + (cp / 4096) mod 64);
     chr (128 + (cp / 64) mod 64); chr (128 + cp mod 64)].

(** ** [JSON.parse]

    The JSON grammar of ECMA-404 read from a byte string.  [fuel] bounds the
    nesting of the three mutually recursive parsers; [JSON_parse] supplies
    two units per input byte, which is always enough ([JSON_parse_fuel]
    below). *)

Definition is_json_ws (c : ascii) : bool :=
  let n := code c in ((n =? 32) || (n =? 9) || (n =? 10) || (n =? 13))%N.

Fixpoint skip_ws (s : list ascii) : list ascii :=
  match s with
  | c :: r => if is_json_ws c then skip_ws r else s
  | [] => []
  end.

Fixpoint strip_prefix (p s : list ascii) : option (list ascii) :=
  match p, s with
  | [], _ => Some s
  | a :: p', b :: s' => if Ascii.eqb a b then strip_prefix p' s' else None
  | _ :: _, [] => None
  end.

(** A run of decimal digits: its value on top of [acc], its length, the rest. *)
Fixpoint digits (s : list ascii) (acc : Z) (n : nat) : Z * nat * list ascii :=
  match s with
  | c :: r =>
      if is_digit c then digits r (10 * acc + Z.of_N (code c - 48)) (S n)
      else (acc, n, s)
  | [] => (acc, n, [])
  end.

Definition decimal (neg : bool) (mantissa exponent : Z) : Q :=
  let m := if neg then (- mantissa)%Z else mantissa in
  if (0 <=? exponent)%Z then inject_Z (m * 10 ^ exponent)
  else Qred (Qmake m (Z.to_pos (10 ^ (- exponent)))).

(** *** Rounding to binary64

    [StringToNumber] gives the binary64 nearest to the literal's value, ties
    to the even significand; values past the largest finite one give
    infinity, values below half the smallest subnormal give zero. *)

(** The largest [e] with [2 ^ e <= n / d], for positive [n] and [d]. *)
Definition floor_log2 (n d : Z) : Z :=
  let e := (Z.log2 n - Z.log2 d)%Z in
  let above :=
    if (0 <=? e)%Z then (d * 2 ^ e <=? n)%Z else (d <=? n * 2 ^ (- e))%Z in
  if above then e else (e - 1)%Z.

(** The integer nearest to [n / d], the even one of two equally near. *)
Definition round_half_even (n d : Z) : Z :=
  let floor := (n / d)%Z in
  match (2 * (n mod d) ?= d)%Z with
  | Lt => floor
  | Gt => (floor + 1)%Z
  | Eq => if Z.even floor then floor else (floor + 1)%Z
  end.

(** [m * 2 ^ k] as a rational in lowest terms. *)
Definition dyadic (m k : Z) : Q :=
  if (0 <=? k)%Z then inject_Z (m * 2 ^ k)
  else Qred (Qmake m (Z.to_pos (2 ^ (- k)))).

(** The binary64 nearest to [n / d] for positive [n] and [d]: a significand
    of at most 53 bits at the exponent of [n / d], or at the least exponent
    -1074 for a subnormal.  [None] is overflow. *)
Definition binary64_positive (n d : Z) : option Q :=
  let k := Z.max (floor_log2 n d - 52) (- 1074) in
  let m :=
    if (0 <=? k)%Z then round_half_even n (d * 2 ^ k)
    else round_half_even (n * 2 ^ (- k)) d in
  if (0 <=? k)%Z && (2 ^ 1024 <=? m * 2 ^ k)%Z then None
  else Some (dyadic m k).

(** The JavaScript number a rational reads as. *)
Definition number (q : Q) : JSValue :=
  let r := Qred q in
  match Qnum r with
  | Z0 => JNum 0
  | Zpos n =>
      match binary64_positive (Zpos n) (Zpos (Qden r)) with
      | Some x => JNum x
      | None => JInfinity false
      end
  | Zneg n =>
      match binary64_positive (Zpos n) (Zpos (Qden r)) with
      | Some x => JNum (Qred (Qopp x))
      | None => JInfinity true
      end
  end.

(** An optional sign: [minus] alone before the integer part, either sign
    in an exponent. *)
Definition parse_sign (plus_too : bool) (s : list ascii) : bool * list ascii :=
  match s with
  | c :: r =>
      if (code c =? 45)%N then (true, r)
      else if plus_too && (code c =? 43)%N then (false, r)
      else (false, s)
  | [] => (false, s)
  end.

(** At least one digit. *)
Definition parse_digits (s : list ascii) (acc : Z) : option (Z * nat * list ascii) :=
  match digits s acc 0 with
  | (_, O, _) => None
  | (v, n, r) => Some (v, n, r)
  end.

(** The integer part: a lone zero, or digits. *)
Definition parse_int (s : list ascii) : option (Z * list ascii) :=
  match s with
  | c :: r =>
      if (code c =? 48)%N then Some (0%Z, r)
      else match parse_digits s 0 with
           | Some (i, _, r1) => Some (i, r1)
           | None => None
           end
  | [] => None
  end.

(** The fraction continues the mantissa [int] and reports its length. *)
Definition parse_fraction (s : list ascii) (int : Z) : option (Z * nat * list ascii) :=
  match s with
  | c :: r => if (code c =? 46)%N then parse_digits r int else Some (int, O, s)
  | [] => Some (int, O, s)
  end.

Definition parse_exponent (s : list ascii) : option (Z * list ascii) :=
  match s with
  | c :: r =>
      if ((code c =? 101) || (code c =? 69))%N then
        let '(neg, r1) := parse_sign true r in
        match parse_digits r1 0 with
        | Some (e, _, r2) => Some (if neg then (- e)%Z else e, r2)
        | None => None
        end
      else Some (0%Z, s)
  | [] => Some (0%Z, s)
  end.

Definition parse_number (s : list ascii) : option (Q * list ascii) :=
  let '(neg, s1) := parse_sign false s in
  match parse_int s1 with
  | None => None
  | Some (i, s2) =>
      match parse_fraction s2 i with
      | None => None
      | Some (m, flen, s3) =>
          match parse_exponent s3 with
          | None => None
          | Some (e, s4) => Some (decimal neg m (e - Z.of_nat flen), s4)
          end
      end
  end.

Definition hex4 (a b c d : ascii) : option N :=
  match hex_value a, hex_value b, hex_value c, hex_value d with
  | Some x, Some y, Some z, Some w => Some (4096 * x + 256 * y + 16 * z + w)%N
  | _, _, _, _ => None
  end.

(** The body of a string literal after its opening quote; [acc] holds the
    bytes read so far, last first. *)
Fixpoint string_body (s acc : list ascii) : option (string * list ascii) :=
  match s with
  | [] => None
  | c :: r =>
      if (code c =? 34)%N then Some (text (rev acc), r)
      else if (code c <? 32)%N then None
      else if (code c =? 92)%N then
        match r with
        | [] => None
        | e :: r1 =>
            let n := code e in
            if ((n =? 34) || (n =? 92) || (n =? 47))%N then string_body r1 (e :: acc)
            else if (n =? 98)%N then string_body r1 (chr 8 :: acc)
            else if (n =? 102)%N then string_body r1 (chr 12 :: acc)
            else if (n =? 110)%N then string_body r1 (chr 10 :: acc)
            else if (n =? 114)%N then string_body r1 (chr 13 :: acc)
            else if (n =? 116)%N then string_body r1 (chr 9 :: acc)
            else if (n =? 117)%N then
              match r1 with
              | h1 :: h2 :: h3 :: h4 :: r2 =>
                  match hex4 h1 h2 h3 h4 with
                  | None => None
                  | Some u =>
                      let single := string_body r2 (rev (utf8 u) ++ acc) in
                      if ((55296 <=? u) && (u <? 56320))%N then
                        match r2 with
                        | b :: v :: l1 :: l2 :: l3 :: l4 :: r3 =>
                            if ((code b =? 92) && (code v =? 117))%N then
                              match hex4 l1 l2 l3 l4 with
                              | Some lo =>
                                  if ((56320 <=? lo) && (lo <? 57344))%N then
                                    string_body r3
                                      (rev (utf8 (65536 + 1024 * (u - 55296) + (lo - 56320)))
                                         ++ acc)
                                  else single
                              | None => single
                              end
                            else single
                        | _ => single
                        end
                      else single
                  end
              | _ => None
              end
            else None
        end
      else string_body r (c :: acc)
  end.

Fixpoint parse_value (fuel : nat) (s : list ascii) : option (JSValue * list ascii) :=
  match fuel with
  | O => None
  | S f =>
      match skip_ws s with
      | [] => None
      | c :: r =>
          let n := code c in
          if (n =? 123)%N then
            match skip_ws r with
            | c1 :: r1 =>
                if (code c1 =? 125)%N then Some (JObj [], r1)
                else parse_members f (c1 :: r1) []
            | [] => None
            end
          else if (n =? 91)%N then
            match skip_ws r with
            | c1 :: r1 =>
                if (code c1 =? 93)%N then Some (JArr [], r1)
                else parse_elements f (c1 :: r1) []
            | [] => None
            end
          else if (n =? 34)%N then
            match string_body r [] with
            | Some (str, r1) => Some (JStr str, r1)
            | None => None
            end
          else if (n =? 116)%N then
            option_map (fun r1 => (JBool true, r1)) (strip_prefix (chars "rue") r)
          else if (n =? 102)%N then
            option_map (fun r1 => (JBool false, r1)) (strip_prefix (chars "alse") r)
          else if (n =? 110)%N then
            option_map (fun r1 => (JNull, r1)) (strip_prefix (chars "ull") r)
          else
            match parse_number (c :: r) with
            | Some (q, r1) => Some (number q, r1)
            | None => None
            end
      end
  end

(** The elements of an array after the first has been sighted; [acc] holds
    the elements read so far, last first. *)
with parse_elements (fuel : nat) (s : list ascii) (acc : list JSValue)
  : option (JSValue * list ascii) :=
  match fuel with
  | O => None
  | S f =>
      match parse_value f s with
      | None => None
      | Some (v, r) =>
          match skip_ws r with
          | c :: r1 =>
              if (code c =? 44)%N then parse_elements f r1 (v :: acc)
              else if (code c =? 93)%N then Some (JArr (rev (v :: acc)), r1)
              else None
          | [] => None
          end
      end
  end

(** The members of an object; a repeated key keeps its first position and
    takes the last value. *)
with parse_members (fuel : nat) (s : list ascii) (acc : list (string * JSValue))
  : option (JSValue * list ascii) :=
  match fuel with
  | O => None
  | S f =>
      match skip_ws s with
      | q :: r =>
          if (code q =? 34)%N then
            match string_body r [] with
            | None => None
            | Some (k, r1) =>
                match skip_ws r1 with
                | c :: r2 =>
                    if (code c =? 58)%N then
                      match parse_value f r2 with
                      | None => None
                      | Some (v, r3) =>
                          match skip_ws r3 with
                          | d :: r4 =>
                              if (code d =? 44)%N then parse_members f r4 (define k v acc)
                              else if (code d =? 125)%N then Some (JObj (define k v acc), r4)
                              else None
                          | [] => None
                          end
                      end
                    else None
                | [] => None
                end
            end
          else None
      | [] => None
      end
  end.

(** [JSON.parse(text)]: the value, or a SyntaxError.  The wording of the
    message differs between engines; one wording stands for all of them. *)
Definition SyntaxError_message : string := "Unexpected token in JSON".

Definition JSON_parse (s : string) : Result JSValue :=
  match parse_value (2 * String.length s + 3) (chars s) with
  | Some (v, r) =>
      match skip_ws r with
      | [] => Ok v
      | _ :: _ => Throw (ErrorObject "SyntaxError" SyntaxError_message)
      end
  | None => Throw (ErrorObject "SyntaxError" SyntaxError_message)
  end.

(** ** Strings: [trim] and [encodeURIComponent]

    The white space and line terminators of ECMAScript, as UTF-8 byte
    sequences of length one, two and three. *)

Definition ws1 (a : ascii) : bool :=
  let n := code a in (((9 <=? n) && (n <=? 13)) || (n =? 32))%N.

(** U+00A0 *)
Definition ws2 (a b : ascii) : bool := ((code a =? 194) && (code b =? 160))%N.

(** U+1680, U+2000..U+200A, U+2028, U+2029, U+202F, U+205F, U+3000, U+FEFF *)
Definition ws3 (a b c : ascii) : bool :=
  let '(x, y, z) := (code a, code b, code c) in
  (((x =? 225) && (y =? 154) && (z =? 128))
   || ((x =? 226) && (y =? 128)
       && (((128 <=? z) && (z <=? 138)) || (z =? 168) || (z =? 169) || (z =? 175)))
   || ((x =? 226) && (y =? 129) && (z =? 159))
   || ((x =? 227) && (y =? 128) && (z =? 128))
   || ((x =? 239) && (y =? 187) && (z =? 191)))%N.

(** Does the byte list begin with a white-space character?  [p2] and [p3]
    recognise the two- and three-byte ones, so that the same scan serves a
    reversed list. *)
Definition starts_ws (p2 : ascii -> ascii -> bool) (p3 : ascii -> ascii -> ascii -> bool)
  (s : list ascii) : bool :=
  match s with
  | a :: r =>
      ws1 a
      || match r with
         | b :: r1 =>
             p2 a b || match r1 with c :: _ => p3 a b c | [] => false end
         | [] => false
         end
  | [] => false
  end.

Fixpoint strip_ws (p2 : ascii -> ascii -> bool) (p3 : ascii -> ascii -> ascii -> bool)
  (s : list ascii) : list ascii :=
  match s with
  | a :: r =>
      if ws1 a then strip_ws p2 p3 r
      else match r with
           | b :: r1 =>
               if p2 a b then strip_ws p2 p3 r1
               else match r1 with
                    | c :: r2 => if p3 a b c then strip_ws p2 p3 r2 else s
                    | [] => s
                    end
           | [] => s
           end
  | [] => []
  end.

Definition ws2_rev (a b : ascii) : bool := ws2 b a.
Definition ws3_rev (a b c : ascii) : bool := ws3 c b a.

Definition trimStart (s : list ascii) : list ascii := strip_ws ws2 ws3 s.
Definition trimEnd (s : list ascii) : list ascii :=
  rev (strip_ws ws2_rev ws3_rev (rev s)).

(** [String.prototype.trim] *)
Definition trim (s : string) : string := text (trimEnd (trimStart (chars s))).

Definition begins_with_space (s : string) : bool := starts_ws ws2 ws3 (chars s).
Definition ends_with_space (s : string) : bool :=
  starts_ws ws2_rev ws3_rev (rev (chars s)).

Definition hex_digit (n : N) : ascii :=
  if (n <? 10)%N then chr (48 + n) else chr (55 + n).

(** The bytes [encodeURIComponent] leaves alone: [A-Z a-z 0-9 - _ . ! ~ * ' ( )]. *)
Definition uri_unreserved (c : ascii) : bool :=
  let n := code c in
  (((65 <=? n) && (n <=? 90)) || ((97 <=? n) && (n <=? 122))
   || ((48 <=? n) && (n <=? 57))
   || (n =? 45) || (n =? 95) || (n =? 46) || (n =? 33) || (n =? 126)
   || (n =? 42) || (n =? 39) || (n =? 40) || (n =? 41))%N.

(** A surrogate code unit outside a pair is the three bytes ED A0..BF xx. *)
Fixpoint has_lone_surrogate (s : list ascii) : bool :=
  match s with
  | a :: r =>
      match r with
      | b :: _ => ((code a =? 237) && (160 <=? code b))%N || has_lone_surrogate r
      | [] => false
      end
  | [] => false
  end.

Fixpoint percent_encode (s : list ascii) : list ascii :=
  match s with
  | c :: r =>
      if uri_unreserved c then c :: percent_encode r
      else chr 37 :: hex_digit (code c / 16) :: hex_digit (code c mod 16)
             :: percent_encode r
  | [] => []
  end.

Definition encodeURIComponent (s : string) : Result string :=
  if has_lone_surrogate (chars s) then Throw (ErrorObject "URIError" "URI malformed")
  else Ok (text (percent_encode (chars s))).

(** ** The parsed listing page, and the cheerio queries the scraper makes

    A document is a forest of elements and text nodes (comments carry no
    text and match no selector, so they are left out).  Tag names are in
    lower case, as the HTML parser leaves them. *)

#[warnings="-register-all"]
Inductive Node : Type :=
| TextNode (data : string)
| Element (tag : string) (attribs : list (string * string)) (children : list Node).

Fixpoint attr (k : string) (attribs : list (string * string)) : option string :=
  match attribs with
  | [] => None
  | (k', v) :: rest => if k' =? k then Some v else attr k rest
  end.

(** The white-space separated words of an attribute value; [cur] holds the
    bytes of the current word, last first. *)
Definition flush (cur : list ascii) (ws : list string) : list string :=
  match cur with [] => ws | _ :: _ => text (rev cur) :: ws end.

Fixpoint words (s cur : list ascii) : list string :=
  match s with
  | a :: r =>
      if ws1 a then flush cur (words r [])
      else match r with
           | b :: r1 =>
               if ws2 a b then flush cur (words r1 [])
               else match r1 with
                    | c :: r2 =>
                        if ws3 a b c then flush cur (words r2 [])
                        else words r (a :: cur)
                    | [] => words r (a :: cur)
                    end
           | [] => words r (a :: cur)
           end
  | [] => flush cur []
  end.

Definition has_class (cls : string) (n : Node) : bool :=
  match n with
  | Element _ attribs _ =>
      match attr "class" attribs with
      | Some v => existsb (String.eqb cls) (words (chars v) [])
      | None => false
      end
  | TextNode _ => false
  end.

Definition has_tag (t : string) (n : Node) : bool :=
  match n with
  | Element tag _ _ => tag =? t
  | TextNode _ => false
  end.

(** The elements of a subtree that satisfy [p], the root included, in
    document order. *)
Fixpoint matching (p : Node -> bool) (n : Node) : list Node :=
  match n with
  | TextNode _ => []
  | Element _ _ children =>
      (if p n then [n] else []) ++ flat_map (matching p) children
  end.

(** [$(selector)] on a loaded document *)
Definition select (p : Node -> bool) (document : list Node) : list Node :=
  flat_map (matching p) document.

(** [$(element).find(selector)]: proper descendants only *)
Definition find (p : Node -> bool) (element : Node) : list Node :=
  match element with
  | TextNode _ => []
  | Element _ _ children => flat_map (matching p) children
  end.

Fixpoint text_content (n : Node) : string :=
  match n with
  | TextNode data => data
  | Element _ _ children => String.concat "" (map text_content children)
  end.

(** [.text()]: the text of every element of the selection, joined *)
Definition text_of (selection : list Node) : string :=
  String.concat "" (map text_content selection).

(** [.attr(name)]: the attribute of the first element of the selection *)
Definition attr_of (k : string) (selection : list Node) : JSValue :=
  match selection with
  | Element _ attribs _ :: _ =>
      match attr k attribs with Some v => JStr v | None => JUndefined end
  | _ => JUndefined
  end.

(** ** The record schema ([types.ts])

    [id], [name], [description] and [url] are written by the scraper alone
    and are strings.  The other fields receive values that were never
    checked against their declared type, so they hold run-time values;
    [JUndefined] stands for an optional field that is absent. *)

Record Project : Type := mkProject {
  id : string;
  name : string;
  description : string;
  url : string;
  officialWebsite : JSValue;
  results : JSValue;
  educationalPlan : JSValue;
  suitabilityScore : JSValue;
  category : JSValue
}.

(** The four values the [category] type admits. *)
Definition is_category (v : JSValue) : Prop :=
  v = JStr "school" \/ v = JStr "adult" \/ v = JStr "both" \/ v = JStr "unsuitable".

(** ** The world outside the program *)

(** The OpenAI SDK's answer: [completion.choices[i].message.content] is a
    string or [null]. *)
Record ChatCompletionMessage : Type := { content : option string }.
Record Choice : Type := { message : ChatCompletionMessage }.
Record ChatCompletion : Type := { choices : list Choice }.

Record ChatRequest : Type := {
  messages : list (string * string);
  model : string;
  response_format : string
}.

Record OpenAI : Type := { apiKey : string; dangerouslyAllowBrowser : bool }.

(** What the program cannot decide itself.  The two network services are
    indexed by the number of calls made before them, so that the same
    request may be answered differently at different times. *)
Record Env : Type := {
  VITE_OPENAI_API_KEY : option string;
  http : nat -> string -> Result JSValue;
  html_parser : JSValue -> Result (list Node);
  completion_endpoint : nat -> OpenAI -> ChatRequest -> Result ChatCompletion;
  uuid_source : nat -> string
}.

Record World : Type := {
  clock : nat;
  uuids : nat;
  console : list (string * Thrown)
}.

(** ** Computations: world-passing with exceptions *)

Definition M (A : Type) : Type := World -> Result A * World.

Definition ret {A} (a : A) : M A := fun w => (Ok a, w).
Definition throw {A} (t : Thrown) : M A := fun w => (Throw t, w).

Definition bind {A B} (m : M A) (k : A -> M B) : M B :=
  fun w =>
    match m w with
    | (Ok a, w') => k a w'
    | (Throw t, w') => (Throw t, w')
    end.

Definition try_catch {A} (body : M A) (handler : Thrown -> M A) : M A :=
  fun w =>
    match body w with
    | (Ok a, w') => (Ok a, w')
    | (Throw t, w') => handler t w'
    end.

Definition lift {A} (r : Result A) : M A := fun w => (r, w).

Declare Scope js_scope.
Delimit Scope js_scope with js.
Notation "x <- m ;; k" := (bind m (fun x => k))
  (at level 61, m at next level, right associativity) : js_scope.
Notation "m ;;; k" := (bind m (fun _ => k))
  (at level 61, right associativity) : js_scope.
Open Scope js_scope.

Definition tick (w : World) : World :=
  {| clock := S (clock w); uuids := uuids w; console := console w |}.

Definition log (label : string) (t : Thrown) (w : World) : World :=
  {| clock := clock w; uuids := uuids w; console := console w ++ [(label, t)] |}.

Definition console_error (label : string) (t : Thrown) : M unit :=
  fun w => (Ok tt, log label t w).

(** [axios.get(url)] resolved to [response.data], or rejected *)
Module axios.
Definition get (env : Env) (u : string) : M JSValue :=
  fun w => (http env (clock w) u, tick w).
End axios.

(** [cheerio.load(data)] *)
Module cheerio.
Definition load (env : Env) (data : JSValue) : M (list Node) :=
  lift (html_parser env data).
End cheerio.

Module crypto.
Definition randomUUID (env : Env) : M string :=
  fun w =>
    (Ok (uuid_source env (uuids w)),
     {| clock := clock w; uuids := S (uuids w); console := console w |}).
End crypto.

(** [client.chat.completions.create(request)] *)
Definition create (env : Env) (client : OpenAI) (request : ChatRequest)
  : M ChatCompletion :=
  fun w => (completion_endpoint env (clock w) client request, tick w).

(** [new OpenAI({apiKey, dangerouslyAllowBrowser})] in a browser: the SDK's
    constructor refuses a missing key, and refuses to run in a browser
    unless told otherwise. *)
Definition new_OpenAI (key : option string) (allowBrowser : bool) : Result OpenAI :=
  match key with
  | None =>
      Throw (ErrorObject "OpenAIError"
               "The OPENAI_API_KEY environment variable is missing or empty")
  | Some k =>
      if allowBrowser then Ok {| apiKey := k; dangerouslyAllowBrowser := true |}
      else Throw (ErrorObject "OpenAIError"
                    "It looks like you're running in a browser-like environment")
  end.

(** ** [services/projectAnalyzer.ts] *)

Module ProjectAnalyzer.
Section WithEnv.

Variable env : Env.

(** The module-level [openai] variable once the module is loaded (lines
    7-18): set when the key is truthy and the constructor returns; a
    constructor failure is caught and leaves it [null]. *)
Definition openai : option OpenAI :=
  match VITE_OPENAI_API_KEY env with
  | Some k =>
      if negb (k =? "") then
        match new_OpenAI (Some k) true with
        | Ok client => Some client
        | Throw _ => None
        end
      else None
  | None => None
  end.

(** The callback of [$('.project-item').each(...)], run over the selection
    in order; [projects] is the array being filled. *)
Fixpoint each (selection : list Node) (projects : list Project) : M (list Project) :=
  match selection with
  | [] => ret projects
  | element :: rest =>
      let name := trim (text_of (find (has_class "project-title") element)) in
      let description :=
        trim (text_of (find (has_class "project-description") element)) in
      let url :=
        match js_or (attr_of "href" (find (has_tag "a") element)) (JStr "") with
        | JStr s => s
        | _ => ""
        end in
      uuid <- crypto.randomUUID env ;;
      each rest
        (projects ++
           [{| id := uuid; name := name; description := description; url := url;
               officialWebsite := JUndefined; results := JUndefined;
               educationalPlan := JUndefined; suitabilityScore := JUndefined;
               category := JStr "unsuitable" |}])
  end.

Definition scrapeProjects : M (list Project) :=
  try_catch
    (response <- axios.get env "https://ied.eu/eu-programmes/ied-projects/" ;;
     document <- cheerio.load env response ;;
     each (select (has_class "project-item") document) [])
    (fun error =>
       console_error "Error scraping projects:" error ;;;
       ret []).

Definition newline : string := String (chr 10) "".

(** The template literal of lines 55-73, with its two substitutions. *)
Definition prompt (project : Project) : string :=
  String.concat newline
    [ "";
      "        Analyze this EU project for educational potential:";
      "        Name: " ++ name project;
      "        Description: " ++ description project;
      "        ";
      "        Please evaluate:";
      "        1. Suitability for educational use (score 0-100)";
      "        2. Target audience (school/adult/both)";
      "        3. Create a detailed educational implementation plan";
      "        4. Provide specific recommendations for implementation";
      "        ";
      "        Format the response as JSON with the following structure:";
      "        {";
      dq "          'suitabilityScore': number,";
      dq "          'category': 'school' | 'adult' | 'both' | 'unsuitable',";
      dq "          'educationalPlan': 'detailed plan...',";
      dq "          'recommendations': ['rec1', 'rec2', ...]";
      "        }";
      "      " ].

Definition ConfigurationError : Thrown :=
  ErrorObject "Error"
    "OpenAI API key is not configured. Please add your API key to the .env file as VITE_OPENAI_API_KEY.".

(** The result returned from the [catch] block of [analyzeProject]. *)
Definition degraded (error : Thrown) : JSValue :=
  JObj [ ("suitabilityScore", JNum 0);
         ("category", JStr "unsuitable");
         ("educationalPlan", JStr (message_or "Analysis failed" error));
         ("recommendations", JArr []) ].

(** [completion.choices[0].message.content]: reading [message] of a missing
    first choice throws. *)
Definition first_content (completion : ChatCompletion) : Result (option string) :=
  match choices completion with
  | c :: _ => Ok (content (message c))
  | [] =>
      Throw (ErrorObject "TypeError"
               "Cannot read properties of undefined (reading 'message')")
  end.

(** [content || '{}'] *)
Definition content_or_empty_object (c : option string) : string :=
  match c with
  | Some s => if s =? "" then "{}" else s
  | None => "{}"
  end.

(** The argument of [openai.chat.completions.create] (lines 75-79). *)
Definition request (project : Project) : ChatRequest :=
  {| messages := [("user", prompt project)];
     model := "gpt-4-turbo-preview";
     response_format := "json_object" |}.

(** The classifier.  Its result is whatever [JSON.parse] returned: the cast
    [as AnalysisResult] checks nothing when the program runs. *)
Definition analyzeProject (project : Project) : M JSValue :=
  match openai with
  | None => throw ConfigurationError
  | Some client =>
      try_catch
        (completion <- create env client (request project) ;;
         c <- lift (first_content completion) ;;
         lift (JSON_parse (content_or_empty_object c)))
        (fun error =>
           console_error "Error analyzing project:" error ;;;
           ret (degraded error))
  end.

Definition search_url (query : string) : string :=
  "https://api.duckduckgo.com/?q=" ++ query ++ "&format=json".

Definition findOfficialWebsite (projectName : string) : M JSValue :=
  try_catch
    (query <- lift (encodeURIComponent (projectName ++ " official website EU project")) ;;
     response <- axios.get env (search_url query) ;;
     abstractURL <- lift (get_prop response "AbstractURL") ;;
     ret (js_or abstractURL (JStr "")))
    (fun error =>
       console_error "Error finding official website:" error ;;;
       ret (JStr "")).

End WithEnv.
End ProjectAnalyzer.

(** ** [App.tsx]: the component state and its two asynchronous callbacks *)

Module App.

Inductive Filter : Type := all | school | adult | both.

Record State : Type := {
  projects : list Project;
  loading : bool;
  analyzing : bool;
  selectedProject : option Project;
  filter : Filter;
  error : option string
}.

Definition initial : State :=
  {| projects := []; loading := true; analyzing := false;
     selectedProject := None; filter := all; error := None |}.

Definition setProjects (f : list Project -> list Project) (s : State) : State :=
  {| projects := f (projects s); loading := loading s; analyzing := analyzing s;
     selectedProject := selectedProject s; filter := filter s; error := error s |}.

Definition setLoading (b : bool) (s : State) : State :=
  {| projects := projects s; loading := b; analyzing := analyzing s;
     selectedProject := selectedProject s; filter := filter s; error := error s |}.

Definition setAnalyzing (b : bool) (s : State) : State :=
  {| projects := projects s; loading := loading s; analyzing := b;
     selectedProject := selectedProject s; filter := filter s; error := error s |}.

Definition setSelectedProject (p : option Project) (s : State) : State :=
  {| projects := projects s; loading := loading s; analyzing := analyzing s;
     selectedProject := p; filter := filter s; error := error s |}.

Definition setError (e : option string) (s : State) : State :=
  {| projects := projects s; loading := loading s; analyzing := analyzing s;
     selectedProject := selectedProject s; filter := filter s; error := e |}.

(** The operand of [filter === ...]: the state holds one of four strings. *)
Definition filter_name (f : Filter) : string :=
  match f with
  | all => "all"
  | school => "school"
  | adult => "adult"
  | both => "both"
  end.

(** [v === s] for a string [s]: no conversion, so only a string can be equal. *)
Definition strict_equal (v : JSValue) (s : string) : bool :=
  match v with
  | JStr x => x =? s
  | _ => false
  end.

(** Lines 52-54: the projects the list shows. *)
Definition filteredProjects (s : State) : list Project :=
  List.filter
    (fun project =>
       (filter_name (filter s) =? "all")
       || strict_equal (category project) (filter_name (filter s)))
    (projects s).

Inductive Icon : Type := GraduationCap | Users | BookOpen.

(** Lines 56-67: the [switch] compares with [===]; [default] returns [null]. *)
Definition getCategoryIcon (category : JSValue) : option Icon :=
  if strict_equal category "school" then Some GraduationCap
  else if strict_equal category "adult" then Some Users
  else if strict_equal category "both" then Some BookOpen
  else None.

(** Line 198: the Analyze button is rendered for a selected project whose
    [suitabilityScore] is falsy. *)
Definition showsAnalyzeButton (s : State) : bool :=
  match selectedProject s with
  | Some selected => negb (truthy (suitabilityScore selected))
  | None => false
  end.

Section WithEnv.

Variable env : Env.

(** [!import.meta.env.VITE_OPENAI_API_KEY]: the condition of the warning
    banner (line 78). *)
Definition keyMissing : bool :=
  match VITE_OPENAI_API_KEY env with
  | Some k => k =? ""
  | None => true
  end.

(** Line 201: [disabled={analyzing || !import.meta.env.VITE_OPENAI_API_KEY}] *)
Definition analyzeButtonDisabled (s : State) : bool :=
  analyzing s || keyMissing.

Definition loadProjects (s : State) : M State :=
  let s := setLoading true s in
  scrapedProjects <- ProjectAnalyzer.scrapeProjects env ;;
  let s := setProjects (fun _ => scrapedProjects) s in
  ret (setLoading false s).

(** Lines 30-39: the two service calls and the object literal
    [{...project, officialWebsite, suitabilityScore: analysis.suitabilityScore,
      category: analysis.category, educationalPlan: analysis.educationalPlan}]. *)
Definition updatedProject (project : Project) : M Project :=
  officialWebsite <- ProjectAnalyzer.findOfficialWebsite env (name project) ;;
  analysis <- ProjectAnalyzer.analyzeProject env project ;;
  suitabilityScore <- lift (get_prop analysis "suitabilityScore") ;;
  category <- lift (get_prop analysis "category") ;;
  educationalPlan <- lift (get_prop analysis "educationalPlan") ;;
  ret {| id := id project;
         name := name project;
         description := description project;
         url := url project;
         officialWebsite := officialWebsite;
         results := results project;
         educationalPlan := educationalPlan;
         suitabilityScore := suitabilityScore;
         category := category |}.

Definition analyzeProject (project : Project) (s : State) : M State :=
  let s := setAnalyzing true s in
  let s := setError None s in
  s <- try_catch
         (updated <- updatedProject project ;;
          let s :=
            setProjects
              (map (fun p => if id p =? id project then updated else p)) s in
          ret (setSelectedProject (Some updated) s))
         (fun error =>
            let s :=
              setError (Some (message_or "An error occurred during analysis" error)) s in
            console_error "Error analyzing project:" error ;;;
            ret s) ;;
  ret (setAnalyzing false s).

End WithEnv.
End App.

(** * Properties

    First the vocabulary of the statements and the sample worlds they are
    tried on, then the lemmas. *)

(** A credential is configured when the environment variable holds a
    non-empty key, the test of line 10. *)
Definition configured (env : Env) : Prop :=
  exists k, VITE_OPENAI_API_KEY env = Some k /\ k <> "".

Definition nullish (v : JSValue) : bool :=
  match v with
  | JUndefined | JNull => true
  | _ => false
  end.

(** ** Sample worlds

    One listing page with a single well-formed item, and environments built
    from a key, a search answer and a completion answer. *)

Definition world0 : World := {| clock := 0; uuids := 0; console := [] |}.

Definition cleanseas_page : list Node :=
  [ Element "div" [("class", "project-item")]
      [ Element "h3" [("class", "project-title")] [TextNode " CleanSeas "];
        Element "p" [("class", "project-description")]
          [TextNode "Ocean plastics education"];
        Element "a" [("href", "https://ied.eu/cleanseas")] [TextNode "more"] ] ].

Definition sample_uuid (n : nat) : string :=
  "00000000-0000-4000-8000-" ++ text (repeat (chr 97) n) ++ text (repeat (chr 48) (12 - n)).

Definition sample_env (key : option string) (search : Result JSValue)
  (completion : Result ChatCompletion) : Env :=
  {| VITE_OPENAI_API_KEY := key;
     http := fun _ u =>
       if u =? "https://ied.eu/eu-programmes/ied-projects/"
       then Ok (JStr "<html>...</html>") else search;
     html_parser := fun _ => Ok cleanseas_page;
     completion_endpoint := fun _ _ _ => completion;
     uuid_source := sample_uuid |}.

(** A page with two items: the second has padded texts, a title inside a
    nested element, and a first anchor without href. *)
Definition two_items_page : list Node :=
  [ Element "main" []
      (cleanseas_page ++
       [ TextNode "or";
         Element "li" [("class", "card project-item")]
           [ Element "div" []
               [Element "h3" [("class", "project-title")] [TextNode "  Green "; TextNode "Lab "]];
             Element "p" [("class", "project-description big")] [TextNode " Soil kits  "];
             Element "a" [("name", "top")] [];
             Element "a" [("href", "/green-lab")] [] ] ]) ].

Definition two_items_env : Env :=
  {| VITE_OPENAI_API_KEY := None;
     http := fun _ _ => Ok (JStr "<html>...</html>");
     html_parser := fun _ => Ok two_items_page;
     completion_endpoint := fun _ _ _ => Ok {| choices := [] |};
     uuid_source := sample_uuid |}.

Definition reply (c : option string) : Result ChatCompletion :=
  Ok {| choices := [ {| message := {| content := c |} |} ] |}.

Definition cleanseas : Project :=
  {| id := sample_uuid 0; name := "CleanSeas";
     description := "Ocean plastics education"; url := "https://ied.eu/cleanseas";
     officialWebsite := JUndefined; results := JUndefined;
     educationalPlan := JUndefined; suitabilityScore := JUndefined;
     category := JStr "unsuitable" |}.

Definition found_site : Result JSValue :=
  Ok (JObj [("AbstractURL", JStr "https://cleanseas.example")]).

(** The mocked classifier answer of the end-to-end scenario. *)
Definition school_answer : string :=
  dq "{'suitabilityScore':82,'category':'school','educationalPlan':'...','recommendations':['Use in grade 9 science']}".

Definition cleanseas_env : Env :=
  sample_env (Some "sk-test") found_site (reply (Some school_answer)).

(** An answer with white space between its tokens, a score that is no
    binary64, and an escape in a string. *)
Definition spaced_answer : string :=
  dq "{ 'suitabilityScore': 82.1, 'category': 'school', 'educationalPlan': 'Week 1\nWeek 2', 'recommendations': ['Use in grade 9 science'] }".

Definition spaced_env : Env :=
  sample_env (Some "sk-test") found_site (reply (Some spaced_answer)).

(** Collaborators are deterministic when the answer of a network service
    depends on the request alone, not on when it is asked. *)
Definition deterministic (env : Env) : Prop :=
  (forall t t' u, http env t u = http env t' u)
  /\ (forall t t' client request,
        completion_endpoint env t client request
        = completion_endpoint env t' client request).

(** The search text for a project name (line 96). *)
Definition search_text (projectName : string) : string :=
  projectName ++ " official website EU project".

(** The object literal of lines 33-39 on its own: the copy of [project]
    with the resolver's answer and three properties of the classifier's
    answer written over it. *)
Definition merge (project : Project) (site analysis : JSValue) : Result Project :=
  match get_prop analysis "suitabilityScore" with
  | Throw t => Throw t
  | Ok score =>
      match get_prop analysis "category" with
      | Throw t => Throw t
      | Ok cat =>
          match get_prop analysis "educationalPlan" with
          | Throw t => Throw t
          | Ok plan =>
              Ok {| id := id project; name := name project;
                    description := description project; url := url project;
                    officialWebsite := site; results := results project;
                    educationalPlan := plan; suitabilityScore := score;
                    category := cat |}
          end
      end
  end.

(** An answer whose category lies outside the enumeration. *)
Definition maybe_answer : string :=
  dq "{'suitabilityScore':50,'category':'maybe','educationalPlan':'Try it.','recommendations':[]}".

Definition listing_url : string := "https://ied.eu/eu-programmes/ied-projects/".

(** The href of the first anchor below an element, or the empty string
    when there is no anchor or the first one has no href. *)
Definition first_anchor_href (element : Node) : string :=
  match find (has_tag "a") element with
  | Element _ attribs _ :: _ =>
      match attr "href" attribs with Some h => h | None => "" end
  | _ => ""
  end.

(** The record the scraper pushes for one item when [n] identifiers have
    been drawn before, and the records for a run of items. *)
Definition record_of (env : Env) (n : nat) (element : Node) : Project :=
  {| id := uuid_source env n;
     name := trim (text_of (find (has_class "project-title") element));
     description := trim (text_of (find (has_class "project-description") element));
     url := first_anchor_href element;
     officialWebsite := JUndefined; results := JUndefined;
     educationalPlan := JUndefined; suitabilityScore := JUndefined;
     category := JStr "unsuitable" |}.

Fixpoint records_of (env : Env) (n : nat) (items : list Node) : list Project :=
  match items with
  | [] => []
  | item :: rest => record_of env n item :: records_of env (S n) rest
  end.

(** The icon drawn for the category a filter selects. *)
Definition icon_of (f : App.Filter) : option App.Icon :=
  match f with
  | App.all => None
  | App.school => Some App.GraduationCap
  | App.adult => Some App.Users
  | App.both => Some App.BookOpen
  end.

(** A record as the scraper leaves it: no analysis, no website. *)
Definition unanalyzed (p : Project) : Prop :=
  category p = JStr "unsuitable"
  /\ suitabilityScore p = JUndefined
  /\ educationalPlan p = JUndefined
  /\ officialWebsite p = JUndefined
  /\ results p = JUndefined.

(** [v.k] where it does not throw. *)
Definition property (v : JSValue) (k : string) : JSValue :=
  match v with
  | JObj o => match lookup k o with Some x => x | None => JUndefined end
  | _ => JUndefined
  end.

(** Fuel that covers parsing [s] down to the rest [r]. *)
Definition enough (s r : list ascii) (f : nat) : Prop :=
  2 * (length s - length r) <= f.

(** ** The JSON grammar, stated on its own

    What a text denotes according to ECMA-404 and [JSON.parse], written as
    relations between texts and values, without reference to the parser
    above.  (A high-surrogate escape that no low-surrogate escape follows is
    included; it stands for the surrogate alone.) *)

Definition quote : ascii := chr 34.
Definition backslash : ascii := chr 92.

(** White space between tokens: space, tab, line feed, carriage return. *)
Definition blank (w : list ascii) : Prop :=
  Forall (fun c => In c [chr 32; chr 9; chr 10; chr 13]) w.

Definition decimal_digits : list ascii := chars "0123456789".

Definition digit_text (d : list ascii) : Prop :=
  d <> [] /\ Forall (fun c => In c decimal_digits) d.

Definition digits_number (d : list ascii) : Z :=
  fold_left (fun n c => 10 * n + (Z.of_N (code c) - 48))%Z d 0%Z.

(** The integer part: a lone zero, or digits that do not begin with zero. *)
Inductive integer_text : list ascii -> Prop :=
| integer_zero : integer_text [chr 48]
| integer_digits c d :
    In c (chars "123456789") ->
    Forall (fun x => In x decimal_digits) d ->
    integer_text (c :: d).

(** A number: sign, integer part, optional fraction, optional exponent
    (letter, optional sign, digits); its value is the signed digits of
    integer part and fraction, scaled by ten to the exponent less the length
    of the fraction. *)
Inductive number_text : list ascii -> Q -> Prop :=
| number_parts (negative : bool) (int fraction : list ascii)
    (exponent : option (ascii * list ascii * list ascii)) :
    integer_text int ->
    (fraction = [] \/ digit_text fraction) ->
    (forall e s d,
       exponent = Some (e, s, d) ->
       In e [chr 101; chr 69] /\ In s [[]; [chr 43]; [chr 45]] /\ digit_text d) ->
    number_text
      ((if negative then [chr 45] else [])
         ++ int
         ++ (match fraction with [] => [] | _ :: _ => chr 46 :: fraction end)
         ++ (match exponent with Some (e, s, d) => e :: s ++ d | None => [] end))
      (inject_Z
         (if negative then - digits_number (int ++ fraction)
          else digits_number (int ++ fraction))
       * Qpower (inject_Z 10)
           ((match exponent with
             | Some (_, s, d) =>
                 if list_eq_dec ascii_dec s [chr 45] then - digits_number d
                 else digits_number d
             | None => 0
             end) - Z.of_nat (length fraction)))%Q.

Definition hex_digit_number (c : ascii) (v : nat) : Prop :=
  nth_error (chars "0123456789abcdef") v = Some c
  \/ nth_error (chars "0123456789ABCDEF") v = Some c.

(** The code unit written by four hexadecimal digits. *)
Definition code_unit (h1 h2 h3 h4 : ascii) (u : N) : Prop :=
  exists a b c d,
    hex_digit_number h1 a /\ hex_digit_number h2 b
    /\ hex_digit_number h3 c /\ hex_digit_number h4 d
    /\ u = N.of_nat (4096 * a + 256 * b + 16 * c + d).

Definition high_surrogate (u : N) : Prop := (55296 <= u < 56320)%N.
Definition low_surrogate (u : N) : Prop := (56320 <= u < 57344)%N.

(** The text begins with the escape of a low surrogate. *)
Definition low_escape_ahead (t : list ascii) : Prop :=
  exists l1 l2 l3 l4 lo rest,
    t = backslash :: chr 117 :: l1 :: l2 :: l3 :: l4 :: rest
    /\ code_unit l1 l2 l3 l4 lo /\ low_surrogate lo.

Definition simple_escapes : list (ascii * ascii) :=
  [ (quote, quote); (backslash, backslash); (chr 47, chr 47);
    (chr 98, chr 8); (chr 102, chr 12); (chr 110, chr 10);
    (chr 114, chr 13); (chr 116, chr 9) ].

(** The inside of a string literal and the bytes it denotes. *)
Inductive string_text : list ascii -> list ascii -> Prop :=
| string_end : string_text [] []
| string_plain c t s :
    (32 <= code c)%N -> c <> quote -> c <> backslash ->
    string_text t s ->
    string_text (c :: t) (c :: s)
| string_escape e c t s :
    In (e, c) simple_escapes ->
    string_text t s ->
    string_text (backslash :: e :: t) (c :: s)
| string_unit h1 h2 h3 h4 u t s :
    code_unit h1 h2 h3 h4 u ->
    ~ high_surrogate u \/ ~ low_escape_ahead t ->
    string_text t s ->
    string_text (backslash :: chr 117 :: h1 :: h2 :: h3 :: h4 :: t) (utf8 u ++ s)
| string_pair h1 h2 h3 h4 hi l1 l2 l3 l4 lo t s :
    code_unit h1 h2 h3 h4 hi -> high_surrogate hi ->
    code_unit l1 l2 l3 l4 lo -> low_surrogate lo ->
    string_text t s ->
    string_text
      (backslash :: chr 117 :: h1 :: h2 :: h3 :: h4
         :: backslash :: chr 117 :: l1 :: l2 :: l3 :: l4 :: t)
      (utf8 (65536 + 1024 * (hi - 55296) + (lo - 56320)) ++ s).

(** The object a sequence of members builds: a repeated key keeps its
    first place and takes its last value. *)
Definition object_of (members : list (string * JSValue)) : JSValue :=
  JObj (fold_left (fun o m => define (fst m) (snd m) o) members []).

Inductive json : list ascii -> JSValue -> Prop :=
| json_null : json (chars "null") JNull
| json_true : json (chars "true") (JBool true)
| json_false : json (chars "false") (JBool false)
| json_number t q : number_text t q -> json t (number q)
| json_string t s : string_text t s -> json (quote :: t ++ [quote]) (JStr (text s))
| json_array_empty w : blank w -> json (chr 91 :: w ++ [chr 93]) (JArr [])
| json_array t vs : json_elements t vs -> json (chr 91 :: t ++ [chr 93]) (JArr vs)
| json_object_empty w : blank w -> json (chr 123 :: w ++ [chr 125]) (JObj [])
| json_object t ms :
    json_members t ms -> json (chr 123 :: t ++ [chr 125]) (object_of ms)

with json_elements : list ascii -> list JSValue -> Prop :=
| elements_last w1 t v w2 :
    blank w1 -> json t v -> blank w2 ->
    json_elements (w1 ++ t ++ w2) [v]
| elements_more w1 t v w2 rest vs :
    blank w1 -> json t v -> blank w2 -> json_elements rest vs ->
    json_elements (w1 ++ t ++ w2 ++ chr 44 :: rest) (v :: vs)

with json_members : list ascii -> list (string * JSValue) -> Prop :=
| members_last w1 k s w2 w3 t v w4 :
    blank w1 -> string_text k s -> blank w2 -> blank w3 -> json t v -> blank w4 ->
    json_members
      (w1 ++ quote :: k ++ quote :: w2 ++ chr 58 :: w3 ++ t ++ w4)
      [(text s, v)]
| members_more w1 k s w2 w3 t v w4 rest ms :
    blank w1 -> string_text k s -> blank w2 -> blank w3 -> json t v -> blank w4 ->
    json_members rest ms ->
    json_members
      (w1 ++ quote :: k ++ quote :: w2 ++ chr 58 :: w3 ++ t ++ w4 ++ chr 44 :: rest)
      ((text s, v) :: ms).

Scheme json_scheme := Minimality for json Sort Prop
  with json_elements_scheme := Minimality for json_elements Sort Prop
  with json_members_scheme := Minimality for json_members Sort Prop.
Combined Scheme json_mutual from json_scheme, json_elements_scheme, json_members_scheme.

(** A response text denotes [v]: one value, white space around it allowed. *)
Definition json_document (s : string) (v : JSValue) : Prop :=
  exists w1 t w2,
    blank w1 /\ json t v /\ blank w2 /\ chars s = (w1 ++ t ++ w2)%list.

(** What may follow a value inside a document. *)
Definition value_end (rest : list ascii) : Prop :=
  match rest with
  | [] => True
  | c :: _ => In c [chr 32; chr 9; chr 10; chr 13; chr 44; chr 93; chr 125]
  end.

(** Nothing that ends a run of digits in a number is a digit. *)
Definition no_digit_ahead (r : list ascii) : Prop :=
  match r with
  | [] => True
  | c :: _ => is_digit c = false
  end.

(** What the digits of a mantissa may be followed by. *)
Definition mantissa_end (tail : list ascii) : Prop :=
  match tail with
  | [] => True
  | c :: _ => is_digit c = false /\ (code c =? 46)%N = false
  end.

Definition exponent_text (exponent : option (ascii * list ascii * list ascii))
  : list ascii :=
  match exponent with
  | Some (e, s, d) => e :: (s ++ d)%list
  | None => []
  end.

Definition exponent_number (exponent : option (ascii * list ascii * list ascii)) : Z :=
  match exponent with
  | Some (_, s, d) =>
      if list_eq_dec ascii_dec s [chr 45] then (- digits_number d)%Z
      else digits_number d
  | None => 0%Z
  end.

(** How a value's text begins: with none of white space, a closing bracket
    or a closing brace. *)
Definition opens_value (c : ascii) : Prop :=
  is_json_ws c = false /\ (code c =? 93)%N = false /\ (code c =? 125)%N = false.

(** The value a sequence of members gives to a key: that of the last member
    of that name. *)
Fixpoint member_value (k : string) (members : list (string * JSValue))
  : option JSValue :=
  match members with
  | [] => None
  | (k', v) :: rest =>
      match member_value k rest with
      | Some x => Some x
      | None => if k' =? k then Some v else None
      end
  end.

(** ** The listing page, stated on its own

    What the scraper is expected to find, written without the queries it
    makes: white space by code point, and a page as the rendering of a
    sequence of item blocks. *)

(** The white space and line terminators of ECMAScript: U+0009..U+000D,
    U+0020, U+00A0, U+1680, U+2000..U+200A, U+2028, U+2029, U+202F, U+205F,
    U+3000 and U+FEFF. *)
Definition space_code_points : list N :=
  [ 9; 10; 11; 12; 13; 32; 160; 5760;
    8192; 8193; 8194; 8195; 8196; 8197; 8198; 8199; 8200; 8201; 8202;
    8232; 8233; 8239; 8287; 12288; 65279 ]%N.

Definition space_sequences : list (list ascii) := map utf8 space_code_points.

(** A run of white-space characters. *)
Definition padding (w : list ascii) : Prop :=
  exists parts, Forall (fun q => In q space_sequences) parts /\ w = concat parts.

(** A text that neither begins nor ends with a white-space character. *)
Definition tight (t : list ascii) : Prop :=
  forall q rest,
    In q space_sequences -> t <> (q ++ rest)%list /\ t <> (rest ++ q)%list.

(** Does [t] begin with [q]? *)
Fixpoint begins (q t : list ascii) : bool :=
  match q, t with
  | [], _ => true
  | a :: q', b :: t' => Ascii.eqb a b && begins q' t'
  | _ :: _, [] => false
  end.

(** [tight], decided. *)
Definition is_tight (t : list ascii) : bool :=
  forallb (fun q => negb (begins q t) && negb (begins (rev q) (rev t)))
    space_sequences.

(** The bytes that continue a UTF-8 sequence: all but its first. *)
Definition continuation (c : ascii) : bool := ((128 <=? code c) && (code c <? 192))%N.

(** The value of attribute [k] in an attribute list: that of the first
    pair with that key, if there is one. *)
Inductive attribute (k : string) : list (string * string) -> option string -> Prop :=
| attribute_absent attribs :
    (forall v, ~ In (k, v) attribs) -> attribute k attribs None
| attribute_first before v after :
    (forall v', ~ In (k, v') before) ->
    attribute k (before ++ (k, v) :: after) (Some v).

(** A class name: printable ASCII other than the space. *)
Definition name_byte (c : ascii) : bool := ((33 <=? code c) && (code c <? 127))%N.

Definition class_name (s : string) : Prop :=
  s <> "" /\ forallb name_byte (chars s) = true.

(** The classes an element is given: the names of its class attribute,
    which single spaces separate. *)
Definition class_list (attribs : list (string * string)) (names : list string) : Prop :=
  exists value,
    attribute "class" attribs value
    /\ match value with
       | Some v => Forall class_name names /\ v = String.concat " " names
       | None => names = []
       end.

(** The three classes the scraper looks for. *)
Definition marks : list string :=
  ["project-item"; "project-title"; "project-description"].

(** Attributes that give the class [cls] and none of the other two. *)
Definition carries (cls : string) (attribs : list (string * string)) : Prop :=
  exists names,
    class_list attribs names /\ In cls names
    /\ forall m, In m marks -> In m names -> m = cls.

(** Attributes that give none of the three. *)
Definition unmarked (attribs : list (string * string)) : Prop :=
  exists names, class_list attribs names /\ forall m, In m marks -> ~ In m names.

(** What may stand between the parts of a block: text, and elements other
    than anchors that have none of the three classes and hold only the
    like. *)
Inductive filler : Node -> Prop :=
| filler_text data : filler (TextNode data)
| filler_element tag attribs children :
    tag <> "a" -> unmarked attribs -> fillers children ->
    filler (Element tag attribs children)

with fillers : list Node -> Prop :=
| fillers_nil : fillers []
| fillers_cons n ns : filler n -> fillers ns -> fillers (n :: ns).

Scheme filler_scheme := Minimality for filler Sort Prop
  with fillers_scheme := Minimality for fillers Sort Prop.
Combined Scheme filler_mutual from filler_scheme, fillers_scheme.

(** An element of class [cls] around text in one or more pieces: [core],
    with white space before and after it.  The element may stand inside
    elements that have none of the three classes, with filler beside it. *)
Inductive labelled (cls : string) : Node -> string -> Prop :=
| labelled_text tag attribs pieces l core r :
    tag <> "a" -> carries cls attribs ->
    padding l -> tight core -> padding r ->
    String.concat "" pieces = text (l ++ core ++ r) ->
    labelled cls (Element tag attribs (map TextNode pieces)) (text core)
| labelled_inside tag attribs before n after core :
    tag <> "a" -> unmarked attribs ->
    fillers before -> labelled cls n core -> fillers after ->
    labelled cls (Element tag attribs (before ++ n :: after)) core.

(** An anchor and its href, if it has one. *)
Inductive anchor : Node -> option string -> Prop :=
| anchor_element attribs children href :
    unmarked attribs -> attribute "href" attribs href -> fillers children ->
    anchor (Element "a" attribs children) href.

(** The anchors of a block, in document order, with filler between them;
    they too may stand inside elements that have none of the three
    classes. *)
Inductive links : list Node -> list (option string) -> Prop :=
| links_nil : links [] []
| links_filler n ns hrefs : filler n -> links ns hrefs -> links (n :: ns) hrefs
| links_anchor n h ns hrefs :
    anchor n h -> links ns hrefs -> links (n :: ns) (h :: hrefs)
| links_inside tag attribs inner rest hrefs1 hrefs2 :
    tag <> "a" -> unmarked attribs ->
    links inner hrefs1 -> links rest hrefs2 ->
    links (Element tag attribs inner :: rest) (hrefs1 ++ hrefs2).

(** The href of the first anchor, or the empty string when it has none or
    there is no anchor. *)
Definition first_link (hrefs : list (option string)) : string :=
  match hrefs with
  | Some h :: _ => h
  | _ => ""
  end.

(** What one item of the listing says. *)
Record ItemBlock : Type := {
  title : string;
  summary : string;
  link : string
}.

(** A well-formed item block: an element of class project-item that holds a
    title, then a description, then any number of anchors, with filler
    between them. *)
Inductive item_block : Node -> ItemBlock -> Prop :=
| item_block_parts tag attribs before t heading between s body after hrefs :
    carries "project-item" attribs ->
    fillers before -> labelled "project-title" t heading ->
    fillers between -> labelled "project-description" s body ->
    links after hrefs ->
    item_block
      (Element tag attribs (before ++ t :: between ++ s :: after))
      {| title := heading; summary := body; link := first_link hrefs |}.

(** A page and the item blocks on it, in document order: blocks may stand
    among text and inside elements that have none of the three classes. *)
Inductive Page : list Node -> list ItemBlock -> Prop :=
| page_end : Page [] []
| page_text data rest blocks :
    Page rest blocks -> Page (TextNode data :: rest) blocks
| page_inside tag attribs inner rest blocks1 blocks2 :
    unmarked attribs -> Page inner blocks1 -> Page rest blocks2 ->
    Page (Element tag attribs inner :: rest) (blocks1 ++ blocks2)
| page_block n b rest blocks :
    item_block n b -> Page rest blocks -> Page (n :: rest) (b :: blocks).

(** The record expected for a block, and the records for a page whose
    identifiers are drawn from the [n]th on. *)
Definition block_record (identifier : string) (b : ItemBlock) : Project :=
  {| id := identifier; name := title b; description := summary b; url := link b;
     officialWebsite := JUndefined; results := JUndefined;
     educationalPlan := JUndefined; suitabilityScore := JUndefined;
     category := JStr "unsuitable" |}.

Fixpoint block_records (env : Env) (n : nat) (blocks : list ItemBlock)
  : list Project :=
  match blocks with
  | [] => []
  | b :: rest => block_record (uuid_source env n) b :: block_records env (S n) rest
  end.

(** [class_name], decided. *)
Definition is_class_name (s : string) : bool :=
  negb (s =? "") && forallb name_byte (chars s).

(** A listing with two blocks inside a wrapper: the second has more classes
    and attributes, a title in two pieces inside another element, white
    space of several kinds around its texts, filler between its parts, and
    a first anchor without href. *)
Definition greenlab_node : Node :=
  Element "li" [("id", "p2"); ("class", "card project-item")]
    [ TextNode "  ";
      Element "div" [("class", "head")]
        [ Element "h3" [("class", "project-title big"); ("lang", "en")]
            [ TextNode (text [chr 194; chr 160; chr 9] ++ "Green ");
              TextNode ("Lab" ++ text [chr 10]) ];
          Element "span" [("class", "badge")] [TextNode "new"] ];
      Element "p" [("class", "project-description")] [TextNode " Soil kits  "];
      Element "div" [("class", "actions")]
        [ Element "a" [("name", "top")] [];
          Element "a" [("class", "more"); ("href", "/green-lab")] [] ] ].

Definition listing_page : list Node :=
  [ TextNode "Projects";
    Element "main" [("class", "listing wide")]
      (cleanseas_page ++ [TextNode "or"; greenlab_node]) ].

Definition cleanseas_block : ItemBlock :=
  {| title := "CleanSeas"; summary := "Ocean plastics education";
     link := "https://ied.eu/cleanseas" |}.

Definition greenlab_block : ItemBlock :=
  {| title := "Green Lab"; summary := "Soil kits"; link := "" |}.

Definition greenlab : Project :=
  {| id := sample_uuid 1; name := "Green Lab"; description := "Soil kits";
     url := "";
     officialWebsite := JUndefined; results := JUndefined;
     educationalPlan := JUndefined; suitabilityScore := JUndefined;
     category := JStr "unsuitable" |}.

Definition listing_env : Env :=
  {| VITE_OPENAI_API_KEY := None;
     http := fun _ _ => Ok (JStr "<html>...</html>");
     html_parser := fun _ => Ok listing_page;
     completion_endpoint := fun _ _ _ => Ok {| choices := [] |};
     uuid_source := sample_uuid |}.

(** The same listing where the identifier source gives one value twice. *)
Definition repeating_env : Env :=
  {| VITE_OPENAI_API_KEY := None;
     http := fun _ _ => Ok (JStr "<html>...</html>");
     html_parser := fun _ => Ok listing_page;
     completion_endpoint := fun _ _ _ => Ok {| choices := [] |};
     uuid_source := fun _ => "3b241101-e2bb-4255-8caf-4136c566a962" |}.

Ltac run :=
  unfold bind, try_catch, lift, ret, throw, console_error, log,
    axios.get, cheerio.load, crypto.randomUUID, create in *;
  simpl in *.

Ltac flatten :=
  repeat (rewrite <- app_assoc || rewrite <- app_comm_cons || rewrite app_nil_l).

Ltac flatten_in H :=
  repeat (rewrite <- app_assoc in H || rewrite <- app_comm_cons in H
          || rewrite app_nil_l in H).

Ltac measure H :=
  flatten_in H;
  repeat (rewrite length_app in H || (progress cbn [length] in H));
  repeat (rewrite length_app || (progress cbn [length])).

Ltac blanks :=
  repeat (apply Forall_cons; [simpl; auto 10|]); apply Forall_nil.

Ltac among_spaces :=
  vm_compute; repeat (try (left; reflexivity); right).

Ltac no_key :=
  let v := fresh "v" in
  let H := fresh "H" in
  intros v H; simpl in H;
  repeat (destruct H as [H|H]; [discriminate H|]); exact H.

(** ** The parser consumes input and has fuel to spare *)

Lemma skip_ws_length s : length (skip_ws s) <= length s.
Proof.
  induction s as [|c r IH]; simpl; [lia|].
  destruct (is_json_ws c); simpl; lia.
Qed.

Lemma strip_prefix_length p : forall s r, strip_prefix p s = Some r -> length r <= length s.
Proof.
  induction p as [|a p IH]; intros s r; simpl.
  - intros [= <-]. lia.
  - destruct s as [|b s]; [discriminate|]. destruct (Ascii.eqb a b); [|discriminate].
    intros H. apply IH in H. simpl. lia.
Qed.

Lemma digits_length s : forall acc n a m r,
  digits s acc n = (a, m, r) -> length r + m = length s + n.
Proof.
  induction s as [|c s IH]; intros acc n a m r; simpl.
  - intros [= <- <- <-]. reflexivity.
  - destruct (is_digit c).
    + intros H. apply IH in H. lia.
    + intros [= <- <- <-]. reflexivity.
Qed.

Lemma parse_sign_length b s neg r :
  parse_sign b s = (neg, r) -> length r <= length s.
Proof.
  unfold parse_sign. destruct s as [|c s]; [intros [= <- <-]; lia|].
  destruct (code c =? 45)%N; [intros [= <- <-]; simpl; lia|].
  destruct (b && (code c =? 43)%N); intros [= <- <-]; simpl; lia.
Qed.

Lemma parse_digits_length s acc v n r :
  parse_digits s acc = Some (v, n, r) -> length r < length s.
Proof.
  unfold parse_digits. destruct (digits s acc 0) as [[v0 k] r0] eqn:D.
  apply digits_length in D. destruct k; [discriminate|].
  intros [= <- <- <-]. lia.
Qed.

Lemma parse_int_length s i r : parse_int s = Some (i, r) -> length r < length s.
Proof.
  unfold parse_int. destruct s as [|c s]; [discriminate|].
  destruct (code c =? 48)%N; [intros [= <- <-]; simpl; lia|].
  destruct (parse_digits (c :: s) 0) as [[[v n] r1]|] eqn:D; [|discriminate].
  apply parse_digits_length in D. intros [= <- <-]. exact D.
Qed.

Lemma parse_fraction_length s i m n r :
  parse_fraction s i = Some (m, n, r) -> length r <= length s.
Proof.
  unfold parse_fraction. destruct s as [|c s]; [intros [= <- <- <-]; lia|].
  destruct (code c =? 46)%N; [|intros [= <- <- <-]; lia].
  intros D. apply parse_digits_length in D. simpl. lia.
Qed.

Lemma parse_exponent_length s e r :
  parse_exponent s = Some (e, r) -> length r <= length s.
Proof.
  unfold parse_exponent. destruct s as [|c s]; [intros [= <- <-]; lia|].
  destruct ((code c =? 101) || (code c =? 69))%N; [|intros [= <- <-]; lia].
  destruct (parse_sign true s) as [neg r1] eqn:S. apply parse_sign_length in S.
  destruct (parse_digits r1 0) as [[[v n] r2]|] eqn:D; [|discriminate].
  apply parse_digits_length in D. intros [= <- <-]. simpl. lia.
Qed.

Lemma parse_number_length s q r :
  parse_number s = Some (q, r) -> length r < length s.
Proof.
  unfold parse_number.
  destruct (parse_sign false s) as [neg s1] eqn:S. apply parse_sign_length in S.
  destruct (parse_int s1) as [[i s2]|] eqn:I; [|discriminate].
  apply parse_int_length in I.
  destruct (parse_fraction s2 i) as [[[m flen] s3]|] eqn:F; [|discriminate].
  apply parse_fraction_length in F.
  destruct (parse_exponent s3) as [[e s4]|] eqn:X; [|discriminate].
  apply parse_exponent_length in X. intros [= <- <-]. lia.
Qed.

Lemma string_body_bounded n :
  forall s acc str r,
    length s <= n -> string_body s acc = Some (str, r) -> length r < length s.
Proof.
  induction n as [|n IH]; intros s acc str r Hl H.
  - destruct s; [discriminate|simpl in Hl; lia].
  - destruct s as [|c r0]; [discriminate|]. simpl in Hl.
    cbn [string_body] in H. cbv zeta in H.
    repeat match type of H with
           | (if ?b then _ else _) = _ => destruct b
           | match ?x with _ => _ end = _ =>
               lazymatch type of x with
               | list _ => destruct x
               | option _ => destruct x
               end
           | None = Some _ => discriminate H
           | Some _ = Some _ => injection H as <- <-
           | string_body _ _ = Some _ => apply IH in H; [|cbn [length] in *; lia]
           end; cbn [length] in *; try lia.
Qed.

Lemma string_body_length s acc str r :
  string_body s acc = Some (str, r) -> length r < length s.
Proof. apply (string_body_bounded (length s)). lia. Qed.

Lemma fuel_adequate f :
  (forall s v r,
     parse_value f s = Some (v, r) ->
     length r < length s
     /\ forall f', enough s r f' -> parse_value f' s = Some (v, r))
  /\ (forall s acc v r,
        parse_elements f s acc = Some (v, r) ->
        length r < length s
        /\ forall f', enough s r f' -> parse_elements f' s acc = Some (v, r))
  /\ (forall s acc v r,
        parse_members f s acc = Some (v, r) ->
        length r < length s
        /\ forall f', enough s r f' -> parse_members f' s acc = Some (v, r)).
Proof.
  unfold enough.
  induction f as [|f (IHv & IHe & IHm)]; [repeat split; discriminate|].
  split; [|split].
  - intros s v r H. cbn [parse_value] in H.
    pose proof (skip_ws_length s) as Hs.
    destruct (skip_ws s) as [|c r0] eqn:Es; [discriminate|]. cbn [length] in Hs.
    destruct (code c =? 123)%N eqn:E1.
    { pose proof (skip_ws_length r0) as Hs0.
      destruct (skip_ws r0) as [|c1 r1] eqn:Es0; [discriminate|]. cbn [length] in Hs0.
      destruct (code c1 =? 125)%N eqn:E2.
      - injection H as <- <-. split; [lia|].
        intros [|g] Hg; [lia|]. cbn [parse_value]. rewrite Es, E1, Es0, E2. reflexivity.
      - apply IHm in H as [Hl Hf]. cbn [length] in Hl. split; [lia|].
        intros [|g] Hg; [lia|]. cbn [parse_value]. rewrite Es, E1, Es0, E2.
        apply Hf. cbn [length]. lia. }
    destruct (code c =? 91)%N eqn:E3.
    { pose proof (skip_ws_length r0) as Hs0.
      destruct (skip_ws r0) as [|c1 r1] eqn:Es0; [discriminate|]. cbn [length] in Hs0.
      destruct (code c1 =? 93)%N eqn:E2.
      - injection H as <- <-. split; [lia|].
        intros [|g] Hg; [lia|]. cbn [parse_value]. rewrite Es, E1, E3, Es0, E2. reflexivity.
      - apply IHe in H as [Hl Hf]. cbn [length] in Hl. split; [lia|].
        intros [|g] Hg; [lia|]. cbn [parse_value]. rewrite Es, E1, E3, Es0, E2.
        apply Hf. cbn [length]. lia. }
    assert (L : length r < length s ->
                length r < length s /\
                forall f', 2 * (length s - length r) <= f' ->
                           parse_value f' s = parse_value (S f) s).
    { intros Hl. split; [exact Hl|]. intros [|g] Hg; [lia|].
      cbn [parse_value]. rewrite Es, E1, E3. reflexivity. }
    assert (H' := H).
    assert (Hl : length r < length s).
    { destruct (code c =? 34)%N.
      { destruct (string_body r0 []) as [[str r1]|] eqn:B; [|discriminate].
        apply string_body_length in B. injection H as <- <-. lia. }
      destruct (code c =? 116)%N.
      { destruct (strip_prefix (chars "rue") r0) as [r1|] eqn:P; [|discriminate].
        apply strip_prefix_length in P. injection H as <- <-. lia. }
      destruct (code c =? 102)%N.
      { destruct (strip_prefix (chars "alse") r0) as [r1|] eqn:P; [|discriminate].
        apply strip_prefix_length in P. injection H as <- <-. lia. }
      destruct (code c =? 110)%N.
      { destruct (strip_prefix (chars "ull") r0) as [r1|] eqn:P; [|discriminate].
        apply strip_prefix_length in P. injection H as <- <-. lia. }
      destruct (parse_number (c :: r0)) as [[q r1]|] eqn:P; [|discriminate].
      apply parse_number_length in P. injection H as <- <-. cbn [length] in P. lia. }
    destruct (L Hl) as [_ Hf]. split; [exact Hl|].
    intros f' Hf'. rewrite (Hf f' Hf'). cbn [parse_value]. rewrite Es, E1, E3. exact H'.
  - intros s acc v r H. cbn [parse_elements] in H.
    destruct (parse_value f s) as [[v1 r1]|] eqn:V; [|discriminate].
    apply IHv in V as [Hl1 Hf1].
    pose proof (skip_ws_length r1) as Hs.
    destruct (skip_ws r1) as [|c r2] eqn:Es; [discriminate|]. cbn [length] in Hs.
    destruct (code c =? 44)%N eqn:E1.
    + apply IHe in H as [Hl Hf]. split; [lia|].
      intros [|g] Hg; [lia|]. cbn [parse_elements].
      rewrite Hf1 by lia. rewrite Es, E1. apply Hf. lia.
    + destruct (code c =? 93)%N eqn:E2; [|discriminate].
      injection H as <- <-. split; [lia|].
      intros [|g] Hg; [lia|]. cbn [parse_elements].
      rewrite Hf1 by lia. rewrite Es, E1, E2. reflexivity.
  - intros s acc v r H. cbn [parse_members] in H.
    pose proof (skip_ws_length s) as Hs.
    destruct (skip_ws s) as [|q r0] eqn:Es; [discriminate|]. cbn [length] in Hs.
    destruct (code q =? 34)%N eqn:E0; [|discriminate].
    destruct (string_body r0 []) as [[k r1]|] eqn:B; [|discriminate].
    pose proof (string_body_length _ _ _ _ B) as Hb.
    pose proof (skip_ws_length r1) as Hs1.
    destruct (skip_ws r1) as [|c r2] eqn:Es1; [discriminate|]. cbn [length] in Hs1.
    destruct (code c =? 58)%N eqn:E1; [|discriminate].
    destruct (parse_value f r2) as [[v1 r3]|] eqn:V; [|discriminate].
    apply IHv in V as [Hl1 Hf1].
    pose proof (skip_ws_length r3) as Hs3.
    destruct (skip_ws r3) as [|d r4] eqn:Es3; [discriminate|]. cbn [length] in Hs3.
    destruct (code d =? 44)%N eqn:E2.
    + apply IHm in H as [Hl Hf]. split; [lia|].
      intros [|g] Hg; [lia|]. cbn [parse_members].
      rewrite Es, E0, B, Es1, E1. rewrite Hf1 by lia. rewrite Es3, E2. apply Hf. lia.
    + destruct (code d =? 125)%N eqn:E3; [|discriminate].
      injection H as <- <-. split; [lia|].
      intros [|g] Hg; [lia|]. cbn [parse_members].
      rewrite Es, E0, B, Es1, E1. rewrite Hf1 by lia. rewrite Es3, E2, E3. reflexivity.
Qed.

Lemma chars_length s : length (chars s) = String.length s.
Proof. induction s; simpl; congruence. Qed.

(** The fuel [JSON_parse] supplies never runs out: whatever some amount of
    fuel parses, that amount parses too. *)
Lemma JSON_parse_fuel s f v r :
  parse_value f (chars s) = Some (v, r) ->
  parse_value (2 * String.length s + 3) (chars s) = Some (v, r).
Proof.
  intros H. destruct (fuel_adequate f) as (Hv & _ & _).
  apply Hv in H as [_ Hf]. apply Hf. unfold enough. rewrite chars_length. lia.
Qed.

(** ** The parser accepts what the grammar describes *)

Lemma blank_is_ws c :
  In c [chr 32; chr 9; chr 10; chr 13] -> is_json_ws c = true.
Proof.
  intros H. simpl in H.
  repeat (destruct H as [<- | H]; [reflexivity|]). contradiction.
Qed.

Lemma skip_ws_blank w r : blank w -> skip_ws (w ++ r) = skip_ws r.
Proof.
  induction 1 as [|c w Hc _ IH]; [reflexivity|].
  simpl. rewrite (blank_is_ws _ Hc). exact IH.
Qed.

Lemma skip_ws_idempotent s : skip_ws (skip_ws s) = skip_ws s.
Proof.
  induction s as [|c r IH]; [reflexivity|].
  simpl. destruct (is_json_ws c) eqn:E; [exact IH|]. simpl. rewrite E. reflexivity.
Qed.

Lemma skip_ws_stops c r : is_json_ws c = false -> skip_ws (c :: r) = c :: r.
Proof. intros H. simpl. rewrite H. reflexivity. Qed.

Lemma code_chr n : (n < 256)%N -> code (chr n) = n.
Proof. apply N_ascii_embedding. Qed.

Lemma code_injective a b : code a = code b -> a = b.
Proof.
  intros H. rewrite <- (ascii_N_embedding a), <- (ascii_N_embedding b).
  unfold code in H. rewrite H. reflexivity.
Qed.

Lemma digit_is_digit c :
  In c decimal_digits ->
  is_digit c = true /\ Z.of_N (code c - 48) = (Z.of_N (code c) - 48)%Z.
Proof.
  intros H. simpl in H.
  repeat (destruct H as [<- | H]; [split; reflexivity|]). contradiction.
Qed.

Lemma digits_run d :
  Forall (fun c => In c decimal_digits) d ->
  forall r acc n,
    no_digit_ahead r ->
    digits (d ++ r) acc n
    = (fold_left (fun m c => 10 * m + (Z.of_N (code c) - 48))%Z d acc,
       n + length d, r).
Proof.
  induction 1 as [|c d Hc _ IH]; intros r acc n Hr.
  - simpl. rewrite Nat.add_0_r. destruct r as [|x r]; [reflexivity|].
    simpl in *. rewrite Hr. reflexivity.
  - simpl. destruct (digit_is_digit c Hc) as [-> ->].
    rewrite IH by exact Hr. f_equal. f_equal. lia.
Qed.

Lemma parse_digits_run d r acc :
  digit_text d ->
  no_digit_ahead r ->
  parse_digits (d ++ r) acc
  = Some (fold_left (fun m c => 10 * m + (Z.of_N (code c) - 48))%Z d acc,
          length d, r).
Proof.
  intros [Hne Hd] Hr. unfold parse_digits. rewrite (digits_run d Hd r acc 0 Hr).
  destruct d; [contradiction|]. reflexivity.
Qed.

Lemma value_end_no_digit r : value_end r -> no_digit_ahead r.
Proof.
  destruct r as [|c r]; [trivial|]. simpl. intros H.
  repeat (destruct H as [<- | H]; [reflexivity|]). contradiction.
Qed.

Lemma decimal_value neg m z :
  (decimal neg m z
   == inject_Z (if neg then - m else m) * Qpower (inject_Z 10) z)%Q.
Proof.
  unfold decimal. set (m' := if neg then (- m)%Z else m).
  destruct (0 <=? z)%Z eqn:E.
  - apply Z.leb_le in E. rewrite inject_Z_mult, Zpower_Qpower by exact E. reflexivity.
  - apply Z.leb_gt in E. rewrite Qred_correct, Qmake_Qdiv.
    assert (P : (0 < 10 ^ (- z))%Z) by (apply Z.pow_pos_nonneg; lia).
    rewrite Z2Pos.id by exact P.
    rewrite Zpower_Qpower by lia.
    assert (Hz : (inject_Z 10 ^ z == / inject_Z 10 ^ (- z))%Q).
    { rewrite <- Qpower_opp, Z.opp_involutive. reflexivity. }
    rewrite Hz. reflexivity.
Qed.

Lemma number_same p q : (p == q)%Q -> number p = number q.
Proof. intros H. unfold number. rewrite (Qred_complete _ _ H). reflexivity. Qed.

Lemma digit_codes c :
  In c decimal_digits ->
  (code c =? 45)%N = false /\ (code c =? 43)%N = false
  /\ (code c =? 48)%N = (code c =? 48)%N.
Proof.
  intros H. simpl in H.
  repeat (destruct H as [<- | H]; [repeat split|]). contradiction.
Qed.

Lemma exponent_text_end exponent r :
  (forall e s d,
     exponent = Some (e, s, d) ->
     In e [chr 101; chr 69] /\ In s [[]; [chr 43]; [chr 45]] /\ digit_text d) ->
  value_end r ->
  mantissa_end (exponent_text exponent ++ r).
Proof.
  intros H Hr. destruct exponent as [[[e s] d]|].
  - destruct (H e s d eq_refl) as (He & _). simpl in *.
    destruct He as [<- | [<- | []]]; split; reflexivity.
  - simpl. destruct r as [|c r]; [exact I|]. simpl in *.
    repeat (destruct Hr as [<- | Hr]; [split; reflexivity|]). contradiction.
Qed.

Lemma parse_exponent_complete exponent r :
  (forall e s d,
     exponent = Some (e, s, d) ->
     In e [chr 101; chr 69] /\ In s [[]; [chr 43]; [chr 45]] /\ digit_text d) ->
  value_end r ->
  parse_exponent (exponent_text exponent ++ r) = Some (exponent_number exponent, r).
Proof.
  intros H Hr. destruct exponent as [[[e s] d]|].
  - destruct (H e s d eq_refl) as (He & Hs & Hd).
    assert (Hrun := parse_digits_run d r 0%Z Hd (value_end_no_digit r Hr)).
    assert (Hhead : exists c d', d = c :: d' /\ In c decimal_digits).
    { destruct Hd as [Hne Hall]. destruct d as [|c d']; [contradiction|].
      inversion Hall. eauto. }
    destruct Hhead as (c & d' & -> & Hc).
    destruct (digit_codes c Hc) as (C45 & C43 & _).
    assert (Hsign : parse_sign true ((s ++ c :: d') ++ r)
                    = (if list_eq_dec ascii_dec s [chr 45] then true else false,
                       (c :: d') ++ r)%list).
    { simpl in Hs. destruct Hs as [<- | [<- | [<- | []]]].
      - simpl. rewrite C45, C43. reflexivity.
      - reflexivity.
      - reflexivity. }
    unfold exponent_text, exponent_number, parse_exponent.
    cbn [app]. 
    replace ((code e =? 101) || (code e =? 69))%N with true
      by (simpl in He; destruct He as [<- | [<- | []]]; reflexivity).
    rewrite Hsign, Hrun. unfold digits_number.
    destruct (list_eq_dec ascii_dec s [chr 45]); reflexivity.
  - simpl. destruct r as [|c r]; [reflexivity|]. simpl in Hr.
    unfold parse_exponent.
    replace ((code c =? 101) || (code c =? 69))%N with false; [reflexivity|].
    repeat (destruct Hr as [<- | Hr]; [reflexivity|]). contradiction.
Qed.

Lemma parse_fraction_complete fraction tail i :
  fraction = [] \/ digit_text fraction ->
  mantissa_end tail ->
  parse_fraction
    ((match fraction with [] => [] | _ :: _ => chr 46 :: fraction end) ++ tail) i
  = Some (fold_left (fun m c => 10 * m + (Z.of_N (code c) - 48))%Z fraction i,
          length fraction, tail).
Proof.
  intros H Ht. destruct fraction as [|c f].
  - simpl. unfold parse_fraction. destruct tail as [|x tail]; [reflexivity|].
    simpl in Ht. destruct Ht as [_ ->]. reflexivity.
  - destruct H as [H | H]; [discriminate|].
    cbn [app]. unfold parse_fraction. change (code (chr 46) =? 46)%N with true.
    cbv iota. apply (parse_digits_run (c :: f) tail i); [exact H|].
    destruct tail as [|x tail]; [exact I|]. simpl in *. tauto.
Qed.

Lemma parse_int_complete int tail :
  integer_text int ->
  mantissa_end tail \/ (exists x rest, tail = x :: rest /\ code x = 46%N) ->
  parse_int (int ++ tail) = Some (digits_number int, tail).
Proof.
  intros Hi Ht. destruct Hi as [|c d Hc Hd].
  - reflexivity.
  - assert (Hc' : In c decimal_digits) by (simpl in *; tauto).
    assert (C48 : (code c =? 48)%N = false).
    { simpl in Hc. repeat (destruct Hc as [<- | Hc]; [reflexivity|]). contradiction. }
    cbn [app]. unfold parse_int. rewrite C48.
    assert (Hn : no_digit_ahead tail).
    { destruct Ht as [Ht | (x & rest & -> & Hx)].
      - destruct tail; [exact I|]. simpl in *. tauto.
      - simpl. unfold is_digit. rewrite Hx. reflexivity. }
    assert (Hd' : digit_text (c :: d)).
    { split; [discriminate|]. constructor; assumption. }
    pose proof (parse_digits_run (c :: d) tail 0%Z Hd' Hn) as R.
    cbn [app] in R. rewrite R. reflexivity.
Qed.

Lemma integer_head int :
  integer_text int -> exists c d, int = c :: d /\ In c decimal_digits.
Proof.
  intros [|c d Hc Hd].
  - exists (chr 48), []. split; [reflexivity|]. simpl. auto.
  - exists c, d. split; [reflexivity|]. simpl in *. tauto.
Qed.

Lemma parse_number_complete t q r :
  number_text t q ->
  value_end r ->
  exists q', parse_number (t ++ r) = Some (q', r) /\ (q' == q)%Q.
Proof.
  intros Hn Hr. destruct Hn as [negative int fraction exponent Hint Hfrac Hexp].
  fold (exponent_text exponent). fold (exponent_number exponent).
  set (ftext := match fraction with [] => [] | _ :: _ => chr 46 :: fraction end).
  pose proof (exponent_text_end exponent r Hexp Hr) as Hend.
  assert (Htail : mantissa_end ((ftext ++ exponent_text exponent) ++ r)
                  \/ exists x rest,
                       ((ftext ++ exponent_text exponent) ++ r)%list = x :: rest
                       /\ code x = 46%N).
  { subst ftext. destruct fraction as [|c f].
    - left. exact Hend.
    - right. do 2 eexists. split; [reflexivity|]. reflexivity. }
  destruct (integer_head int Hint) as (c & d & Eint & Hc).
  destruct (digit_codes c Hc) as (C45 & _ & _).
  assert (Hsign : parse_sign false
                    (((if negative then [chr 45] else []) ++ int ++ ftext
                      ++ exponent_text exponent) ++ r)
                  = (negative, (int ++ (ftext ++ exponent_text exponent) ++ r)%list)).
  { destruct negative.
    - cbn [app]. unfold parse_sign. change (code (chr 45) =? 45)%N with true.
      cbv iota. rewrite <- !app_assoc. reflexivity.
    - cbn [app]. rewrite Eint. cbn [app]. unfold parse_sign. rewrite C45.
      cbn [andb]. rewrite <- !app_assoc. reflexivity. }
  unfold parse_number. rewrite Hsign.
  rewrite (parse_int_complete int _ Hint Htail).
  rewrite <- app_assoc. subst ftext.
  rewrite (parse_fraction_complete fraction _ _ Hfrac Hend).
  rewrite (parse_exponent_complete exponent r Hexp Hr).
  eexists. split; [reflexivity|].
  rewrite decimal_value. unfold digits_number. rewrite fold_left_app. reflexivity.
Qed.

Lemma hex_value_spec c v :
  hex_digit_number c v -> hex_value c = Some (N.of_nat v) /\ v < 16.
Proof.
  intros [H | H];
    do 16 (destruct v as [|v]; [injection H as <-; split; [reflexivity|lia]|]);
    destruct v; discriminate H.
Qed.

Lemma hex4_spec h1 h2 h3 h4 u :
  code_unit h1 h2 h3 h4 u -> hex4 h1 h2 h3 h4 = Some u.
Proof.
  intros (a & b & c & d & Ha & Hb & Hc & Hd & ->).
  apply hex_value_spec in Ha as [Ha _], Hb as [Hb _], Hc as [Hc _], Hd as [Hd _].
  unfold hex4. rewrite Ha, Hb, Hc, Hd. f_equal. lia.
Qed.

Lemma string_body_quote r acc :
  string_body (quote :: r) acc = Some (text (rev acc), r).
Proof. reflexivity. Qed.

Lemma string_body_plain c r acc :
  (32 <= code c)%N -> c <> quote -> c <> backslash ->
  string_body (c :: r) acc = string_body r (c :: acc).
Proof.
  intros H32 Hq Hb. cbn [string_body].
  assert ((code c =? 34)%N = false) as ->.
  { apply N.eqb_neq. intros E. apply Hq. apply code_injective. rewrite E. reflexivity. }
  assert ((code c <? 32)%N = false) as -> by (apply N.ltb_ge; exact H32).
  assert ((code c =? 92)%N = false) as ->.
  { apply N.eqb_neq. intros E. apply Hb. apply code_injective. rewrite E. reflexivity. }
  reflexivity.
Qed.

Lemma string_body_escape e c r acc :
  In (e, c) simple_escapes ->
  string_body (backslash :: e :: r) acc = string_body r (c :: acc).
Proof.
  intros H. simpl in H.
  repeat (destruct H as [[= <- <-] | H]; [reflexivity|]). contradiction.
Qed.

Lemma string_body_unicode h1 h2 h3 h4 r2 acc :
  string_body (backslash :: chr 117 :: h1 :: h2 :: h3 :: h4 :: r2) acc
  = match hex4 h1 h2 h3 h4 with
    | None => None
    | Some u =>
        let single := string_body r2 (rev (utf8 u) ++ acc) in
        if ((55296 <=? u) && (u <? 56320))%N then
          match r2 with
          | b :: v :: l1 :: l2 :: l3 :: l4 :: r3 =>
              if ((code b =? 92) && (code v =? 117))%N then
                match hex4 l1 l2 l3 l4 with
                | Some lo =>
                    if ((56320 <=? lo) && (lo <? 57344))%N then
                      string_body r3
                        (rev (utf8 (65536 + 1024 * (u - 55296) + (lo - 56320)))
                           ++ acc)
                    else single
                | None => single
                end
              else single
          | _ => single
          end
        else single
    end.
Proof. reflexivity. Qed.

Lemma hex_value_complete c n :
  hex_value c = Some n -> hex_digit_number c (N.to_nat n).
Proof.
  destruct c as [[] [] [] [] [] [] [] []]; intros H; try discriminate H;
    injection H as <-; ((left; reflexivity) || (right; reflexivity)).
Qed.

Lemma hex4_complete h1 h2 h3 h4 u :
  hex4 h1 h2 h3 h4 = Some u -> code_unit h1 h2 h3 h4 u.
Proof.
  unfold hex4.
  destruct (hex_value h1) as [x|] eqn:E1; [|discriminate].
  destruct (hex_value h2) as [y|] eqn:E2; [|discriminate].
  destruct (hex_value h3) as [z|] eqn:E3; [|discriminate].
  destruct (hex_value h4) as [w|] eqn:E4; [|discriminate].
  intros [= <-].
  exists (N.to_nat x), (N.to_nat y), (N.to_nat z), (N.to_nat w).
  repeat split; try (apply hex_value_complete; assumption).
  rewrite !Nat2N.inj_add, !Nat2N.inj_mul, !N2Nat.id. reflexivity.
Qed.

Lemma escape_is_not_u e c : In (e, c) simple_escapes -> (code e =? 117)%N = false.
Proof.
  intros H. simpl in H.
  repeat (destruct H as [[= <- <-] | H]; [reflexivity|]). contradiction.
Qed.

(** Where no low-surrogate escape is ahead in the string, the parser's
    look-ahead for one fails, whatever follows the string. *)
Lemma no_pair_ahead {A} t s rest (pair : list ascii -> N -> A) (single : A) :
  string_text t s ->
  ~ low_escape_ahead t ->
  match (t ++ quote :: rest)%list with
  | b :: v :: l1 :: l2 :: l3 :: l4 :: r3 =>
      if ((code b =? 92) && (code v =? 117))%N then
        match hex4 l1 l2 l3 l4 with
        | Some lo =>
            if ((56320 <=? lo) && (lo <? 57344))%N then pair r3 lo else single
        | None => single
        end
      else single
  | _ => single
  end = single.
Proof.
  intros Ht Hno.
  destruct (t ++ quote :: rest)%list as [|b [|v [|l1 [|l2 [|l3 [|l4 r3]]]]]] eqn:E;
    try reflexivity.
  destruct ((code b =? 92) && (code v =? 117))%N eqn:Ebv; [|reflexivity].
  apply andb_true_iff in Ebv as [Eb Ev]. apply N.eqb_eq in Eb, Ev.
  destruct (hex4 l1 l2 l3 l4) as [lo|] eqn:Eh; [|reflexivity].
  destruct ((56320 <=? lo) && (lo <? 57344))%N eqn:Elo; [|reflexivity].
  exfalso. apply Hno.
  assert (Hlow : low_surrogate lo).
  { apply andb_true_iff in Elo as [E1 E2]. apply N.leb_le in E1. apply N.ltb_lt in E2.
    split; assumption. }
  assert (Hb : b = backslash) by (apply code_injective; rewrite Eb; reflexivity).
  assert (Hv : v = chr 117) by (apply code_injective; rewrite Ev; reflexivity).
  subst b v.
  destruct Ht as [|c t s H32 Hq Hb Ht|e c t s He Ht
                 |h1 h2 h3 h4 u t s Hu Hc Ht
                 |h1 h2 h3 h4 hi k1 k2 k3 k4 lo' t s Hhi Hh Hlo Hl Ht].
  - discriminate E.
  - injection E as -> _. contradiction Hb. reflexivity.
  - injection E as -> _. apply escape_is_not_u in He. discriminate He.
  - injection E as -> -> -> -> _.
    exists l1, l2, l3, l4, lo, t. repeat split; try apply Hlow.
    apply hex4_complete. exact Eh.
  - injection E as -> -> -> -> _.
    exists l1, l2, l3, l4, lo. eexists. repeat split; try apply Hlow.
    apply hex4_complete. exact Eh.
Qed.

Lemma string_body_complete t s :
  string_text t s ->
  forall rest acc,
    string_body (t ++ quote :: rest) acc = Some (text (rev acc ++ s), rest).
Proof.
  induction 1 as [|c t s H32 Hq Hb Ht IH|e c t s He Ht IH
                 |h1 h2 h3 h4 u t s Hu Hc Ht IH
                 |h1 h2 h3 h4 hi l1 l2 l3 l4 lo t s Hhi Hh Hlo Hl Ht IH];
    intros rest acc.
  - cbn [app]. rewrite string_body_quote, app_nil_r. reflexivity.
  - cbn [app]. rewrite string_body_plain by assumption. rewrite IH.
    cbn [rev]. rewrite <- app_assoc. reflexivity.
  - cbn [app]. rewrite (string_body_escape e c) by assumption. rewrite IH.
    cbn [rev]. rewrite <- app_assoc. reflexivity.
  - cbn [app]. rewrite string_body_unicode, (hex4_spec _ _ _ _ _ Hu). cbv zeta.
    assert (Hsingle : string_body (t ++ quote :: rest) (rev (utf8 u) ++ acc)
                      = Some (text (rev acc ++ utf8 u ++ s), rest)).
    { rewrite IH, rev_app_distr, rev_involutive, <- app_assoc. reflexivity. }
    destruct ((55296 <=? u) && (u <? 56320))%N eqn:Ehigh; [|exact Hsingle].
    destruct Hc as [Hc | Hc].
    + exfalso. apply Hc. apply andb_true_iff in Ehigh as [E1 E2].
      apply N.leb_le in E1. apply N.ltb_lt in E2. split; assumption.
    + rewrite (no_pair_ahead t s rest _ _ Ht Hc). exact Hsingle.
  - cbn [app]. rewrite string_body_unicode, (hex4_spec _ _ _ _ _ Hhi). cbv zeta.
    destruct Hh as [Hh1 Hh2]. destruct Hl as [Hl1 Hl2].
    assert ((55296 <=? hi) && (hi <? 56320) = true)%N as ->.
    { apply andb_true_iff. split; [apply N.leb_le|apply N.ltb_lt]; assumption. }
    change (code backslash =? 92)%N with true.
    change (code (chr 117) =? 117)%N with true. cbn [andb].
    rewrite (hex4_spec _ _ _ _ _ Hlo).
    assert ((56320 <=? lo) && (lo <? 57344) = true)%N as ->.
    { apply andb_true_iff. split; [apply N.leb_le|apply N.ltb_lt]; assumption. }
    rewrite IH, rev_app_distr, rev_involutive, <- app_assoc. reflexivity.
Qed.

Lemma value_end_blank w c rest :
  blank w -> In c [chr 44; chr 93; chr 125] -> value_end (w ++ c :: rest).
Proof.
  intros Hw Hc. destruct Hw as [|x w' Hx _].
  - simpl in *. tauto.
  - simpl in *. tauto.
Qed.

Lemma blank_value_end w : blank w -> value_end w.
Proof. intros [|x w' Hx _]; simpl in *; tauto. Qed.

Lemma number_head t q :
  number_text t q ->
  exists c t', t = c :: t' /\ (c = chr 45 \/ In c decimal_digits).
Proof.
  intros [negative int fraction exponent Hint _ _].
  destruct (integer_head int Hint) as (c & d & -> & Hc).
  destruct negative; cbn [app]; eauto.
Qed.

Lemma number_head_tests c :
  c = chr 45 \/ In c decimal_digits ->
  opens_value c
  /\ (code c =? 123)%N = false /\ (code c =? 91)%N = false
  /\ (code c =? 34)%N = false /\ (code c =? 116)%N = false
  /\ (code c =? 102)%N = false /\ (code c =? 110)%N = false.
Proof.
  intros [-> | H]; [repeat split|]. simpl in H.
  repeat (destruct H as [<- | H]; [repeat split|]). contradiction.
Qed.

Lemma json_head t v :
  json t v -> exists c t', t = c :: t' /\ opens_value c.
Proof.
  intros [| | |t0 q Hn|t0 s Hs|w Hw|t0 vs He|w Hw|t0 ms Hm];
    try (do 2 eexists; split; [reflexivity|repeat split]).
  destruct (number_head _ _ Hn) as (c & t' & -> & Hc).
  exists c, t'. split; [reflexivity|]. apply number_head_tests. exact Hc.
Qed.

Lemma elements_head t vs :
  json_elements t vs ->
  exists c r,
    opens_value c /\ forall tail, skip_ws (t ++ tail) = (c :: r ++ tail)%list.
Proof.
  intros [w1 t1 v w2 Hw1 Ht Hw2|w1 t1 v w2 rest0 vs0 Hw1 Ht Hw2 _];
    destruct (json_head _ _ Ht) as (c & t' & -> & Hc);
    assert (Hws := Hc); destruct Hws as (Hws & _).
  - exists c, (t' ++ w2)%list. split; [exact Hc|]. intros tail.
    rewrite <- app_assoc, skip_ws_blank by exact Hw1.
    cbn [app]. rewrite skip_ws_stops by exact Hws. rewrite <- app_assoc. reflexivity.
  - exists c, (t' ++ w2 ++ chr 44 :: rest0)%list. split; [exact Hc|]. intros tail.
    rewrite <- app_assoc, skip_ws_blank by exact Hw1.
    cbn [app]. rewrite skip_ws_stops by exact Hws.
    rewrite <- !app_assoc. reflexivity.
Qed.

Lemma members_head t ms :
  json_members t ms ->
  exists r, forall tail, skip_ws (t ++ tail) = (quote :: r ++ tail)%list.
Proof.
  intros [w1 k s w2 w3 t1 v w4 Hw1 _ _ _ _ _
         |w1 k s w2 w3 t1 v w4 rest0 ms0 Hw1 _ _ _ _ _ _];
    eexists; intros tail;
    rewrite <- app_assoc, skip_ws_blank by exact Hw1;
    cbn [app]; rewrite skip_ws_stops by reflexivity; reflexivity.
Qed.

Lemma parse_value_skip f s : parse_value f (skip_ws s) = parse_value f s.
Proof. destruct f; [reflexivity|]. cbn [parse_value]. rewrite skip_ws_idempotent. reflexivity. Qed.

Lemma parse_elements_skip f s acc :
  parse_elements f (skip_ws s) acc = parse_elements f s acc.
Proof. destruct f; [reflexivity|]. cbn [parse_elements]. rewrite parse_value_skip. reflexivity. Qed.

Lemma parse_members_skip f s acc :
  parse_members f (skip_ws s) acc = parse_members f s acc.
Proof. destruct f; [reflexivity|]. cbn [parse_members]. rewrite skip_ws_idempotent. reflexivity. Qed.

Lemma parse_value_number f w c r q rest :
  blank w ->
  c = chr 45 \/ In c decimal_digits ->
  parse_number (c :: r) = Some (q, rest) ->
  parse_value (S f) (w ++ c :: r) = Some (number q, rest).
Proof.
  intros Hw Hc Hp.
  destruct (number_head_tests c Hc) as ((Hws & _) & T1 & T2 & T3 & T4 & T5 & T6).
  cbn [parse_value]. rewrite skip_ws_blank, skip_ws_stops by assumption.
  cbv zeta. rewrite T1, T2, T3, T4, T5, T6, Hp. reflexivity.
Qed.

(** With enough fuel the parser reads every text of the grammar to the
    value the grammar gives it, and stops where the text stops. *)
Lemma parser_complete :
  (forall t v,
     json t v ->
     forall w rest f,
       blank w -> value_end rest ->
       2 * length (w ++ t ++ rest) + 1 <= f ->
       parse_value f (w ++ t ++ rest) = Some (v, rest))
  /\ (forall t vs,
        json_elements t vs ->
        forall acc rest f,
          2 * length (t ++ chr 93 :: rest) + 2 <= f ->
          parse_elements f (t ++ chr 93 :: rest) acc
          = Some (JArr (rev acc ++ vs), rest))
  /\ (forall t ms,
        json_members t ms ->
        forall acc rest f,
          2 * length (t ++ chr 125 :: rest) + 2 <= f ->
          parse_members f (t ++ chr 125 :: rest) acc
          = Some (JObj (fold_left (fun o m => define (fst m) (snd m) o) ms acc),
                  rest)).
Proof.
  apply json_mutual.
  - (* null *)
    intros w rest [|f] Hw Hr Hf; [lia|].
    cbn [parse_value]. rewrite skip_ws_blank by exact Hw. reflexivity.
  - intros w rest [|f] Hw Hr Hf; [lia|].
    cbn [parse_value]. rewrite skip_ws_blank by exact Hw. reflexivity.
  - intros w rest [|f] Hw Hr Hf; [lia|].
    cbn [parse_value]. rewrite skip_ws_blank by exact Hw. reflexivity.
  - (* number *)
    intros t q Hn w rest [|f] Hw Hr Hf; [lia|].
    destruct (parse_number_complete t q rest Hn Hr) as (q' & Hp & Hq).
    destruct (number_head t q Hn) as (c & t' & -> & Hc).
    cbn [app] in *. rewrite (parse_value_number f w c _ q' rest Hw Hc Hp).
    rewrite (number_same _ _ Hq). reflexivity.
  - (* string *)
    intros t s Hs w rest [|f] Hw Hr Hf; [lia|].
    cbn [parse_value]. flatten. rewrite skip_ws_blank by exact Hw.
    rewrite skip_ws_stops by reflexivity. cbv zeta.
    change (code quote =? 123)%N with false. change (code quote =? 91)%N with false.
    change (code quote =? 34)%N with true. cbv iota.
    rewrite (string_body_complete t s Hs rest []). reflexivity.
  - (* empty array *)
    intros w0 Hw0 w rest [|f] Hw Hr Hf; [lia|].
    cbn [parse_value]. flatten. rewrite skip_ws_blank by exact Hw.
    rewrite skip_ws_stops by reflexivity. cbv zeta.
    change (code (chr 91) =? 123)%N with false. change (code (chr 91) =? 91)%N with true.
    cbv iota. rewrite skip_ws_blank by exact Hw0. reflexivity.
  - (* array *)
    intros t vs He IH w rest [|f] Hw Hr Hf; [lia|].
    cbn [parse_value]. flatten. rewrite skip_ws_blank by exact Hw.
    rewrite skip_ws_stops by reflexivity. cbv zeta.
    change (code (chr 91) =? 123)%N with false. change (code (chr 91) =? 91)%N with true.
    cbv iota.
    destruct (elements_head t vs He) as (c & r & (_ & C93 & _) & Hskip).
    rewrite (Hskip (chr 93 :: rest)), C93.
    rewrite <- (Hskip (chr 93 :: rest)), parse_elements_skip.
    rewrite IH; [reflexivity|]. measure Hf. lia.
  - (* empty object *)
    intros w0 Hw0 w rest [|f] Hw Hr Hf; [lia|].
    cbn [parse_value]. flatten. rewrite skip_ws_blank by exact Hw.
    rewrite skip_ws_stops by reflexivity. cbv zeta.
    change (code (chr 123) =? 123)%N with true. cbv iota.
    rewrite skip_ws_blank by exact Hw0. reflexivity.
  - (* object *)
    intros t ms Hm IH w rest [|f] Hw Hr Hf; [lia|].
    cbn [parse_value]. flatten. rewrite skip_ws_blank by exact Hw.
    rewrite skip_ws_stops by reflexivity. cbv zeta.
    change (code (chr 123) =? 123)%N with true. cbv iota.
    destruct (members_head t ms Hm) as (r & Hskip).
    rewrite (Hskip (chr 125 :: rest)).
    change (code quote =? 125)%N with false. cbv iota.
    rewrite <- (Hskip (chr 125 :: rest)), parse_members_skip.
    rewrite IH; [reflexivity|]. measure Hf. lia.
  - (* last element *)
    intros w1 t v w2 Hw1 Ht IH Hw2 acc rest [|f] Hf; [lia|].
    cbn [parse_elements]. flatten.
    rewrite (IH w1 (w2 ++ chr 93 :: rest)%list f Hw1).
    + rewrite skip_ws_blank by exact Hw2. reflexivity.
    + apply value_end_blank; [exact Hw2|]. simpl. auto.
    + measure Hf. lia.
  - (* more elements *)
    intros w1 t v w2 rest0 vs Hw1 Ht IH Hw2 He IHe acc rest [|f] Hf; [lia|].
    cbn [parse_elements]. flatten.
    rewrite (IH w1 (w2 ++ chr 44 :: rest0 ++ chr 93 :: rest)%list f Hw1).
    + rewrite skip_ws_blank by exact Hw2.
      rewrite skip_ws_stops by reflexivity.
      change (code (chr 44) =? 44)%N with true. cbv iota.
      rewrite IHe.
      * cbn [rev]. rewrite <- app_assoc. reflexivity.
      * measure Hf. lia.
    + apply value_end_blank; [exact Hw2|]. simpl. auto.
    + measure Hf. lia.
  - (* last member *)
    intros w1 k s w2 w3 t v w4 Hw1 Hk Hw2 Hw3 Ht IH Hw4 acc rest [|f] Hf; [lia|].
    cbn [parse_members]. flatten.
    rewrite skip_ws_blank by exact Hw1. rewrite skip_ws_stops by reflexivity.
    change (code quote =? 34)%N with true. cbv iota.
    rewrite (string_body_complete k s Hk _ []). cbn [rev app].
    rewrite skip_ws_blank by exact Hw2. rewrite skip_ws_stops by reflexivity.
    change (code (chr 58) =? 58)%N with true. cbv iota.
    rewrite (IH w3 (w4 ++ chr 125 :: rest)%list f Hw3).
    + rewrite skip_ws_blank by exact Hw4. reflexivity.
    + apply value_end_blank; [exact Hw4|]. simpl. auto.
    + measure Hf. lia.
  - (* more members *)
    intros w1 k s w2 w3 t v w4 rest0 ms Hw1 Hk Hw2 Hw3 Ht IH Hw4 Hm IHm
      acc rest [|f] Hf; [lia|].
    cbn [parse_members]. flatten.
    rewrite skip_ws_blank by exact Hw1. rewrite skip_ws_stops by reflexivity.
    change (code quote =? 34)%N with true. cbv iota.
    rewrite (string_body_complete k s Hk _ []). cbn [rev app].
    rewrite skip_ws_blank by exact Hw2. rewrite skip_ws_stops by reflexivity.
    change (code (chr 58) =? 58)%N with true. cbv iota.
    rewrite (IH w3 (w4 ++ chr 44 :: rest0 ++ chr 125 :: rest)%list f Hw3).
    + rewrite skip_ws_blank by exact Hw4. rewrite skip_ws_stops by reflexivity.
      change (code (chr 44) =? 44)%N with true. cbv iota.
      rewrite IHm; [reflexivity|]. measure Hf. lia.
    + apply value_end_blank; [exact Hw4|]. simpl. auto.
    + measure Hf. lia.
Qed.

Lemma skip_ws_all_blank w : blank w -> skip_ws w = [].
Proof.
  intros H. rewrite <- (app_nil_r w). rewrite skip_ws_blank by exact H. reflexivity.
Qed.

(** [JSON.parse] returns the value the grammar gives to the text. *)
Lemma JSON_parse_complete s v : json_document s v -> JSON_parse s = Ok v.
Proof.
  intros (w1 & t & w2 & Hw1 & Ht & Hw2 & E). unfold JSON_parse. rewrite E.
  destruct parser_complete as (Hv & _ & _).
  rewrite (Hv t v Ht w1 w2 _ Hw1 (blank_value_end w2 Hw2)).
  - rewrite (skip_ws_all_blank w2 Hw2). reflexivity.
  - rewrite <- E, chars_length. lia.
Qed.

(** Numbers are read as binary64: an integer beyond 2^53 moves to its
    nearest double, a literal too small to zero, one too large to Infinity;
    white space around the tokens is skipped. *)
Example parse_rounds_to_double :
  JSON_parse (dq " { 'suitabilityScore' : 9007199254740993 , 'category' : 'both' } ")
  = Ok (JObj [("suitabilityScore", JNum 9007199254740992); ("category", JStr "both")])
  /\ JSON_parse "[0.1, 1e-400, -1e999]"
     = Ok (JArr [ JNum (3602879701896397 # 36028797018963968); JNum 0;
                  JInfinity true ]).
Proof. split; vm_compute; reflexivity. Qed.

(** At the edges of binary64: a tie goes to the even neighbour, the
    smallest subnormal is kept and half of it is lost, and the largest
    double is the last literal below Infinity. *)
Example parse_number_edges :
  JSON_parse "9007199254740995" = Ok (JNum 9007199254740996)
  /\ JSON_parse "4.9e-324" = Ok (JNum (1 # Pos.pow 2 1074))
  /\ JSON_parse "2.4e-324" = Ok (JNum 0)
  /\ JSON_parse "1.7976931348623158e308"
     = Ok (JNum (inject_Z ((2 ^ 53 - 1) * 2 ^ 971)))
  /\ JSON_parse "1.7976931348623159e308" = Ok (JInfinity false).
Proof. repeat split; vm_compute; reflexivity. Qed.

Lemma round_exact n d : (0 < d)%Z -> round_half_even (n * d) d = n.
Proof.
  intros Hd. unfold round_half_even.
  rewrite Z.mod_mul, Z.div_mul by lia.
  assert ((2 * 0 ?= d)%Z = Lt) as -> by (apply Z.compare_lt_iff; lia).
  reflexivity.
Qed.

Lemma Qred_integer n : Qred (inject_Z n) = inject_Z n.
Proof.
  unfold Qred, inject_Z.
  pose proof (Z.ggcd_gcd n 1) as G. pose proof (Z.ggcd_correct_divisors n 1) as D.
  destruct (Z.ggcd n 1) as [g [a b]]. cbn [fst] in G. rewrite Z.gcd_1_r in G.
  subst g. destruct D as [Da Db]. rewrite Z.mul_1_l in Da, Db. subst a b.
  reflexivity.
Qed.

(** An integer up to 2^53 is a binary64 and is read as itself. *)
Lemma number_integer n :
  (0 <= n <= 2 ^ 53)%Z -> number (inject_Z n) = JNum (inject_Z n).
Proof.
  intros Hn. unfold number. rewrite Qred_integer. cbn [Qnum Qden inject_Z].
  destruct n as [|p|p]; [reflexivity| |lia].
  unfold binary64_positive, floor_log2. change (Z.log2 1) with 0%Z.
  rewrite Z.sub_0_r.
  pose proof (Z.log2_spec (Zpos p) ltac:(lia)) as [Hlo Hhi].
  pose proof (Z.log2_nonneg (Zpos p)) as H0.
  set (e := Z.log2 (Zpos p)) in *.
  assert (He : (e <= 53)%Z).
  { destruct (Z_le_gt_dec e 53) as [L|G]; [exact L|exfalso].
    assert (2 ^ 54 <= 2 ^ e)%Z by (apply Z.pow_le_mono_r; lia).
    assert (2 ^ 53 < 2 ^ 54)%Z by (apply Z.pow_lt_mono_r; lia). lia. }
  replace (0 <=? e)%Z with true by (symmetry; apply Z.leb_le; exact H0).
  replace (1 * 2 ^ e <=? Zpos p)%Z with true by (symmetry; apply Z.leb_le; lia).
  rewrite Z.max_l by lia.
  destruct (Z_le_gt_dec 0 (e - 52)) as [K|K].
  - replace (0 <=? e - 52)%Z with true by (symmetry; apply Z.leb_le; exact K).
    assert (E : e = 52%Z \/ e = 53%Z) by lia.
    destruct E as [E|E]; rewrite E in *; cbn [Z.sub Z.add Z.opp Z.pos_sub Pos.pred_double
                                              Z.succ_double Z.pred_double Z.double].
    + change (52 - 52)%Z with 0%Z. change (1 * 2 ^ 0)%Z with 1%Z.
      pose proof (round_exact (Zpos p) 1 ltac:(lia)) as R. rewrite Z.mul_1_r in R.
      rewrite R. unfold dyadic. cbn [Z.leb Z.compare andb].
      replace (2 ^ 1024 <=? Zpos p * 2 ^ 0)%Z with false
        by (symmetry; apply Z.leb_gt; change (2 ^ 0)%Z with 1%Z;
            assert (2 ^ 53 < 2 ^ 1024)%Z by (apply Z.pow_lt_mono_r; lia); lia).
      change (2 ^ 0)%Z with 1%Z. rewrite Z.mul_1_r. reflexivity.
    + change (53 - 52)%Z with 1%Z. change (1 * 2 ^ 1)%Z with 2%Z.
      assert (P : Zpos p = (2 ^ 52 * 2)%Z).
      { change (2 ^ (53 + 1))%Z with (2 ^ 54)%Z in Hhi.
        change (2 ^ 52 * 2)%Z with (2 ^ 53)%Z. lia. }
      rewrite P, round_exact by lia. unfold dyadic. cbn [Z.leb Z.compare andb].
      replace (2 ^ 1024 <=? 2 ^ 52 * 2 ^ 1)%Z with false
        by (symmetry; apply Z.leb_gt; change (2 ^ 52 * 2 ^ 1)%Z with (2 ^ 53)%Z;
            apply Z.pow_lt_mono_r; lia).
      reflexivity.
  - replace (0 <=? e - 52)%Z with false by (symmetry; apply Z.leb_gt; lia).
    cbn [andb].
    assert (R : round_half_even (Zpos p * 2 ^ (- (e - 52))) 1
                = (Zpos p * 2 ^ (- (e - 52)))%Z).
    { pose proof (round_exact (Zpos p * 2 ^ (- (e - 52))) 1 ltac:(lia)) as R.
      rewrite Z.mul_1_r in R. exact R. }
    rewrite R. unfold dyadic.
    replace (0 <=? e - 52)%Z with false by (symmetry; apply Z.leb_gt; lia).
    f_equal. rewrite <- (Qred_integer (Zpos p)). apply Qred_complete.
    assert (Q : (0 < 2 ^ (- (e - 52)))%Z) by (apply Z.pow_pos_nonneg; lia).
    unfold Qeq. cbn [Qnum Qden inject_Z]. rewrite Z2Pos.id by exact Q. lia.
Qed.

Lemma plain_string_text l :
  forallb (fun c => (32 <=? code c)%N && negb (Ascii.eqb c quote)
                    && negb (Ascii.eqb c backslash)) l = true ->
  string_text l l.
Proof.
  induction l as [|c l IH]; simpl; intros H; [constructor|].
  apply andb_true_iff in H as [H Hl].
  apply andb_true_iff in H as [H Hb]. apply andb_true_iff in H as [H32 Hq].
  constructor.
  - apply N.leb_le. exact H32.
  - intros ->. discriminate Hq.
  - intros ->. discriminate Hb.
  - apply IH. exact Hl.
Qed.

Lemma string_text_plain p t s :
  forallb (fun c => (32 <=? code c)%N && negb (Ascii.eqb c quote)
                    && negb (Ascii.eqb c backslash)) p = true ->
  string_text t s -> string_text (p ++ t) (p ++ s).
Proof.
  induction p as [|c p IH]; cbn [forallb app]; intros H Ht; [exact Ht|].
  apply andb_true_iff in H as [H Hp].
  apply andb_true_iff in H as [H Hb]. apply andb_true_iff in H as [H32 Hq].
  constructor.
  - apply N.leb_le. exact H32.
  - intros ->. discriminate Hq.
  - intros ->. discriminate Hb.
  - apply IH; assumption.
Qed.

(** ** The classifier *)

Lemma openai_of_key env :
  ProjectAnalyzer.openai env =
  match VITE_OPENAI_API_KEY env with
  | Some k =>
      if k =? "" then None
      else Some {| apiKey := k; dangerouslyAllowBrowser := true |}
  | None => None
  end.
Proof.
  unfold ProjectAnalyzer.openai.
  destruct (VITE_OPENAI_API_KEY env) as [k|]; [|reflexivity].
  destruct (k =? ""); reflexivity.
Qed.

Lemma configured_client env :
  configured env <-> exists client, ProjectAnalyzer.openai env = Some client.
Proof.
  rewrite openai_of_key. unfold configured. split.
  - intros (k & -> & Hk). apply String.eqb_neq in Hk. rewrite Hk. eauto.
  - intros (client & H). destruct (VITE_OPENAI_API_KEY env) as [k|]; [|discriminate].
    exists k. split; [reflexivity|]. intros ->. discriminate.
Qed.

Lemma not_configured_null env :
  ~ configured env <-> ProjectAnalyzer.openai env = None.
Proof.
  rewrite configured_client. split.
  - intros H. destruct (ProjectAnalyzer.openai env) eqn:E; [|reflexivity].
    exfalso. apply H. eauto.
  - intros -> (client & H). discriminate.
Qed.

(** With a client, everything the classifier does sits inside its [try]:
    it returns what the body returns, or the degraded result for what the
    body throws. *)
Lemma analyzeProject_with_client env client project w :
  ProjectAnalyzer.openai env = Some client ->
  ProjectAnalyzer.analyzeProject env project w =
  match completion_endpoint env (clock w) client (ProjectAnalyzer.request project) with
  | Throw t =>
      (Ok (ProjectAnalyzer.degraded t),
       log "Error analyzing project:" t (tick w))
  | Ok completion =>
      match ProjectAnalyzer.first_content completion with
      | Throw t =>
          (Ok (ProjectAnalyzer.degraded t),
           log "Error analyzing project:" t (tick w))
      | Ok c =>
          match JSON_parse (ProjectAnalyzer.content_or_empty_object c) with
          | Throw t =>
              (Ok (ProjectAnalyzer.degraded t),
               log "Error analyzing project:" t (tick w))
          | Ok v => (Ok v, tick w)
          end
      end
  end.
Proof.
  intros H. unfold ProjectAnalyzer.analyzeProject. rewrite H. run.
  destruct (completion_endpoint env (clock w) client (ProjectAnalyzer.request project));
    [|reflexivity].
  destruct (ProjectAnalyzer.first_content a); [|reflexivity].
  destruct (JSON_parse (ProjectAnalyzer.content_or_empty_object a0)); reflexivity.
Qed.

Lemma analyzeProject_returns env client project w :
  ProjectAnalyzer.openai env = Some client ->
  exists v w', ProjectAnalyzer.analyzeProject env project w = (Ok v, w').
Proof.
  intros H. rewrite (analyzeProject_with_client _ _ _ _ H).
  destruct (completion_endpoint env (clock w) client (ProjectAnalyzer.request project));
    [|eauto].
  destruct (ProjectAnalyzer.first_content a); [|eauto].
  destruct (JSON_parse (ProjectAnalyzer.content_or_empty_object a0)); eauto.
Qed.

Lemma JSON_parse_empty :
  JSON_parse "" = Throw (ErrorObject "SyntaxError" SyntaxError_message).
Proof. reflexivity. Qed.

Lemma JSON_parse_throws s t :
  JSON_parse s = Throw t -> t = ErrorObject "SyntaxError" SyntaxError_message.
Proof.
  unfold JSON_parse.
  destruct (parse_value _ _) as [[v r]|]; [destruct (skip_ws r)|]; congruence.
Qed.

(** C2: the classifier throws the configuration error exactly when no
    credential is configured, whatever the project's name and description
    are, and it throws nothing else. *)
Theorem C2_configuration_error_iff_no_credential :
  forall env project w,
    (fst (ProjectAnalyzer.analyzeProject env project w)
       = Throw ProjectAnalyzer.ConfigurationError
     <-> ~ configured env)
    /\ (forall t,
          fst (ProjectAnalyzer.analyzeProject env project w) = Throw t ->
          t = ProjectAnalyzer.ConfigurationError).
Proof.
  intros env project w.
  destruct (ProjectAnalyzer.openai env) as [client|] eqn:E.
  - destruct (analyzeProject_returns env client project w E) as (v & w' & ->).
    simpl. split; [split|]; try discriminate.
    intros H. exfalso. apply H. apply configured_client. eauto.
  - assert (R : ProjectAnalyzer.analyzeProject env project w
                = (Throw ProjectAnalyzer.ConfigurationError, w)).
    { unfold ProjectAnalyzer.analyzeProject. rewrite E. reflexivity. }
    rewrite R. simpl. split; [split|].
    + intros _. apply not_configured_null. exact E.
    + reflexivity.
    + congruence.
Qed.

(** The grammar gives a text at most one value. *)
Lemma json_document_functional s v v' :
  json_document s v -> json_document s v' -> v = v'.
Proof.
  intros H H'. apply JSON_parse_complete in H, H'. congruence.
Qed.

Lemma json_whole_number d :
  integer_text d -> json d (number (inject_Z (digits_number d))).
Proof.
  intros H.
  pose proof (json_number _ _ (number_parts false d [] None H (or_introl eq_refl)
                                 ltac:(discriminate))) as P.
  cbn [app length] in P. rewrite !app_nil_r in P.
  erewrite number_same; [exact P|].
  change (0 - Z.of_nat 0)%Z with 0%Z. cbn [Qpower]. rewrite Qmult_1_r. reflexivity.
Qed.

Lemma lookup_define_same k v o : lookup k (define k v o) = Some v.
Proof.
  induction o as [|[k' v'] o IH]; simpl.
  - rewrite String.eqb_refl. reflexivity.
  - destruct (String.eqb_spec k' k) as [->|N]; simpl.
    + rewrite String.eqb_refl. reflexivity.
    + apply String.eqb_neq in N. rewrite N. exact IH.
Qed.

Lemma lookup_define_other k k' v o :
  k' <> k -> lookup k (define k' v o) = lookup k o.
Proof.
  intros N. induction o as [|[k0 v0] o IH]; simpl.
  - apply String.eqb_neq in N. rewrite N. reflexivity.
  - destruct (String.eqb_spec k0 k') as [->|N0]; simpl.
    + apply String.eqb_neq in N. rewrite N. reflexivity.
    + destruct (k0 =? k); [reflexivity|exact IH].
Qed.

(** Reading a key of the object a member sequence builds gives the value of
    the last member of that name. *)
Lemma lookup_members k members :
  forall o,
    lookup k (fold_left (fun o m => define (fst m) (snd m) o) members o)
    = match member_value k members with
      | Some x => Some x
      | None => lookup k o
      end.
Proof.
  induction members as [|[k' v] rest IH]; intros o; [reflexivity|].
  cbn [fold_left member_value fst snd]. rewrite IH.
  destruct (member_value k rest); [reflexivity|].
  destruct (String.eqb_spec k' k) as [->|N].
  - apply lookup_define_same.
  - apply lookup_define_other. exact N.
Qed.

Lemma get_prop_object_of k members x :
  member_value k members = Some x -> get_prop (object_of members) k = Ok x.
Proof.
  intros H. unfold object_of, get_prop. rewrite lookup_members, H. reflexivity.
Qed.

(** With a client, a completion whose text parses to a value other than a
    thrown one comes back as that value. *)
Lemma classifier_returns_parsed env project w client completion s v :
  ProjectAnalyzer.openai env = Some client ->
  completion_endpoint env (clock w) client (ProjectAnalyzer.request project)
    = Ok completion ->
  ProjectAnalyzer.first_content completion = Ok (Some s) ->
  JSON_parse s = Ok v ->
  ProjectAnalyzer.analyzeProject env project w = (Ok v, tick w).
Proof.
  intros Hc He Hf Hp.
  rewrite (analyzeProject_with_client _ _ _ _ Hc), He, Hf.
  assert (Hs : ProjectAnalyzer.content_or_empty_object (Some s) = s).
  { simpl. destruct (s =? "") eqn:E; [|reflexivity].
    apply String.eqb_eq in E. subst s. rewrite JSON_parse_empty in Hp. discriminate. }
  rewrite Hs, Hp. reflexivity.
Qed.

(** C5: with a client, when the text of the completion's first choice is a
    JSON object by the grammar of ECMA-404, with members that give the four
    fields the values [score], [cat], [plan] and [recs] (numbers read as
    binary64, the last of two members of one name counting), the classifier
    returns the object of those members, and its four fields read back as
    exactly these values. *)
Theorem C5_wellformed_response_returned_unmodified :
  forall env project w client completion s members score cat plan recs,
    ProjectAnalyzer.openai env = Some client ->
    completion_endpoint env (clock w) client (ProjectAnalyzer.request project)
      = Ok completion ->
    ProjectAnalyzer.first_content completion = Ok (Some s) ->
    json_document s (object_of members) ->
    member_value "suitabilityScore" members = Some score ->
    member_value "category" members = Some cat ->
    member_value "educationalPlan" members = Some plan ->
    member_value "recommendations" members = Some recs ->
    exists analysis,
      ProjectAnalyzer.analyzeProject env project w = (Ok analysis, tick w)
      /\ analysis = object_of members
      /\ get_prop analysis "suitabilityScore" = Ok score
      /\ get_prop analysis "category" = Ok cat
      /\ get_prop analysis "educationalPlan" = Ok plan
      /\ get_prop analysis "recommendations" = Ok recs.
Proof.
  intros env project w client completion s members score cat plan recs
    Hc He Hf Hdoc Hs Hcat Hplan Hrecs.
  exists (object_of members). split.
  - apply (classifier_returns_parsed env project w client completion s); auto.
    apply JSON_parse_complete. exact Hdoc.
  - split; [reflexivity|].
    repeat split; apply get_prop_object_of; assumption.
Qed.

(** The mocked answer of the end-to-end scenario, read by the grammar. *)
Example school_answer_document :
  json_document school_answer
    (object_of [ ("suitabilityScore", JNum 82); ("category", JStr "school");
                 ("educationalPlan", JStr "...");
                 ("recommendations", JArr [JStr "Use in grade 9 science"]) ]).
Proof.
  exists [], (chars school_answer), [].
  split; [apply Forall_nil|]. split; [|split; [apply Forall_nil|reflexivity]].
  apply (json_object
           (chars (dq "'suitabilityScore':82,'category':'school','educationalPlan':'...','recommendations':['Use in grade 9 science']"))).
  apply (members_more [] (chars "suitabilityScore") (chars "suitabilityScore")
           [] [] (chars "82") (JNum 82) []);
    [ apply Forall_nil | apply plain_string_text; reflexivity | apply Forall_nil
    | apply Forall_nil | | apply Forall_nil | ].
  { apply (json_whole_number (chars "82")).
    apply (integer_digits (chr 56) [chr 50]); [simpl; auto 20|].
    constructor; [simpl; auto 20|constructor]. }
  apply (members_more [] (chars "category") (chars "category")
           [] [] (chars (dq "'school'")) (JStr "school") []);
    [ apply Forall_nil | apply plain_string_text; reflexivity | apply Forall_nil
    | apply Forall_nil | | apply Forall_nil | ].
  { apply (json_string (chars "school") (chars "school")).
    apply plain_string_text. reflexivity. }
  apply (members_more [] (chars "educationalPlan") (chars "educationalPlan")
           [] [] (chars (dq "'...'")) (JStr "...") []);
    [ apply Forall_nil | apply plain_string_text; reflexivity | apply Forall_nil
    | apply Forall_nil | | apply Forall_nil | ].
  { apply (json_string (chars "...") (chars "...")).
    apply plain_string_text. reflexivity. }
  apply (members_last [] (chars "recommendations") (chars "recommendations")
           [] [] (chars (dq "['Use in grade 9 science']"))
           (JArr [JStr "Use in grade 9 science"]) []);
    [ apply Forall_nil | apply plain_string_text; reflexivity | apply Forall_nil
    | apply Forall_nil | | apply Forall_nil ].
  apply (json_array (chars (dq "'Use in grade 9 science'"))).
  apply (elements_last [] (chars (dq "'Use in grade 9 science'"))
           (JStr "Use in grade 9 science") []);
    [ apply Forall_nil | | apply Forall_nil ].
  apply (json_string (chars "Use in grade 9 science") (chars "Use in grade 9 science")).
  apply plain_string_text. reflexivity.
Qed.

(** An answer with white space, a fraction and an escape, read by the
    grammar: the score is the double nearest to 82.1, the escape is a line
    feed. *)
Lemma spaced_answer_document :
  json_document spaced_answer
    (object_of
       [ ("suitabilityScore", JNum (2888636948493107 # 35184372088832));
         ("category", JStr "school");
         ("educationalPlan", JStr (text (chars "Week 1" ++ chr 10 :: chars "Week 2")));
         ("recommendations", JArr [JStr "Use in grade 9 science"]) ]).
Proof.
  exists [], (chars spaced_answer), [].
  split; [blanks|]. split; [|split; [blanks|reflexivity]].
  apply (json_object
           (chars (dq " 'suitabilityScore': 82.1, 'category': 'school', 'educationalPlan': 'Week 1\nWeek 2', 'recommendations': ['Use in grade 9 science'] "))).
  apply (members_more [chr 32] (chars "suitabilityScore") (chars "suitabilityScore")
           [] [chr 32] (chars "82.1")
           (JNum (2888636948493107 # 35184372088832)) []);
    [ blanks | apply plain_string_text; reflexivity | blanks | blanks | | blanks | ].
  { apply (json_number (chars "82.1")
             (inject_Z (digits_number (chars "82" ++ chars "1"))
              * Qpower (inject_Z 10) (0 - Z.of_nat (length (chars "1"))))%Q).
    apply (number_parts false (chars "82") (chars "1") None).
    - apply (integer_digits (chr 56) [chr 50]); [simpl; auto 20|].
      constructor; [simpl; auto 20|constructor].
    - right. split; [discriminate|]. constructor; [simpl; auto 20|constructor].
    - discriminate. }
  apply (members_more [chr 32] (chars "category") (chars "category")
           [] [chr 32] (chars (dq "'school'")) (JStr "school") []);
    [ blanks | apply plain_string_text; reflexivity | blanks | blanks | | blanks | ].
  { apply (json_string (chars "school") (chars "school")).
    apply plain_string_text. reflexivity. }
  apply (members_more [chr 32] (chars "educationalPlan") (chars "educationalPlan")
           [] [chr 32] (chars (dq "'Week 1\nWeek 2'"))
           (JStr (text (chars "Week 1" ++ chr 10 :: chars "Week 2"))) []);
    [ blanks | apply plain_string_text; reflexivity | blanks | blanks | | blanks | ].
  { apply (json_string (chars "Week 1\nWeek 2")
             (chars "Week 1" ++ chr 10 :: chars "Week 2")).
    apply (string_text_plain (chars "Week 1")); [reflexivity|].
    apply (string_escape (chr 110) (chr 10)); [simpl; auto 20|].
    apply plain_string_text. reflexivity. }
  apply (members_last [chr 32] (chars "recommendations") (chars "recommendations")
           [] [chr 32] (chars (dq "['Use in grade 9 science']"))
           (JArr [JStr "Use in grade 9 science"]) [chr 32]);
    [ blanks | apply plain_string_text; reflexivity | blanks | blanks | | blanks ].
  apply (json_array (chars (dq "'Use in grade 9 science'"))).
  apply (elements_last [] (chars (dq "'Use in grade 9 science'"))
           (JStr "Use in grade 9 science") []);
    [ blanks | | blanks ].
  apply (json_string (chars "Use in grade 9 science") (chars "Use in grade 9 science")).
  apply plain_string_text. reflexivity.
Qed.

Lemma C5_witness :
  exists analysis,
    ProjectAnalyzer.analyzeProject spaced_env cleanseas world0
      = (Ok analysis, tick world0)
    /\ analysis
       = JObj [ ("suitabilityScore", JNum (2888636948493107 # 35184372088832));
                ("category", JStr "school");
                ("educationalPlan",
                 JStr (text (chars "Week 1" ++ chr 10 :: chars "Week 2")));
                ("recommendations", JArr [JStr "Use in grade 9 science"]) ]
    /\ get_prop analysis "suitabilityScore"
       = Ok (JNum (2888636948493107 # 35184372088832))
    /\ get_prop analysis "category" = Ok (JStr "school")
    /\ get_prop analysis "educationalPlan"
       = Ok (JStr (text (chars "Week 1" ++ chr 10 :: chars "Week 2")))
    /\ get_prop analysis "recommendations" = Ok (JArr [JStr "Use in grade 9 science"]).
Proof.
  apply (C5_wellformed_response_returned_unmodified spaced_env cleanseas world0
           {| apiKey := "sk-test"; dangerouslyAllowBrowser := true |}
           {| choices := [ {| message := {| content := Some spaced_answer |} |} ] |}
           spaced_answer
           [ ("suitabilityScore", JNum (2888636948493107 # 35184372088832));
             ("category", JStr "school");
             ("educationalPlan",
              JStr (text (chars "Week 1" ++ chr 10 :: chars "Week 2")));
             ("recommendations", JArr [JStr "Use in grade 9 science"]) ]);
    try reflexivity.
  exact spaced_answer_document.
Defined.

(** C3, as the code has it: with a client, when the completion call raises,
    or its answer has no first choice, or its non-empty text does not parse,
    the classifier returns (it does not throw) score 0, category unsuitable,
    no recommendations, and as plan the message of the error raised, or
    "Analysis failed" when what was raised is no Error.  That plan is
    non-empty unless the completion call itself raised an Error with an empty
    message. *)
Theorem C3_failure_returns_degraded_result :
  forall env project w client t,
    ProjectAnalyzer.openai env = Some client ->
    (completion_endpoint env (clock w) client (ProjectAnalyzer.request project)
       = Throw t
     \/ (exists completion,
           completion_endpoint env (clock w) client (ProjectAnalyzer.request project)
             = Ok completion
           /\ ProjectAnalyzer.first_content completion = Throw t)
     \/ (exists completion s,
           completion_endpoint env (clock w) client (ProjectAnalyzer.request project)
             = Ok completion
           /\ ProjectAnalyzer.first_content completion = Ok (Some s)
           /\ s <> ""
           /\ JSON_parse s = Throw t)) ->
    exists w',
      ProjectAnalyzer.analyzeProject env project w
        = (Ok (JObj [ ("suitabilityScore", JNum 0);
                      ("category", JStr "unsuitable");
                      ("educationalPlan", JStr (message_or "Analysis failed" t));
                      ("recommendations", JArr []) ]), w')
      /\ (message_or "Analysis failed" t <> ""
          \/ exists n,
               t = ErrorObject n ""
               /\ completion_endpoint env (clock w) client
                    (ProjectAnalyzer.request project) = Throw t).
Proof.
  intros env project w client t Hc H.
  rewrite (analyzeProject_with_client _ _ _ _ Hc).
  destruct H as [He | [(completion & He & Hf) | (completion & s & He & Hf & Hs & Hp)]].
  - rewrite He. eexists. split; [reflexivity|].
    destruct t as [n m | v]; [|left; discriminate].
    destruct (String.eqb_spec m ""); [subst; right; eauto | left; assumption].
  - rewrite He, Hf. eexists. split; [reflexivity|]. left.
    unfold ProjectAnalyzer.first_content in Hf.
    destruct (choices completion); [injection Hf as <-|]; discriminate.
  - rewrite He, Hf. simpl. apply String.eqb_neq in Hs. rewrite Hs, Hp.
    eexists. split; [reflexivity|]. left.
    rewrite (JSON_parse_throws _ _ Hp). discriminate.
Qed.

Lemma C3_witness :
  exists w',
    ProjectAnalyzer.analyzeProject
      (sample_env (Some "sk-test") found_site (reply (Some "Sorry, I cannot help.")))
      cleanseas world0
      = (Ok (JObj [ ("suitabilityScore", JNum 0);
                    ("category", JStr "unsuitable");
                    ("educationalPlan", JStr SyntaxError_message);
                    ("recommendations", JArr []) ]), w')
    /\ (SyntaxError_message <> ""
        \/ exists n,
             ErrorObject "SyntaxError" SyntaxError_message = ErrorObject n ""
             /\ reply (Some "Sorry, I cannot help.")
                = Throw (ErrorObject "SyntaxError" SyntaxError_message)).
Proof.
  apply (C3_failure_returns_degraded_result
           (sample_env (Some "sk-test") found_site (reply (Some "Sorry, I cannot help.")))
           cleanseas world0 {| apiKey := "sk-test"; dangerouslyAllowBrowser := true |}
           (ErrorObject "SyntaxError" SyntaxError_message)).
  - reflexivity.
  - right. right. eexists. exists "Sorry, I cannot help.".
    repeat split. discriminate.
Defined.

(** C3 as stated fails twice.  An empty completion text is not JSON, yet
    line 81 replaces it by an empty object literal, so the classifier returns
    an object with none of the four fields; and an Error raised with an empty
    message leaves the plan empty. *)
Lemma C3_counterexample :
  JSON_parse "" = Throw (ErrorObject "SyntaxError" SyntaxError_message)
  /\ fst (ProjectAnalyzer.analyzeProject
            (sample_env (Some "sk-test") found_site (reply (Some "")))
            cleanseas world0)
     = Ok (JObj [])
  /\ get_prop (JObj []) "suitabilityScore" = Ok JUndefined
  /\ get_prop (JObj []) "category" = Ok JUndefined
  /\ fst (ProjectAnalyzer.analyzeProject
            (sample_env (Some "sk-test") found_site (Throw (ErrorObject "Error" "")))
            cleanseas world0)
     = Ok (JObj [ ("suitabilityScore", JNum 0);
                  ("category", JStr "unsuitable");
                  ("educationalPlan", JStr "");
                  ("recommendations", JArr []) ]).
Proof. repeat split. Qed.

(** The resolver, case by case. *)
Lemma findOfficialWebsite_cases env projectName w :
  ProjectAnalyzer.findOfficialWebsite env projectName w =
  match encodeURIComponent (search_text projectName) with
  | Throw t => (Ok (JStr ""), log "Error finding official website:" t w)
  | Ok query =>
      match http env (clock w) (ProjectAnalyzer.search_url query) with
      | Throw t => (Ok (JStr ""), log "Error finding official website:" t (tick w))
      | Ok data =>
          match get_prop data "AbstractURL" with
          | Throw t => (Ok (JStr ""), log "Error finding official website:" t (tick w))
          | Ok x => (Ok (js_or x (JStr "")), tick w)
          end
      end
  end.
Proof.
  unfold ProjectAnalyzer.findOfficialWebsite, search_text. run.
  destruct (encodeURIComponent _); [|reflexivity].
  destruct (http env (clock w) (ProjectAnalyzer.search_url a)); [|reflexivity].
  destruct (get_prop a0 "AbstractURL"); reflexivity.
Qed.

Lemma findOfficialWebsite_returns env projectName w :
  exists v w', ProjectAnalyzer.findOfficialWebsite env projectName w = (Ok v, w').
Proof.
  rewrite findOfficialWebsite_cases.
  destruct (encodeURIComponent _); [|eauto].
  destruct (http env (clock w) (ProjectAnalyzer.search_url a)); [|eauto].
  destruct (get_prop a0 "AbstractURL"); eauto.
Qed.

(** C8, as the code has it: the resolver always returns and never throws.
    It returns the empty string when the query cannot be encoded, when the
    search request fails, when the answer is no object, and when the answer
    omits AbstractURL.  When the field is present it returns the field's
    value if that value is truthy (any non-empty string is), and the empty
    string otherwise. *)
Theorem C8_resolver_absorbs_failures :
  forall env projectName w,
    exists v w',
      ProjectAnalyzer.findOfficialWebsite env projectName w = (Ok v, w')
      /\ (forall t, encodeURIComponent (search_text projectName) = Throw t ->
          v = JStr "")
      /\ (forall query,
            encodeURIComponent (search_text projectName) = Ok query ->
            (forall t,
               http env (clock w) (ProjectAnalyzer.search_url query) = Throw t ->
               v = JStr "")
            /\ (forall data,
                  http env (clock w) (ProjectAnalyzer.search_url query) = Ok data ->
                  (forall o, data <> JObj o) ->
                  v = JStr "")
            /\ (forall o,
                  http env (clock w) (ProjectAnalyzer.search_url query) = Ok (JObj o) ->
                  lookup "AbstractURL" o = None ->
                  v = JStr "")
            /\ (forall o x,
                  http env (clock w) (ProjectAnalyzer.search_url query) = Ok (JObj o) ->
                  lookup "AbstractURL" o = Some x ->
                  v = if truthy x then x else JStr "")).
Proof.
  intros env projectName w.
  destruct (findOfficialWebsite_returns env projectName w) as (v & w' & E).
  exists v, w'. split; [exact E|].
  rewrite findOfficialWebsite_cases in E.
  destruct (encodeURIComponent (search_text projectName)) as [query|t0].
  - split; [discriminate|]. intros q [= <-].
    destruct (http env (clock w) (ProjectAnalyzer.search_url query)) as [data|t1].
    + repeat split.
      * discriminate.
      * intros d [= <-] Hd.
        destruct data; unfold js_or in E; simpl in E; try congruence.
        exfalso. eapply Hd. reflexivity.
      * intros o [= ->] Ho. simpl in E. rewrite Ho in E. unfold js_or in E.
        simpl in E. congruence.
      * intros o x [= ->] Ho. simpl in E. rewrite Ho in E. unfold js_or in E. congruence.
    + repeat split; try discriminate. congruence.
  - split; [congruence|]. discriminate.
Qed.

(** C8 as stated fails where the field is present but falsy and not a
    string: the resolver then returns the empty string, not the field's
    value. *)
Lemma C8_counterexample :
  lookup "AbstractURL" [("AbstractURL", JNum 0)] = Some (JNum 0)
  /\ fst (ProjectAnalyzer.findOfficialWebsite
            (sample_env None (Ok (JObj [("AbstractURL", JNum 0)])) (reply None))
            "CleanSeas" world0)
     = Ok (JStr "")
  /\ JStr "" <> JNum 0
  /\ fst (ProjectAnalyzer.findOfficialWebsite
            (sample_env None (Ok (JObj [("AbstractURL", JNull)])) (reply None))
            "CleanSeas" world0)
     = Ok (JStr "")
  /\ JStr "" <> JNull.
Proof. repeat split; discriminate. Qed.

(** ** The merge in [App] *)

Lemma updatedProject_cases env project w :
  App.updatedProject env project w =
  match ProjectAnalyzer.findOfficialWebsite env (name project) w with
  | (Throw t, w1) => (Throw t, w1)
  | (Ok site, w1) =>
      match ProjectAnalyzer.analyzeProject env project w1 with
      | (Throw t, w2) => (Throw t, w2)
      | (Ok analysis, w2) => (merge project site analysis, w2)
      end
  end.
Proof.
  unfold App.updatedProject, merge. run.
  destruct (ProjectAnalyzer.findOfficialWebsite env (name project) w) as [[site|t] w1];
    [|reflexivity].
  destruct (ProjectAnalyzer.analyzeProject env project w1) as [[analysis|t] w2];
    [|reflexivity].
  destruct (get_prop analysis "suitabilityScore"); [|reflexivity].
  destruct (get_prop analysis "category"); [|reflexivity].
  destruct (get_prop analysis "educationalPlan"); reflexivity.
Qed.

Lemma get_prop_returns v k :
  nullish v = false -> exists x, get_prop v k = Ok x.
Proof. destruct v; simpl; intros H; try discriminate; eauto. Qed.

Lemma merge_returns project site analysis :
  nullish analysis = false ->
  exists score cat plan,
    get_prop analysis "suitabilityScore" = Ok score
    /\ get_prop analysis "category" = Ok cat
    /\ get_prop analysis "educationalPlan" = Ok plan
    /\ merge project site analysis
       = Ok {| id := id project; name := name project;
               description := description project; url := url project;
               officialWebsite := site; results := results project;
               educationalPlan := plan; suitabilityScore := score;
               category := cat |}.
Proof.
  intros H. unfold merge.
  destruct (get_prop_returns analysis "suitabilityScore" H) as (score & ->).
  destruct (get_prop_returns analysis "category" H) as (cat & ->).
  destruct (get_prop_returns analysis "educationalPlan" H) as (plan & ->).
  exists score, cat, plan. repeat split.
Qed.

Lemma merge_id project site analysis p' :
  merge project site analysis = Ok p' -> id p' = id project.
Proof.
  unfold merge.
  destruct (get_prop analysis "suitabilityScore"); [|discriminate].
  destruct (get_prop analysis "category"); [|discriminate].
  destruct (get_prop analysis "educationalPlan"); [|discriminate].
  intros [= <-]. reflexivity.
Qed.

(** What the callback leaves in the component state. *)
Lemma analyzeProject_state env project s w :
  App.analyzeProject env project s w =
  match App.updatedProject env project w with
  | (Ok updated, w') =>
      (Ok {| App.projects :=
               map (fun p => if id p =? id project then updated else p) (App.projects s);
             App.loading := App.loading s;
             App.analyzing := false;
             App.selectedProject := Some updated;
             App.filter := App.filter s;
             App.error := None |}, w')
  | (Throw t, w') =>
      (Ok {| App.projects := App.projects s;
             App.loading := App.loading s;
             App.analyzing := false;
             App.selectedProject := App.selectedProject s;
             App.filter := App.filter s;
             App.error := Some (message_or "An error occurred during analysis" t) |},
       log "Error analyzing project:" t w')
  end.
Proof.
  unfold App.analyzeProject. run.
  destruct (App.updatedProject env project w) as [[updated|t] w']; reflexivity.
Qed.

(** ** Trimming *)

Section Strip.

Variable p2 : ascii -> ascii -> bool.
Variable p3 : ascii -> ascii -> ascii -> bool.

Lemma strip_ws_bounded n :
  forall s, length s <= n ->
    starts_ws p2 p3 (strip_ws p2 p3 s) = false
    /\ exists dropped, s = (dropped ++ strip_ws p2 p3 s)%list.
Proof.
  induction n as [|n IH]; intros s Hl.
  - destruct s; [|simpl in Hl; lia]. split; [reflexivity|exists []; reflexivity].
  - destruct s as [|a r]; [split; [reflexivity|exists []; reflexivity]|].
    simpl in Hl. simpl strip_ws.
    destruct (ws1 a) eqn:E1.
    { destruct (IH r ltac:(lia)) as (H & d & Hd). split; [exact H|].
      exists (a :: d). simpl. congruence. }
    destruct r as [|b r1].
    { split; [simpl; rewrite E1; reflexivity|exists []; reflexivity]. }
    simpl in Hl. destruct (p2 a b) eqn:E2.
    { destruct (IH r1 ltac:(lia)) as (H & d & Hd). split; [exact H|].
      exists (a :: b :: d). simpl. congruence. }
    destruct r1 as [|c r2].
    { split; [simpl; rewrite E1, E2; reflexivity|exists []; reflexivity]. }
    simpl in Hl. destruct (p3 a b c) eqn:E3.
    { destruct (IH r2 ltac:(lia)) as (H & d & Hd). split; [exact H|].
      exists (a :: b :: c :: d). simpl. congruence. }
    split; [simpl; rewrite E1, E2, E3; reflexivity|exists []; reflexivity].
Qed.

Lemma strip_ws_clean s : starts_ws p2 p3 (strip_ws p2 p3 s) = false.
Proof. apply (strip_ws_bounded (length s)). lia. Qed.

Lemma strip_ws_suffix s : exists dropped, s = (dropped ++ strip_ws p2 p3 s)%list.
Proof. apply (strip_ws_bounded (length s)). lia. Qed.

Lemma starts_ws_app u x :
  starts_ws p2 p3 u = true -> starts_ws p2 p3 (u ++ x)%list = true.
Proof.
  destruct u as [|a [|b [|c u]]]; simpl; try discriminate.
  - rewrite orb_false_r. intros ->. reflexivity.
  - rewrite orb_false_r. intros H.
    apply orb_true_iff in H as [-> | ->]; [reflexivity|].
    rewrite orb_true_l, orb_true_r. reflexivity.
  - intros H. exact H.
Qed.

End Strip.

Lemma chars_text l : chars (text l) = l.
Proof. apply list_ascii_of_string_of_list_ascii. Qed.

(** [trim] leaves no white space at either end. *)
Lemma trim_trimmed s :
  begins_with_space (trim s) = false /\ ends_with_space (trim s) = false.
Proof.
  unfold begins_with_space, ends_with_space, trim. rewrite chars_text.
  set (T := trimStart (chars s)). unfold trimEnd. split.
  - destruct (starts_ws ws2 ws3 (rev (strip_ws ws2_rev ws3_rev (rev T)))) eqn:E;
      [|reflexivity].
    destruct (strip_ws_suffix ws2_rev ws3_rev (rev T)) as (d & Hd).
    apply (f_equal (@rev ascii)) in Hd. rewrite rev_involutive, rev_app_distr in Hd.
    apply (starts_ws_app _ _ _ (rev d)) in E. rewrite <- Hd in E.
    unfold T, trimStart in E. rewrite strip_ws_clean in E. discriminate.
  - rewrite rev_involutive. apply strip_ws_clean.
Qed.

(** ** Trimming takes the white space off both ends, and nothing else *)

Lemma ws1_space a : ws1 a = true -> In [a] space_sequences.
Proof.
  destruct a as [[] [] [] [] [] [] [] []]; intros H; try discriminate H;
    among_spaces.
Qed.

Lemma ws2_space a b : ws2 a b = true -> In [a; b] space_sequences.
Proof.
  unfold ws2. intros H. apply andb_true_iff in H as [Ha Hb].
  apply N.eqb_eq in Ha, Hb.
  assert (a = chr 194) as -> by (apply code_injective; exact Ha).
  assert (b = chr 160) as -> by (apply code_injective; exact Hb).
  among_spaces.
Qed.

Lemma ws3_space a b c : ws3 a b c = true -> In [a; b; c] space_sequences.
Proof.
  destruct a as [[] [] [] [] [] [] [] []]; intros H; try discriminate H;
    destruct b as [[] [] [] [] [] [] [] []]; try discriminate H;
    destruct c as [[] [] [] [] [] [] [] []]; try discriminate H;
    among_spaces.
Qed.

Lemma starts_ws_space s :
  starts_ws ws2 ws3 s = true ->
  exists q rest, In q space_sequences /\ s = (q ++ rest)%list.
Proof.
  destruct s as [|a r]; [discriminate|]. cbn [starts_ws].
  destruct (ws1 a) eqn:E1.
  { intros _. exists [a], r. split; [apply ws1_space; exact E1|reflexivity]. }
  destruct r as [|b r1]; [discriminate|].
  destruct (ws2 a b) eqn:E2.
  { intros _. exists [a; b], r1. split; [apply ws2_space; exact E2|reflexivity]. }
  destruct r1 as [|c r2]; [discriminate|]. cbn [orb].
  intros E3. exists [a; b; c], r2. split; [apply ws3_space; exact E3|reflexivity].
Qed.

Lemma starts_ws_rev_space s :
  starts_ws ws2_rev ws3_rev s = true ->
  exists q rest, In q space_sequences /\ s = (rev q ++ rest)%list.
Proof.
  destruct s as [|a r]; [discriminate|]. cbn [starts_ws].
  destruct (ws1 a) eqn:E1.
  { intros _. exists [a], r. split; [apply ws1_space; exact E1|reflexivity]. }
  destruct r as [|b r1]; [discriminate|].
  destruct (ws2_rev a b) eqn:E2.
  { intros _. exists [b; a], r1. split; [apply ws2_space; exact E2|reflexivity]. }
  destruct r1 as [|c r2]; [discriminate|]. cbn [orb].
  intros E3. exists [c; b; a], r2. split; [apply ws3_space; exact E3|reflexivity].
Qed.

Lemma strip_ws_stops p2 p3 s : starts_ws p2 p3 s = false -> strip_ws p2 p3 s = s.
Proof.
  destruct s as [|a r]; [reflexivity|]. cbn [starts_ws strip_ws].
  destruct (ws1 a); [discriminate|].
  destruct r as [|b r1]; [reflexivity|].
  destruct (p2 a b); [discriminate|].
  destruct r1 as [|c r2]; [reflexivity|].
  destruct (p3 a b c); [discriminate|reflexivity].
Qed.

Lemma strip_space q s :
  In q space_sequences ->
  strip_ws ws2 ws3 (q ++ s) = strip_ws ws2 ws3 s
  /\ strip_ws ws2_rev ws3_rev (rev q ++ s) = strip_ws ws2_rev ws3_rev s.
Proof.
  intros H. vm_compute in H.
  repeat (destruct H as [<- | H]; [split; reflexivity|]). contradiction.
Qed.

Lemma strip_padding l s :
  padding l -> strip_ws ws2 ws3 (l ++ s) = strip_ws ws2 ws3 s.
Proof.
  intros (parts & Hp & ->). induction Hp as [|q parts Hq _ IH]; [reflexivity|].
  cbn [concat]. rewrite <- app_assoc.
  rewrite (proj1 (strip_space q _ Hq)). exact IH.
Qed.

Lemma strip_padding_rev r s :
  padding r -> strip_ws ws2_rev ws3_rev (rev r ++ s) = strip_ws ws2_rev ws3_rev s.
Proof.
  intros (parts & Hp & ->). revert s.
  induction Hp as [|q parts Hq _ IH]; intros s; [reflexivity|].
  cbn [concat]. rewrite rev_app_distr, <- app_assoc, IH.
  apply (strip_space q s Hq).
Qed.

(** The bytes of a white-space character after its first continue a
    sequence; its first byte does not. *)
Lemma space_bytes q :
  In q space_sequences ->
  exists a rest,
    q = a :: rest /\ continuation a = false /\ forallb continuation rest = true.
Proof.
  intros H. vm_compute in H.
  repeat (destruct H as [<- | H]; [do 2 eexists; repeat split|]). contradiction.
Qed.

Lemma padding_head c r : padding (c :: r) -> continuation c = false.
Proof.
  intros (parts & Hp & E). induction Hp as [|q parts Hq _ IH]; [discriminate|].
  destruct (space_bytes q Hq) as (a & rest & -> & Ha & _).
  cbn [concat app] in E. injection E as -> _. exact Ha.
Qed.

(** A tight text followed by white space does not begin with white space,
    whatever bytes the text is made of. *)
Lemma tight_start t r :
  tight t -> t <> [] -> padding r -> starts_ws ws2 ws3 (t ++ r) = false.
Proof.
  intros Ht Hne Hr. destruct (starts_ws ws2 ws3 (t ++ r)) eqn:E; [|reflexivity].
  exfalso. apply starts_ws_space in E as (q & rest & Hq & E).
  apply app_eq_app in E as (l & [[E1 E2] | [E1 E2]]).
  - apply (proj1 (Ht q l Hq)). exact E1.
  - destruct l as [|c l].
    + rewrite app_nil_r in E1. subst q. apply (proj2 (Ht t [] Hq)). reflexivity.
    + destruct (space_bytes q Hq) as (a & tail & Eq & _ & Hc).
      destruct t as [|x t]; [contradiction|].
      rewrite Eq in E1. cbn [app] in E1. injection E1 as _ ->.
      rewrite forallb_app in Hc. apply andb_true_iff in Hc as [_ Hc].
      cbn [forallb] in Hc. apply andb_true_iff in Hc as [Hc _].
      rewrite E2 in Hr. cbn [app] in Hr. apply padding_head in Hr. congruence.
Qed.

Lemma tight_end t : tight t -> starts_ws ws2_rev ws3_rev (rev t) = false.
Proof.
  intros Ht. destruct (starts_ws ws2_rev ws3_rev (rev t)) eqn:E; [|reflexivity].
  exfalso. apply starts_ws_rev_space in E as (q & rest & Hq & E).
  apply (proj2 (Ht q (rev rest) Hq)).
  rewrite <- (rev_involutive t), E, rev_app_distr, rev_involutive. reflexivity.
Qed.

Lemma padding_app l r : padding l -> padding r -> padding (l ++ r).
Proof.
  intros (p1 & H1 & ->) (p2 & H2 & ->). exists (p1 ++ p2)%list. split.
  - apply Forall_app. split; assumption.
  - rewrite concat_app. reflexivity.
Qed.

(** [trim] returns the text between the white space at the two ends. *)
Lemma trim_core l t r :
  padding l -> tight t -> padding r -> trim (text (l ++ t ++ r)) = text t.
Proof.
  intros Hl Ht Hr. unfold trim, trimStart, trimEnd. rewrite chars_text. f_equal.
  rewrite strip_padding by exact Hl.
  destruct t as [|c t].
  - cbn [app]. rewrite <- (app_nil_r r), strip_padding by exact Hr. reflexivity.
  - rewrite (strip_ws_stops _ _ _ (tight_start (c :: t) r Ht ltac:(discriminate) Hr)).
    rewrite rev_app_distr, strip_padding_rev by exact Hr.
    rewrite (strip_ws_stops _ _ _ (tight_end (c :: t) Ht)).
    apply rev_involutive.
Qed.

Lemma begins_prefix q t : begins q t = true <-> exists rest, t = (q ++ rest)%list.
Proof.
  revert t. induction q as [|a q IH]; intros t.
  - split; [exists t; reflexivity|reflexivity].
  - destruct t as [|b t]; cbn [begins].
    + split; [discriminate|]. intros (rest & E). discriminate E.
    + rewrite andb_true_iff, IH. split.
      * intros [Hab (rest & ->)]. apply Ascii.eqb_eq in Hab as ->. exists rest. reflexivity.
      * intros (rest & E). injection E as -> ->. split; [apply Ascii.eqb_refl|eauto].
Qed.

Lemma is_tight_tight t : is_tight t = true -> tight t.
Proof.
  unfold is_tight. rewrite forallb_forall. intros H q rest Hq.
  specialize (H q Hq). apply andb_true_iff in H as [H1 H2].
  apply negb_true_iff in H1, H2. split; intros E.
  - assert (B : begins q t = true) by (apply begins_prefix; eauto). congruence.
  - assert (B : begins (rev q) (rev t) = true).
    { apply begins_prefix. exists (rev rest). rewrite E, rev_app_distr. reflexivity. }
    congruence.
Qed.

Lemma padding_nil : padding [].
Proof. exists []. split; [constructor|reflexivity]. Qed.

Lemma padding_cons q w : In q space_sequences -> padding w -> padding (q ++ w).
Proof.
  intros Hq (parts & Hp & ->). exists (q :: parts). split; [constructor; assumption|reflexivity].
Qed.

(** ** The listing fetcher *)

Lemma url_is_first_anchor_href element :
  match js_or (attr_of "href" (find (has_tag "a") element)) (JStr "") with
  | JStr s => s
  | _ => ""
  end = first_anchor_href element.
Proof.
  unfold first_anchor_href, attr_of, js_or.
  destruct (find (has_tag "a") element) as [|[data|tag attribs children] rest];
    try reflexivity.
  destruct (attr "href" attribs) as [h|]; [|reflexivity].
  simpl. destruct (String.eqb_spec h ""); simpl; congruence.
Qed.

Lemma each_records env selection :
  forall projects w,
    ProjectAnalyzer.each env selection projects w =
    (Ok (projects ++ records_of env (uuids w) selection)%list,
     {| clock := clock w; uuids := uuids w + length selection;
        console := console w |}).
Proof.
  induction selection as [|element rest IH]; intros projects w.
  - simpl. unfold ret. rewrite app_nil_r, Nat.add_0_r. destruct w; reflexivity.
  - simpl ProjectAnalyzer.each. unfold bind, crypto.randomUUID.
    rewrite IH. simpl. rewrite url_is_first_anchor_href, <- app_assoc.
    f_equal. f_equal. lia.
Qed.

Lemma records_of_length env items : forall n, length (records_of env n items) = length items.
Proof. induction items; intros n; simpl; [reflexivity | rewrite IHitems; reflexivity]. Qed.

Lemma records_of_nth env items :
  forall n i,
    nth_error (records_of env n items) i
    = option_map (record_of env (n + i)) (nth_error items i).
Proof.
  induction items as [|item rest IH]; intros n i.
  - destruct i; reflexivity.
  - destruct i as [|i]; simpl.
    + rewrite Nat.add_0_r. reflexivity.
    + rewrite IH. f_equal. f_equal. lia.
Qed.

Lemma records_of_ids env items :
  forall n, map id (records_of env n items) = map (uuid_source env) (seq n (length items)).
Proof.
  induction items as [|item rest IH]; intros n; simpl; [reflexivity|].
  rewrite IH. reflexivity.
Qed.

Lemma records_of_unsuitable env items :
  forall n, Forall (fun p => category p = JStr "unsuitable") (records_of env n items).
Proof.
  induction items as [|item rest IH]; intros n; simpl; constructor; auto.
Qed.

(** The scraper, case by case: a fetch or a parse that throws is logged and
    gives no records. *)
Lemma scrapeProjects_cases env w :
  ProjectAnalyzer.scrapeProjects env w =
  match http env (clock w) listing_url with
  | Throw t => (Ok [], log "Error scraping projects:" t (tick w))
  | Ok data =>
      match html_parser env data with
      | Throw t => (Ok [], log "Error scraping projects:" t (tick w))
      | Ok document =>
          let items := select (has_class "project-item") document in
          (Ok (records_of env (uuids w) items),
           {| clock := S (clock w); uuids := uuids w + length items;
              console := console w |})
      end
  end.
Proof.
  unfold ProjectAnalyzer.scrapeProjects, listing_url.
  unfold try_catch, bind, axios.get, cheerio.load, lift. simpl fst.
  destruct (http env (clock w) _) as [data|t]; [|reflexivity].
  destruct (html_parser env data) as [document|t]; [|reflexivity].
  rewrite each_records. reflexivity.
Qed.

Lemma scrapeProjects_returns env w :
  exists ps w',
    ProjectAnalyzer.scrapeProjects env w = (Ok ps, w')
    /\ Forall (fun p => category p = JStr "unsuitable") ps.
Proof.
  rewrite scrapeProjects_cases.
  destruct (http env (clock w) listing_url) as [data|t]; [|eauto].
  destruct (html_parser env data) as [document|t]; [|eauto].
  do 2 eexists. split; [reflexivity|]. apply records_of_unsuitable.
Qed.

(** On any page at all: when the listing is fetched and parsed, and the
    identifier source gives distinct non-empty identifiers for the draws of
    this call, the scraper returns one record per element of class
    project-item, in document order; the
    identifiers are non-empty and pairwise distinct, every category is
    unsuitable, name and description are the trimmed texts of the item's
    title and description elements, and url is the first anchor's href or
    the empty string. *)
Lemma scrape_any_page :
  forall env w data document,
    http env (clock w) listing_url = Ok data ->
    html_parser env data = Ok document ->
    (forall i j,
       i < length (select (has_class "project-item") document) ->
       j < length (select (has_class "project-item") document) ->
       uuid_source env (uuids w + i) = uuid_source env (uuids w + j) -> i = j) ->
    (forall i,
       i < length (select (has_class "project-item") document) ->
       uuid_source env (uuids w + i) <> "") ->
    exists ps w',
      ProjectAnalyzer.scrapeProjects env w = (Ok ps, w')
      /\ length ps = length (select (has_class "project-item") document)
      /\ NoDup (map id ps)
      /\ forall i item,
           nth_error (select (has_class "project-item") document) i = Some item ->
           exists p,
             nth_error ps i = Some p
             /\ id p <> ""
             /\ category p = JStr "unsuitable"
             /\ name p = trim (text_of (find (has_class "project-title") item))
             /\ begins_with_space (name p) = false
             /\ ends_with_space (name p) = false
             /\ description p
                = trim (text_of (find (has_class "project-description") item))
             /\ begins_with_space (description p) = false
             /\ ends_with_space (description p) = false
             /\ url p = first_anchor_href item.
Proof.
  intros env w data document Hget Hload Hfresh Hfull.
  rewrite scrapeProjects_cases, Hget, Hload. cbv zeta.
  set (items := select (has_class "project-item") document) in *.
  do 2 eexists. split; [reflexivity|].
  split; [apply records_of_length|]. split.
  - rewrite records_of_ids. apply NoDup_map_NoDup_ForallPairs; [|apply seq_NoDup].
    intros a b Ha Hb E. apply in_seq in Ha, Hb.
    assert (a - uuids w = b - uuids w); [|lia].
    apply Hfresh; try lia.
    replace (uuids w + (a - uuids w)) with a by lia.
    replace (uuids w + (b - uuids w)) with b by lia. exact E.
  - intros i item Hi. exists (record_of env (uuids w + i) item).
    rewrite records_of_nth, Hi. simpl.
    assert (i < length items) by (apply nth_error_Some; congruence).
    destruct (trim_trimmed (text_of (find (has_class "project-title") item))).
    destruct (trim_trimmed (text_of (find (has_class "project-description") item))).
    repeat split; auto.
Qed.

(** ** The queries find the blocks of a page and their parts *)

Lemma attribute_attr k attribs value : attribute k attribs value -> attr k attribs = value.
Proof.
  intros [attribs' H|before v after H].
  - induction attribs' as [|[k' v'] rest IH]; [reflexivity|].
    cbn [attr]. destruct (String.eqb_spec k' k) as [->|N].
    + exfalso. apply (H v'). left. reflexivity.
    + apply IH. intros x Hin. apply (H x). right. exact Hin.
  - induction before as [|[k' v'] rest IH]; cbn [app attr].
    + rewrite String.eqb_refl. reflexivity.
    + destruct (String.eqb_spec k' k) as [->|N].
      * exfalso. apply (H v'). left. reflexivity.
      * apply IH. intros x Hin. apply (H x). right. exact Hin.
Qed.

Lemma name_byte_tests a :
  name_byte a = true ->
  ws1 a = false /\ forall b, ws2 a b = false /\ forall c, ws3 a b c = false.
Proof.
  destruct a as [[] [] [] [] [] [] [] []]; intros H; try discriminate H;
    (split; [reflexivity|intros b; split; [reflexivity|intros c; reflexivity]]).
Qed.

Lemma words_name w :
  forallb name_byte w = true ->
  forall rest cur, words (w ++ rest) cur = words rest (rev w ++ cur).
Proof.
  induction w as [|a w IH]; cbn [forallb]; intros H rest cur; [reflexivity|].
  apply andb_true_iff in H as [Ha Hw].
  destruct (name_byte_tests a Ha) as (T1 & T23).
  cbn [app rev]. rewrite <- app_assoc. cbn [app]. rewrite <- (IH Hw rest (a :: cur)).
  cbn [words]. rewrite T1.
  destruct (w ++ rest)%list as [|b r1]; [reflexivity|].
  destruct (T23 b) as (-> & T3).
  destruct r1 as [|c r2]; [reflexivity|]. rewrite T3. reflexivity.
Qed.

Lemma chars_app s t : chars (s ++ t) = (chars s ++ chars t)%list.
Proof. induction s as [|c s IH]; [reflexivity|]. cbn. f_equal. exact IH. Qed.

Lemma text_chars s : text (chars s) = s.
Proof. apply string_of_list_ascii_of_string. Qed.

Lemma words_names names :
  Forall class_name names -> words (chars (String.concat " " names)) [] = names.
Proof.
  induction 1 as [|n rest [Hne Hn] Hrest IH]; [reflexivity|].
  assert (Hflush : forall ws, flush (rev (chars n)) ws = n :: ws).
  { intros ws. unfold flush. destruct (rev (chars n)) eqn:E.
    - exfalso. apply Hne. rewrite <- (text_chars n).
      rewrite <- (rev_involutive (chars n)), E. reflexivity.
    - rewrite <- E, rev_involutive, text_chars. reflexivity. }
  destruct rest as [|m rest].
  - cbn [String.concat]. rewrite <- (app_nil_r (chars n)), (words_name _ Hn).
    cbn [words]. rewrite app_nil_r. apply Hflush.
  - change (String.concat " " (n :: m :: rest))
      with (n ++ " " ++ String.concat " " (m :: rest)).
    rewrite chars_app, (words_name _ Hn). rewrite app_nil_r.
    change (chars (" " ++ String.concat " " (m :: rest)))
      with (chr 32 :: chars (String.concat " " (m :: rest))).
    cbn [words]. change (ws1 (chr 32)) with true. cbv iota.
    rewrite IH, Hflush. reflexivity.
Qed.

Lemma has_class_names cls tag attribs children names :
  class_list attribs names ->
  has_class cls (Element tag attribs children) = existsb (String.eqb cls) names.
Proof.
  intros (value & Ha & Hv). cbn [has_class]. rewrite (attribute_attr _ _ _ Ha).
  destruct value as [v|].
  - destruct Hv as [Hn ->]. rewrite (words_names _ Hn). reflexivity.
  - subst names. reflexivity.
Qed.

Lemma existsb_eqb cls names : existsb (String.eqb cls) names = true <-> In cls names.
Proof.
  rewrite existsb_exists. split.
  - intros (x & Hx & E). apply String.eqb_eq in E. subst x. exact Hx.
  - intros H. exists cls. split; [exact H|apply String.eqb_refl].
Qed.

Lemma has_class_unmarked m tag attribs children :
  In m marks -> unmarked attribs -> has_class m (Element tag attribs children) = false.
Proof.
  intros Hm (names & Hc & Hn). rewrite (has_class_names _ _ _ _ _ Hc).
  destruct (existsb (String.eqb m) names) eqn:E; [|reflexivity].
  exfalso. apply (Hn m Hm). apply existsb_eqb. exact E.
Qed.

Lemma has_class_carries cls m tag attribs children :
  In m marks -> carries cls attribs ->
  has_class m (Element tag attribs children) = (m =? cls).
Proof.
  intros Hm (names & Hc & Hin & Hn). rewrite (has_class_names _ _ _ _ _ Hc).
  destruct (String.eqb_spec m cls) as [->|N].
  - apply existsb_eqb. exact Hin.
  - destruct (existsb (String.eqb m) names) eqn:E; [|reflexivity].
    exfalso. apply N. apply (Hn m Hm). apply existsb_eqb. exact E.
Qed.

Section Filler.

Variable p : Node -> bool.
Hypothesis p_filler :
  forall tag attribs children,
    tag <> "a" -> unmarked attribs -> p (Element tag attribs children) = false.

Lemma filler_matching :
  (forall n, filler n -> matching p n = [])
  /\ (forall ns, fillers ns -> flat_map (matching p) ns = []).
Proof.
  apply filler_mutual.
  - reflexivity.
  - intros tag attribs children Ht Hu _ IH. cbn [matching].
    rewrite (p_filler _ _ _ Ht Hu), IH. reflexivity.
  - reflexivity.
  - intros n ns _ IHn _ IHns. cbn [flat_map]. rewrite IHn, IHns. reflexivity.
Qed.

End Filler.

Lemma fillers_no_class m ns :
  In m marks -> fillers ns -> flat_map (matching (has_class m)) ns = [].
Proof.
  intros Hm. apply filler_matching. intros tag attribs children _ Hu.
  apply has_class_unmarked; assumption.
Qed.

Lemma fillers_no_anchor ns :
  fillers ns -> flat_map (matching (has_tag "a")) ns = [].
Proof.
  apply filler_matching. intros tag attribs children Ht _.
  cbn [has_tag]. apply String.eqb_neq. exact Ht.
Qed.

Lemma filler_no_class m n :
  In m marks -> filler n -> matching (has_class m) n = [].
Proof.
  intros Hm. apply filler_matching. intros tag attribs children _ Hu.
  apply has_class_unmarked; assumption.
Qed.

Lemma filler_no_anchor n : filler n -> matching (has_tag "a") n = [].
Proof.
  apply filler_matching. intros tag attribs children Ht _.
  cbn [has_tag]. apply String.eqb_neq. exact Ht.
Qed.

Lemma text_pieces tag attribs pieces :
  text_content (Element tag attribs (map TextNode pieces)) = String.concat "" pieces.
Proof.
  cbn [text_content]. rewrite map_map. cbn [text_content]. rewrite map_id. reflexivity.
Qed.

(** A labelled element answers the query for its own class with the one
    element that has it, and no other of the scraper's queries; the text
    of that element is the core with its padding. *)
Lemma labelled_queries cls n core :
  labelled cls n core ->
  exists e,
    (forall m, In m marks ->
       matching (has_class m) n = if m =? cls then [e] else [])
    /\ matching (has_tag "a") n = []
    /\ exists l t r,
         padding l /\ tight t /\ padding r
         /\ text_content e = text (l ++ t ++ r) /\ core = text t.
Proof.
  induction 1 as [tag attribs pieces l t r Ht Hc Hl Hcore Hr Hp
                 |tag attribs before n after core Ht Hu Hb _ IH Ha].
  - exists (Element tag attribs (map TextNode pieces)). split; [|split].
    + intros m Hm. cbn [matching]. rewrite (has_class_carries cls m _ _ _ Hm Hc).
      assert (E : flat_map (matching (has_class m)) (map TextNode pieces) = []).
      { clear. induction pieces; [reflexivity|exact IHpieces]. }
      rewrite E. destruct (m =? cls); reflexivity.
    + cbn [matching has_tag]. apply String.eqb_neq in Ht. rewrite Ht.
      clear. induction pieces; [reflexivity|exact IHpieces].
    + exists l, t, r. split; [exact Hl|]. split; [exact Hcore|]. split; [exact Hr|].
      split; [|reflexivity]. rewrite text_pieces. exact Hp.
  - destruct IH as (e & Hm & Hanchor & Htext). exists e. split; [|split].
    + intros m Hin. cbn [matching].
      rewrite (has_class_unmarked m _ _ _ Hin Hu), flat_map_app. cbn [flat_map app].
      rewrite (fillers_no_class m _ Hin Hb), (fillers_no_class m _ Hin Ha), (Hm m Hin).
      rewrite app_nil_r. reflexivity.
    + cbn [matching has_tag]. apply String.eqb_neq in Ht. rewrite Ht.
      rewrite flat_map_app. cbn [flat_map app].
      rewrite (fillers_no_anchor _ Hb), (fillers_no_anchor _ Ha), Hanchor. reflexivity.
    + exact Htext.
Qed.

Lemma anchor_queries n h :
  anchor n h ->
  (forall m, In m marks -> matching (has_class m) n = [])
  /\ matching (has_tag "a") n = [n]
  /\ first_link [h]
     = match n with
       | Element _ attribs _ =>
           match attr "href" attribs with Some v => v | None => "" end
       | TextNode _ => ""
       end.
Proof.
  intros [attribs children href Hu Hh Hf]. split; [|split].
  - intros m Hm. cbn [matching].
    rewrite (has_class_unmarked m _ _ _ Hm Hu), (fillers_no_class m _ Hm Hf).
    reflexivity.
  - cbn [matching]. rewrite (fillers_no_anchor _ Hf). reflexivity.
  - rewrite (attribute_attr _ _ _ Hh). destruct href; reflexivity.
Qed.

Lemma links_queries ns hrefs :
  links ns hrefs ->
  (forall m, In m marks -> flat_map (matching (has_class m)) ns = [])
  /\ exists anchors,
       flat_map (matching (has_tag "a")) ns = anchors
       /\ Forall2 anchor anchors hrefs.
Proof.
  induction 1 as [|n ns hrefs Hn _ (IH1 & anchors & IH2 & IH3)
                 |n h ns hrefs Hn _ (IH1 & anchors & IH2 & IH3)
                 |tag attribs inner rest hrefs1 hrefs2 Ht Hu
                    _ (IHi1 & anchors1 & IHi2 & IHi3)
                    _ (IHr1 & anchors2 & IHr2 & IHr3)].
  - split; [reflexivity|]. exists []. split; [reflexivity|constructor].
  - split.
    + intros m Hm. cbn [flat_map].
      rewrite (filler_no_class m n Hm Hn), (IH1 m Hm). reflexivity.
    + exists anchors. split; [|exact IH3].
      cbn [flat_map]. rewrite (filler_no_anchor n Hn). exact IH2.
  - destruct (anchor_queries n h Hn) as (Hc & Ha & _). split.
    + intros m Hm. cbn [flat_map]. rewrite (Hc m Hm), (IH1 m Hm). reflexivity.
    + exists (n :: anchors). split; [|constructor; assumption].
      cbn [flat_map]. rewrite Ha, IH2. reflexivity.
  - split.
    + intros m Hm. cbn [flat_map matching].
      rewrite (has_class_unmarked m _ _ _ Hm Hu), (IHi1 m Hm), (IHr1 m Hm). reflexivity.
    + exists (anchors1 ++ anchors2)%list. split; [|apply Forall2_app; assumption].
      cbn [flat_map matching has_tag]. apply String.eqb_neq in Ht. rewrite Ht.
      cbn [app]. rewrite IHi2, IHr2. reflexivity.
Qed.

Lemma first_anchor anchors hrefs :
  Forall2 anchor anchors hrefs ->
  first_link hrefs
  = match anchors with
    | Element _ attribs _ :: _ =>
        match attr "href" attribs with Some v => v | None => "" end
    | _ => ""
    end.
Proof.
  intros [|n h ns hs Hn _]; [reflexivity|].
  destruct (anchor_queries n h Hn) as (_ & _ & E). destruct Hn. exact E.
Qed.

Lemma concat_one s : String.concat "" [s] = s.
Proof. reflexivity. Qed.

Lemma item_mark : In "project-item" marks.
Proof. simpl. auto. Qed.

Lemma title_mark : In "project-title" marks.
Proof. simpl. auto. Qed.

Lemma description_mark : In "project-description" marks.
Proof. simpl. auto. Qed.

(** What the scraper's queries give on a well-formed block: the block
    itself and nothing below it for the item class, and the block's title,
    description and link for the three fields. *)
Lemma item_block_queries n b :
  item_block n b ->
  matching (has_class "project-item") n = [n]
  /\ trim (text_of (find (has_class "project-title") n)) = title b
  /\ trim (text_of (find (has_class "project-description") n)) = summary b
  /\ first_anchor_href n = link b.
Proof.
  intros [tag attribs before t heading between s body after hrefs
            Hi Hb Ht Hm Hs Ha].
  destruct (labelled_queries _ t heading Ht)
    as (e1 & Tc & Ta & l1 & c1 & r1 & Pl1 & Pc1 & Pr1 & Ttext & ->).
  destruct (labelled_queries _ s body Hs)
    as (e2 & Dc & Da & l2 & c2 & r2 & Pl2 & Pc2 & Pr2 & Dtext & ->).
  destruct (links_queries after hrefs Ha) as (Lc & anchors & La & Lh).
  pose proof (Tc _ item_mark) as Ti. pose proof (Tc _ title_mark) as Tt.
  pose proof (Tc _ description_mark) as Td.
  pose proof (Dc _ item_mark) as Di. pose proof (Dc _ title_mark) as Dt.
  pose proof (Dc _ description_mark) as Dd.
  cbn [String.eqb Ascii.eqb Bool.eqb] in Ti, Tt, Td, Di, Dt, Dd.
  assert (Q : forall q,
            flat_map (matching q) (before ++ t :: between ++ s :: after)
            = (flat_map (matching q) before ++ matching q t
               ++ flat_map (matching q) between ++ matching q s
               ++ flat_map (matching q) after)%list).
  { intros q. rewrite flat_map_app. cbn [flat_map]. rewrite flat_map_app.
    cbn [flat_map]. reflexivity. }
  unfold first_anchor_href. cbn [find matching title summary link].
  rewrite (has_class_carries _ _ tag _ _ item_mark Hi), String.eqb_refl.
  rewrite !Q.
  rewrite (fillers_no_class _ _ item_mark Hb), (fillers_no_class _ _ item_mark Hm).
  rewrite (fillers_no_class _ _ title_mark Hb), (fillers_no_class _ _ title_mark Hm).
  rewrite (fillers_no_class _ _ description_mark Hb),
    (fillers_no_class _ _ description_mark Hm).
  rewrite (Lc _ item_mark), (Lc _ title_mark), (Lc _ description_mark).
  rewrite (fillers_no_anchor _ Hb), (fillers_no_anchor _ Hm).
  rewrite Ti, Di, Tt, Td, Dt, Dd, Ta, Da, La. cbn [app].
  unfold text_of. cbn [map]. rewrite !concat_one, Ttext, Dtext.
  rewrite !trim_core by assumption. rewrite <- (first_anchor _ _ Lh). repeat split.
Qed.

Lemma item_block_record env i n b :
  item_block n b -> record_of env i n = block_record (uuid_source env i) b.
Proof.
  intros H. destruct (item_block_queries n b H) as (_ & Ht & Hd & Hl).
  unfold record_of, block_record. rewrite Ht, Hd, Hl. reflexivity.
Qed.

Lemma labelled_tight cls n core : labelled cls n core -> tight (chars core).
Proof.
  induction 1 as [tag attribs pieces l t r _ _ _ Hcore _ _|]; [|assumption].
  rewrite chars_text. exact Hcore.
Qed.

Lemma item_block_tight n b :
  item_block n b -> tight (chars (title b)) /\ tight (chars (summary b)).
Proof.
  intros [tag attribs before t heading between s body after hrefs
            Hi Hb Ht Hm Hs Ha].
  cbn [title summary]. split; eapply labelled_tight; eassumption.
Qed.

(** The item query finds the blocks of a page, in page order. *)
Lemma page_select doc blocks :
  Page doc blocks ->
  Forall2 item_block (select (has_class "project-item") doc) blocks.
Proof.
  unfold select.
  induction 1 as [|data rest blocks _ IH
                 |tag attribs inner rest blocks1 blocks2 Hu _ IH1 _ IH2
                 |n b rest blocks Hb _ IH].
  - constructor.
  - exact IH.
  - cbn [flat_map matching]. rewrite (has_class_unmarked _ _ _ _ item_mark Hu).
    cbn [app]. apply Forall2_app; assumption.
  - cbn [flat_map]. rewrite (proj1 (item_block_queries n b Hb)).
    cbn [app]. constructor; assumption.
Qed.

Lemma records_of_blocks env items blocks :
  Forall2 item_block items blocks ->
  forall n, records_of env n items = block_records env n blocks.
Proof.
  induction 1 as [|item b items blocks Hb _ IH]; intros n; [reflexivity|].
  cbn [records_of block_records].
  rewrite (item_block_record env n item b Hb), IH. reflexivity.
Qed.

Lemma blocks_tight items blocks :
  Forall2 item_block items blocks ->
  Forall (fun b => tight (chars (title b)) /\ tight (chars (summary b))) blocks.
Proof.
  induction 1 as [|item b items blocks Hb _ IH]; constructor;
    [exact (item_block_tight item b Hb)|exact IH].
Qed.

Lemma block_records_ids env blocks :
  forall n,
    map id (block_records env n blocks)
    = map (uuid_source env) (seq n (length blocks)).
Proof.
  induction blocks as [|b rest IH]; intros n; [reflexivity|].
  cbn [block_records map length seq]. rewrite IH. reflexivity.
Qed.

Lemma block_records_fields env blocks :
  forall n,
    length (block_records env n blocks) = length blocks
    /\ map name (block_records env n blocks) = map title blocks
    /\ map description (block_records env n blocks) = map summary blocks
    /\ map url (block_records env n blocks) = map link blocks
    /\ Forall (fun p => category p = JStr "unsuitable") (block_records env n blocks).
Proof.
  induction blocks as [|b rest IH]; intros n.
  - repeat split; constructor.
  - destruct (IH (S n)) as (H1 & H2 & H3 & H4 & H5).
    cbn [block_records map length]. rewrite H1, H2, H3, H4.
    repeat split. constructor; [reflexivity|exact H5].
Qed.

(** The scraper on a page of well-formed blocks: the records of the blocks,
    with the identifiers drawn during the call. *)
Lemma scrape_page env w data document blocks :
  http env (clock w) listing_url = Ok data ->
  html_parser env data = Ok document ->
  Page document blocks ->
  ProjectAnalyzer.scrapeProjects env w
  = (Ok (block_records env (uuids w) blocks),
     {| clock := S (clock w); uuids := uuids w + length blocks;
        console := console w |}).
Proof.
  intros Hget Hload Hpage. rewrite scrapeProjects_cases, Hget, Hload. cbv zeta.
  pose proof (page_select _ _ Hpage) as Hsel.
  rewrite (records_of_blocks env _ _ Hsel), (Forall2_length Hsel). reflexivity.
Qed.

Lemma space_padding q : In q space_sequences -> padding q.
Proof.
  intros H. rewrite <- (app_nil_r q). apply padding_cons; [exact H|apply padding_nil].
Qed.

Lemma is_class_names names :
  forallb is_class_name names = true -> Forall class_name names.
Proof.
  intros H. apply Forall_forall. intros s Hs.
  rewrite forallb_forall in H. specialize (H s Hs).
  apply andb_true_iff in H as [H1 H2]. split; [|exact H2].
  intros ->. discriminate H1.
Qed.

Lemma class_list_intro before names after :
  (forall v, ~ In ("class", v) before) ->
  forallb is_class_name names = true ->
  class_list (before ++ ("class", String.concat " " names) :: after) names.
Proof.
  intros Hb Hn. exists (Some (String.concat " " names)). split.
  - apply attribute_first. exact Hb.
  - split; [apply is_class_names; exact Hn|reflexivity].
Qed.

Lemma carries_intro cls before names after :
  (forall v, ~ In ("class", v) before) ->
  forallb is_class_name names = true ->
  existsb (String.eqb cls) names = true ->
  forallb (fun m => (m =? cls) || negb (existsb (String.eqb m) names)) marks = true ->
  carries cls (before ++ ("class", String.concat " " names) :: after).
Proof.
  intros Hb Hn Hc Hm. exists names. split; [apply class_list_intro; assumption|].
  split; [apply existsb_eqb; exact Hc|].
  intros m Hin Hnames. rewrite forallb_forall in Hm. specialize (Hm m Hin).
  apply orb_true_iff in Hm as [E|E]; [apply String.eqb_eq; exact E|].
  apply existsb_eqb in Hnames. rewrite Hnames in E. discriminate E.
Qed.

Lemma unmarked_intro before names after :
  (forall v, ~ In ("class", v) before) ->
  forallb is_class_name names = true ->
  forallb (fun m => negb (existsb (String.eqb m) names)) marks = true ->
  unmarked (before ++ ("class", String.concat " " names) :: after).
Proof.
  intros Hb Hn Hm. exists names. split; [apply class_list_intro; assumption|].
  intros m Hin Hnames. rewrite forallb_forall in Hm. specialize (Hm m Hin).
  apply existsb_eqb in Hnames. rewrite Hnames in Hm. discriminate Hm.
Qed.

Lemma unmarked_classless attribs :
  (forall v, ~ In ("class", v) attribs) -> unmarked attribs.
Proof.
  intros H. exists []. split.
  - exists None. split; [apply attribute_absent; exact H|reflexivity].
  - intros m _ [].
Qed.

Lemma cleanseas_item :
  item_block
    (Element "div" [("class", "project-item")]
       [ Element "h3" [("class", "project-title")] [TextNode " CleanSeas "];
         Element "p" [("class", "project-description")]
           [TextNode "Ocean plastics education"];
         Element "a" [("href", "https://ied.eu/cleanseas")] [TextNode "more"] ])
    cleanseas_block.
Proof.
  apply (item_block_parts "div" [("class", "project-item")]
           [] _ "CleanSeas" [] _ "Ocean plastics education"
           [Element "a" [("href", "https://ied.eu/cleanseas")] [TextNode "more"]]
           [Some "https://ied.eu/cleanseas"]).
  - apply (carries_intro "project-item" [] ["project-item"] []);
      [no_key|reflexivity|reflexivity|reflexivity].
  - constructor.
  - apply (labelled_text "project-title" "h3" [("class", "project-title")]
             [" CleanSeas "] [chr 32] (chars "CleanSeas") [chr 32]).
    + discriminate.
    + apply (carries_intro "project-title" [] ["project-title"] []);
        [no_key|reflexivity|reflexivity|reflexivity].
    + apply space_padding. among_spaces.
    + apply is_tight_tight. reflexivity.
    + apply space_padding. among_spaces.
    + reflexivity.
  - constructor.
  - apply (labelled_text "project-description" "p" [("class", "project-description")]
             ["Ocean plastics education"] [] (chars "Ocean plastics education") []).
    + discriminate.
    + apply (carries_intro "project-description" [] ["project-description"] []);
        [no_key|reflexivity|reflexivity|reflexivity].
    + apply padding_nil.
    + apply is_tight_tight. reflexivity.
    + apply padding_nil.
    + reflexivity.
  - apply links_anchor; [|apply links_nil].
    apply anchor_element.
    + apply unmarked_classless. no_key.
    + apply (attribute_first "href" [] "https://ied.eu/cleanseas" []). no_key.
    + repeat constructor.
Qed.

Lemma greenlab_item : item_block greenlab_node greenlab_block.
Proof.
  apply (item_block_parts "li" [("id", "p2"); ("class", "card project-item")]
           [TextNode "  "] _ "Green Lab" [] _ "Soil kits"
           [ Element "div" [("class", "actions")]
               [ Element "a" [("name", "top")] [];
                 Element "a" [("class", "more"); ("href", "/green-lab")] [] ] ]
           [None; Some "/green-lab"]).
  - apply (carries_intro "project-item" [("id", "p2")] ["card"; "project-item"] []);
      [no_key|reflexivity|reflexivity|reflexivity].
  - repeat constructor.
  - apply (labelled_inside "project-title" "div" [("class", "head")]
             [] _ [Element "span" [("class", "badge")] [TextNode "new"]]).
    + discriminate.
    + apply (unmarked_intro [] ["head"] []); [no_key|reflexivity|reflexivity].
    + constructor.
    + apply (labelled_text "project-title" "h3"
               [("class", "project-title big"); ("lang", "en")]
               [text [chr 194; chr 160; chr 9] ++ "Green "; "Lab" ++ text [chr 10]]
               [chr 194; chr 160; chr 9] (chars "Green Lab") [chr 10]).
      * discriminate.
      * apply (carries_intro "project-title" [] ["project-title"; "big"]
                 [("lang", "en")]);
          [no_key|reflexivity|reflexivity|reflexivity].
      * apply (padding_cons [chr 194; chr 160] [chr 9]); [among_spaces|].
        apply space_padding. among_spaces.
      * apply is_tight_tight. reflexivity.
      * apply space_padding. among_spaces.
      * reflexivity.
    + apply fillers_cons; [|apply fillers_nil].
      apply filler_element; [discriminate| |repeat constructor].
      apply (unmarked_intro [] ["badge"] []); [no_key|reflexivity|reflexivity].
  - constructor.
  - apply (labelled_text "project-description" "p" [("class", "project-description")]
             [" Soil kits  "] [chr 32] (chars "Soil kits") [chr 32; chr 32]).
    + discriminate.
    + apply (carries_intro "project-description" [] ["project-description"] []);
        [no_key|reflexivity|reflexivity|reflexivity].
    + apply space_padding. among_spaces.
    + apply is_tight_tight. reflexivity.
    + apply (padding_cons [chr 32] [chr 32]); [among_spaces|].
      apply space_padding. among_spaces.
    + reflexivity.
  - apply (links_inside "div" [("class", "actions")] _ [] [None; Some "/green-lab"] []);
      [discriminate| | |apply links_nil].
    + apply (unmarked_intro [] ["actions"] []); [no_key|reflexivity|reflexivity].
    + apply links_anchor.
      * apply anchor_element.
        -- apply unmarked_classless. no_key.
        -- apply attribute_absent. no_key.
        -- constructor.
      * apply links_anchor; [|apply links_nil].
        apply anchor_element.
        -- apply (unmarked_intro [] ["more"] [("href", "/green-lab")]);
             [no_key|reflexivity|reflexivity].
        -- apply (attribute_first "href" [("class", "more")] "/green-lab" []). no_key.
        -- constructor.
Qed.

Lemma listing_page_blocks : Page listing_page [cleanseas_block; greenlab_block].
Proof.
  apply page_text.
  apply (page_inside "main" [("class", "listing wide")] _ []
           [cleanseas_block; greenlab_block] []);
    [ | |apply page_end].
  { apply (unmarked_intro [] ["listing"; "wide"] []); [no_key|reflexivity|reflexivity]. }
  apply page_block; [exact cleanseas_item|].
  apply page_text.
  apply page_block; [exact greenlab_item|apply page_end].
Qed.

(** C6, as the code has it: when the listing is fetched and parsed into a
    page of N well-formed item blocks, and the identifiers the platform
    gives for the draws of this call are non-empty and pairwise distinct,
    the scraper returns exactly the N records of the blocks, in page order:
    the identifiers are those drawn, so non-empty and pairwise distinct,
    every category is unsuitable, name and description are the block's
    title and description without the white space around them, and url is
    the href of the block's first anchor, or the empty string when that
    anchor has none or the block has no anchor. *)
Theorem C6_one_record_per_item_block :
  forall env w data document blocks,
    http env (clock w) listing_url = Ok data ->
    html_parser env data = Ok document ->
    Page document blocks ->
    (forall i j,
       i < j < length blocks ->
       uuid_source env (uuids w + i) <> uuid_source env (uuids w + j)) ->
    (forall i, i < length blocks -> uuid_source env (uuids w + i) <> "") ->
    exists ps w',
      ProjectAnalyzer.scrapeProjects env w = (Ok ps, w')
      /\ ps = block_records env (uuids w) blocks
      /\ length ps = length blocks
      /\ NoDup (map id ps)
      /\ Forall (fun p => id p <> "" /\ category p = JStr "unsuitable"
                          /\ tight (chars (name p))
                          /\ tight (chars (description p))) ps
      /\ map name ps = map title blocks
      /\ map description ps = map summary blocks
      /\ map url ps = map link blocks.
Proof.
  intros env w data document blocks Hget Hload Hpage Hfresh Hfull.
  rewrite (scrape_page env w data document blocks Hget Hload Hpage).
  do 2 eexists. split; [reflexivity|]. split; [reflexivity|].
  destruct (block_records_fields env blocks (uuids w)) as (Hlen & Hn & Hd & Hu & Hc).
  split; [exact Hlen|]. split; [|split; [|split; [exact Hn|split; [exact Hd|exact Hu]]]].
  - rewrite block_records_ids.
    apply NoDup_map_NoDup_ForallPairs; [|apply seq_NoDup].
    intros a b Ha Hb E. apply in_seq in Ha, Hb.
    destruct (Nat.lt_total a b) as [L|[L|L]]; [|exact L|]; exfalso.
    + apply (Hfresh (a - uuids w) (b - uuids w)); [lia|].
      replace (uuids w + (a - uuids w)) with a by lia.
      replace (uuids w + (b - uuids w)) with b by lia. exact E.
    + apply (Hfresh (b - uuids w) (a - uuids w)); [lia|].
      replace (uuids w + (a - uuids w)) with a by lia.
      replace (uuids w + (b - uuids w)) with b by lia. symmetry. exact E.
  - pose proof (blocks_tight _ _ (page_select _ _ Hpage)) as Ht.
    clear Hlen Hn Hd Hu Hc Hpage Hfresh. revert Hfull Ht.
    generalize (uuids w) as n.
    induction blocks as [|b rest IH]; intros n Hfull Ht; [constructor|].
    inversion Ht as [|? ? [Ht1 Ht2] Ht']; subst.
    cbn [block_records]. constructor.
    + cbn [id category name description block_record].
      split; [|split; [reflexivity|split; assumption]].
      rewrite <- (Nat.add_0_r n). apply Hfull. cbn [length]. lia.
    + apply IH; [|exact Ht'].
      intros i Hi. replace (S n + i) with (n + S i) by lia.
      apply Hfull. cbn [length]. lia.
Qed.

Lemma C6_witness :
  exists ps w',
    ProjectAnalyzer.scrapeProjects listing_env world0 = (Ok ps, w')
    /\ ps = [cleanseas; greenlab]
    /\ length ps = 2
    /\ NoDup (map id ps)
    /\ Forall (fun p => id p <> "" /\ category p = JStr "unsuitable"
                        /\ tight (chars (name p))
                        /\ tight (chars (description p))) ps
    /\ map name ps = ["CleanSeas"; "Green Lab"]
    /\ map description ps = ["Ocean plastics education"; "Soil kits"]
    /\ map url ps = ["https://ied.eu/cleanseas"; ""].
Proof.
  apply (C6_one_record_per_item_block listing_env world0 (JStr "<html>...</html>")
           listing_page [cleanseas_block; greenlab_block]).
  - reflexivity.
  - reflexivity.
  - exact listing_page_blocks.
  - simpl. intros [|[|i]] [|[|j]] Hij E; try lia. vm_compute in E. discriminate E.
  - simpl. intros [|[|i]] Hi; try lia; discriminate.
Defined.

(** C6 as stated fails on the identifiers: line 33 takes each id from
    [crypto.randomUUID] and nothing compares them, so on the two-block
    listing an identifier source that gives the same version-4 identifier
    twice leaves two records with one id. *)
Lemma C6_counterexample :
  Page listing_page [cleanseas_block; greenlab_block]
  /\ exists p q,
       fst (ProjectAnalyzer.scrapeProjects repeating_env world0) = Ok [p; q]
       /\ id p = id q
       /\ id p = "3b241101-e2bb-4255-8caf-4136c566a962".
Proof.
  split; [exact listing_page_blocks|].
  do 2 eexists. split; [reflexivity|]. split; reflexivity.
Qed.

(** The two-item page gives two records, in page order. *)
Example scrape_two_items :
  fst (ProjectAnalyzer.scrapeProjects two_items_env world0)
  = Ok [ cleanseas;
         {| id := sample_uuid 1; name := "Green Lab"; description := "Soil kits";
            url := "";
            officialWebsite := JUndefined; results := JUndefined;
            educationalPlan := JUndefined; suitabilityScore := JUndefined;
            category := JStr "unsuitable" |} ].
Proof. reflexivity. Qed.

(** The end-to-end listing: the single CleanSeas block gives the single
    CleanSeas record, still unclassified. *)
Example scrape_cleanseas :
  fst (ProjectAnalyzer.scrapeProjects cleanseas_env world0) = Ok [cleanseas].
Proof. reflexivity. Qed.

(** C7: the scraper never throws; it returns the empty sequence when the
    fetch fails, when the parse fails, and when no element of the page
    matches the item pattern. *)
Theorem C7_fetchListing_absorbs_failures :
  forall env w,
    exists ps w',
      ProjectAnalyzer.scrapeProjects env w = (Ok ps, w')
      /\ (forall t, http env (clock w) listing_url = Throw t -> ps = [])
      /\ (forall data t,
            http env (clock w) listing_url = Ok data ->
            html_parser env data = Throw t -> ps = [])
      /\ (forall data document,
            http env (clock w) listing_url = Ok data ->
            html_parser env data = Ok document ->
            select (has_class "project-item") document = [] -> ps = []).
Proof.
  intros env w. rewrite scrapeProjects_cases.
  destruct (http env (clock w) listing_url) as [data|t] eqn:Hget.
  - destruct (html_parser env data) as [document|t] eqn:Hload.
    + do 2 eexists. split; [reflexivity|]. repeat split; try discriminate.
      * intros d t' [= <-]. congruence.
      * intros d doc [= <-] Hdoc. rewrite Hload in Hdoc. injection Hdoc as <-.
        intros ->. reflexivity.
    + do 2 eexists. split; [reflexivity|]. repeat split.
  - do 2 eexists. split; [reflexivity|]. repeat split.
Qed.

(** ** The orchestrator *)

(** C1, as the code has it: when the classifier returns an analysis (an
    object, or any value other than null), the record built for the
    project keeps the input's id, takes the resolver's answer of this call
    as officialWebsite and the analysis' suitabilityScore, category and
    educationalPlan of this call; the recommendations are not merged, the
    record's results are the input's.  The callback stores that record as
    the selected project and in place of the entry with the same id. *)
Theorem C1_analyzeOne_merges_both_answers :
  forall env project w analysis w2,
    ProjectAnalyzer.analyzeProject env project
      (snd (ProjectAnalyzer.findOfficialWebsite env (name project) w))
      = (Ok analysis, w2) ->
    nullish analysis = false ->
    exists updated,
      App.updatedProject env project w = (Ok updated, w2)
      /\ id updated = id project
      /\ fst (ProjectAnalyzer.findOfficialWebsite env (name project) w)
         = Ok (officialWebsite updated)
      /\ get_prop analysis "suitabilityScore" = Ok (suitabilityScore updated)
      /\ get_prop analysis "category" = Ok (category updated)
      /\ get_prop analysis "educationalPlan" = Ok (educationalPlan updated)
      /\ results updated = results project
      /\ forall s,
           exists s',
             App.analyzeProject env project s w = (Ok s', w2)
             /\ App.selectedProject s' = Some updated
             /\ App.projects s'
                = map (fun p => if id p =? id project then updated else p)
                    (App.projects s).
Proof.
  intros env project w analysis w2 Ha Hn.
  destruct (findOfficialWebsite_returns env (name project) w) as (site & w1 & Hs).
  rewrite Hs in Ha. simpl in Ha.
  destruct (merge_returns project site analysis Hn)
    as (score & cat & plan & Hscore & Hcat & Hplan & Hm).
  assert (Hu : App.updatedProject env project w
               = (merge project site analysis, w2)).
  { rewrite updatedProject_cases, Hs, Ha. reflexivity. }
  rewrite Hm in Hu. eexists. split; [exact Hu|]. rewrite Hs. simpl.
  repeat split; try assumption.
  intros s. rewrite analyzeProject_state, Hu. eexists. repeat split.
Qed.

Lemma C1_witness :
  exists updated,
    App.updatedProject cleanseas_env cleanseas world0
      = (Ok updated, tick (tick world0))
    /\ id updated = id cleanseas
    /\ fst (ProjectAnalyzer.findOfficialWebsite cleanseas_env (name cleanseas) world0)
       = Ok (officialWebsite updated)
    /\ get_prop (JObj [ ("suitabilityScore", JNum 82); ("category", JStr "school");
                        ("educationalPlan", JStr "...");
                        ("recommendations", JArr [JStr "Use in grade 9 science"]) ])
         "suitabilityScore" = Ok (suitabilityScore updated)
    /\ get_prop (JObj [ ("suitabilityScore", JNum 82); ("category", JStr "school");
                        ("educationalPlan", JStr "...");
                        ("recommendations", JArr [JStr "Use in grade 9 science"]) ])
         "category" = Ok (category updated)
    /\ get_prop (JObj [ ("suitabilityScore", JNum 82); ("category", JStr "school");
                        ("educationalPlan", JStr "...");
                        ("recommendations", JArr [JStr "Use in grade 9 science"]) ])
         "educationalPlan" = Ok (educationalPlan updated)
    /\ results updated = results cleanseas
    /\ forall s,
         exists s',
           App.analyzeProject cleanseas_env cleanseas s world0
             = (Ok s', tick (tick world0))
           /\ App.selectedProject s' = Some updated
           /\ App.projects s'
              = map (fun p => if id p =? id cleanseas then updated else p)
                  (App.projects s).
Proof.
  apply (C1_analyzeOne_merges_both_answers cleanseas_env cleanseas world0);
    reflexivity.
Defined.

(** The end-to-end scenario: score 82 and category school reach the record. *)
Example analyze_cleanseas :
  fst (App.updatedProject cleanseas_env cleanseas world0)
  = Ok {| id := id cleanseas; name := "CleanSeas";
          description := "Ocean plastics education";
          url := "https://ied.eu/cleanseas";
          officialWebsite := JStr "https://cleanseas.example";
          results := JUndefined;
          educationalPlan := JStr "...";
          suitabilityScore := JNum 82;
          category := JStr "school" |}.
Proof. reflexivity. Qed.

(** C1 as stated fails on the recommendations: in the end-to-end scenario
    the classifier returns one recommendation, and the record built from it
    still has no results. *)
Lemma C1_counterexample :
  exists updated analysis,
    fst (App.updatedProject cleanseas_env cleanseas world0) = Ok updated
    /\ fst (ProjectAnalyzer.analyzeProject cleanseas_env cleanseas (tick world0))
       = Ok analysis
    /\ get_prop analysis "recommendations"
       = Ok (JArr [JStr "Use in grade 9 science"])
    /\ results updated = JUndefined
    /\ results updated <> JArr [JStr "Use in grade 9 science"].
Proof. do 2 eexists. repeat split. discriminate. Qed.

(** C10: the record built for a project has the input's id, name,
    description, url and results; only officialWebsite, suitabilityScore,
    category and educationalPlan are written. *)
Theorem C10_merge_keeps_the_other_fields :
  forall env project w analysis w2,
    ProjectAnalyzer.analyzeProject env project
      (snd (ProjectAnalyzer.findOfficialWebsite env (name project) w))
      = (Ok analysis, w2) ->
    nullish analysis = false ->
    exists updated,
      App.updatedProject env project w = (Ok updated, w2)
      /\ id updated = id project
      /\ name updated = name project
      /\ description updated = description project
      /\ url updated = url project
      /\ results updated = results project.
Proof.
  intros env project w analysis w2 Ha Hn.
  destruct (findOfficialWebsite_returns env (name project) w) as (site & w1 & Hs).
  rewrite Hs in Ha. simpl in Ha.
  destruct (merge_returns project site analysis Hn)
    as (score & cat & plan & _ & _ & _ & Hm).
  eexists. split.
  - rewrite updatedProject_cases, Hs, Ha, Hm. reflexivity.
  - repeat split.
Qed.

Lemma C10_witness :
  exists updated,
    App.updatedProject cleanseas_env cleanseas world0
      = (Ok updated, tick (tick world0))
    /\ id updated = id cleanseas
    /\ name updated = name cleanseas
    /\ description updated = description cleanseas
    /\ url updated = url cleanseas
    /\ results updated = results cleanseas.
Proof.
  apply (C10_merge_keeps_the_other_fields cleanseas_env cleanseas world0
           (JObj [ ("suitabilityScore", JNum 82); ("category", JStr "school");
                   ("educationalPlan", JStr "...");
                   ("recommendations", JArr [JStr "Use in grade 9 science"]) ]));
    reflexivity.
Defined.

(** C4, as the code has it: every record the scraper returns has category
    unsuitable, and so has the classifier's degraded result; the record
    built in [App] has as category whatever the classifier's answer holds
    under that key, unchecked.  So the category is one of the four values
    when the completion's JSON object gives one of them, and only then. *)
Theorem C4_category_enumerated_unless_the_response_is_not :
  forall env w,
    (exists ps w',
       ProjectAnalyzer.scrapeProjects env w = (Ok ps, w')
       /\ Forall (fun p => category p = JStr "unsuitable" /\ is_category (category p)) ps)
    /\ (forall t,
          get_prop (ProjectAnalyzer.degraded t) "category" = Ok (JStr "unsuitable"))
    /\ (forall project updated w',
          App.updatedProject env project w = (Ok updated, w') ->
          exists analysis,
            ProjectAnalyzer.analyzeProject env project
              (snd (ProjectAnalyzer.findOfficialWebsite env (name project) w))
              = (Ok analysis, w')
            /\ get_prop analysis "category" = Ok (category updated))
    /\ (forall project client completion s o c,
          ProjectAnalyzer.openai env = Some client ->
          completion_endpoint env
            (clock (snd (ProjectAnalyzer.findOfficialWebsite env (name project) w)))
            client (ProjectAnalyzer.request project) = Ok completion ->
          ProjectAnalyzer.first_content completion = Ok (Some s) ->
          JSON_parse s = Ok (JObj o) ->
          lookup "category" o = Some c ->
          is_category c ->
          exists updated w',
            App.updatedProject env project w = (Ok updated, w')
            /\ category updated = c
            /\ is_category (category updated)).
Proof.
  intros env w. repeat split.
  - destruct (scrapeProjects_returns env w) as (ps & w' & E & H).
    exists ps, w'. split; [exact E|].
    eapply Forall_impl; [|exact H]. simpl. intros p Hp. split; [exact Hp|].
    rewrite Hp. unfold is_category. auto.
  - intros project updated w' Hu.
    rewrite updatedProject_cases in Hu.
    destruct (ProjectAnalyzer.findOfficialWebsite env (name project) w)
      as [[site|t] w1]; [|discriminate].
    simpl.
    destruct (ProjectAnalyzer.analyzeProject env project w1)
      as [[analysis|t] w2]; [|discriminate].
    injection Hu as Hm <-. exists analysis. split; [reflexivity|].
    unfold merge in Hm.
    destruct (get_prop analysis "suitabilityScore"); [|discriminate].
    destruct (get_prop analysis "category"); [|discriminate].
    destruct (get_prop analysis "educationalPlan"); [|discriminate].
    injection Hm as <-. reflexivity.
  - intros project client completion s o c Hc He Hf Hp Hl Hcat.
    destruct (findOfficialWebsite_returns env (name project) w) as (site & w1 & Hs).
    rewrite Hs in He. simpl in He.
    assert (Hs' : ProjectAnalyzer.content_or_empty_object (Some s) = s).
    { simpl. destruct (s =? "") eqn:E; [|reflexivity].
      apply String.eqb_eq in E. subst s. rewrite JSON_parse_empty in Hp. discriminate. }
    destruct (merge_returns project site (JObj o) eq_refl)
      as (score & cat & plan & _ & Hcat' & _ & Hm).
    simpl in Hcat'. rewrite Hl in Hcat'. injection Hcat' as <-.
    do 2 eexists. split.
    + rewrite updatedProject_cases, Hs, (analyzeProject_with_client _ _ _ _ Hc).
      rewrite He, Hf, Hs', Hp, Hm. reflexivity.
    + split; [reflexivity | exact Hcat].
Qed.

(** C4 as stated fails: a completion whose JSON names a category outside
    the enumeration is merged as it is. *)
Lemma C4_counterexample :
  exists updated,
    fst (App.updatedProject
           (sample_env (Some "sk-test") found_site (reply (Some maybe_answer)))
           cleanseas world0)
    = Ok updated
    /\ category updated = JStr "maybe"
    /\ ~ is_category (category updated).
Proof.
  eexists. split; [reflexivity|]. split; [reflexivity|].
  unfold is_category. simpl. intros [H | [H | [H | H]]]; discriminate.
Qed.

(** ** Determinism *)

Lemma resolver_deterministic env projectName w w' :
  deterministic env ->
  fst (ProjectAnalyzer.findOfficialWebsite env projectName w)
  = fst (ProjectAnalyzer.findOfficialWebsite env projectName w').
Proof.
  intros [Hh _]. rewrite !findOfficialWebsite_cases.
  destruct (encodeURIComponent (search_text projectName)) as [query|t]; [|reflexivity].
  rewrite (Hh (clock w) (clock w')).
  destruct (http env (clock w') (ProjectAnalyzer.search_url query)); [|reflexivity].
  destruct (get_prop a "AbstractURL"); reflexivity.
Qed.

Lemma classifier_deterministic env project w w' :
  deterministic env ->
  fst (ProjectAnalyzer.analyzeProject env project w)
  = fst (ProjectAnalyzer.analyzeProject env project w').
Proof.
  intros [_ Hc]. destruct (ProjectAnalyzer.openai env) as [client|] eqn:E.
  - rewrite !(analyzeProject_with_client _ _ _ _ E).
    rewrite (Hc (clock w) (clock w')).
    destruct (completion_endpoint env (clock w') client (ProjectAnalyzer.request project));
      [|reflexivity].
    destruct (ProjectAnalyzer.first_content a); [|reflexivity].
    destruct (JSON_parse (ProjectAnalyzer.content_or_empty_object a0)); reflexivity.
  - unfold ProjectAnalyzer.analyzeProject. rewrite E. reflexivity.
Qed.

Lemma updatedProject_deterministic env project w w' :
  deterministic env ->
  fst (App.updatedProject env project w) = fst (App.updatedProject env project w').
Proof.
  intros Hd. rewrite !updatedProject_cases.
  pose proof (resolver_deterministic env (name project) w w' Hd) as Hr.
  destruct (ProjectAnalyzer.findOfficialWebsite env (name project) w) as [r1 w1].
  destruct (ProjectAnalyzer.findOfficialWebsite env (name project) w') as [r1' w1'].
  simpl in Hr. subst r1'. destruct r1 as [site|t]; [|reflexivity].
  pose proof (classifier_deterministic env project w1 w1' Hd) as Hc.
  destruct (ProjectAnalyzer.analyzeProject env project w1) as [r2 w2].
  destruct (ProjectAnalyzer.analyzeProject env project w1') as [r2' w2'].
  simpl in Hc. subst r2'. destruct r2; reflexivity.
Qed.

Lemma replace_twice (project updated : Project) (l : list Project) :
  id updated = id project ->
  map (fun p => if id p =? id project then updated else p)
    (map (fun p => if id p =? id project then updated else p) l)
  = map (fun p => if id p =? id project then updated else p) l.
Proof.
  intros H. rewrite map_map. apply map_ext. intros p.
  destruct (id p =? id project) eqn:E; [|rewrite E; reflexivity].
  rewrite H, String.eqb_refl. reflexivity.
Qed.

(** C9: with deterministic collaborators, a second call on the same input
    builds the same record (or fails the same way) as the first, and leaves
    the component state as the first call left it. *)
Theorem C9_analyzeOne_twice_same_output :
  forall env project s w,
    deterministic env ->
    fst (App.updatedProject env project (snd (App.updatedProject env project w)))
    = fst (App.updatedProject env project w)
    /\ exists s1 w1,
         App.analyzeProject env project s w = (Ok s1, w1)
         /\ fst (App.analyzeProject env project s1 w1) = Ok s1.
Proof.
  intros env project s w Hd. split; [apply updatedProject_deterministic, Hd|].
  rewrite analyzeProject_state.
  destruct (App.updatedProject env project w) as [[updated|t] w'] eqn:Hu.
  - do 2 eexists. split; [reflexivity|]. rewrite analyzeProject_state.
    pose proof (updatedProject_deterministic env project w' w Hd) as H.
    rewrite Hu in H.
    destruct (App.updatedProject env project w') as [r w'']. simpl in H. subst r.
    simpl. rewrite replace_twice; [reflexivity|].
    rewrite updatedProject_cases in Hu.
    destruct (ProjectAnalyzer.findOfficialWebsite env (name project) w)
      as [[site|t] w1]; [|discriminate].
    destruct (ProjectAnalyzer.analyzeProject env project w1)
      as [[analysis|t] w2]; [|discriminate].
    injection Hu as Hm _. exact (merge_id _ _ _ _ Hm).
  - do 2 eexists. split; [reflexivity|]. rewrite analyzeProject_state.
    pose proof (updatedProject_deterministic env project
                  (log "Error analyzing project:" t w') w Hd) as H.
    rewrite Hu in H.
    destruct (App.updatedProject env project (log "Error analyzing project:" t w'))
      as [r w'']. simpl in H. subst r. reflexivity.
Qed.

Lemma C9_witness :
  fst (App.updatedProject cleanseas_env cleanseas
         (snd (App.updatedProject cleanseas_env cleanseas world0)))
  = fst (App.updatedProject cleanseas_env cleanseas world0)
  /\ exists s1 w1,
       App.analyzeProject cleanseas_env cleanseas App.initial world0 = (Ok s1, w1)
       /\ fst (App.analyzeProject cleanseas_env cleanseas s1 w1) = Ok s1.
Proof.
  apply (C9_analyzeOne_twice_same_output cleanseas_env cleanseas App.initial world0).
  split; reflexivity.
Defined.

(** * Further properties of the code *)

(** ** Loading and listing *)

Lemma records_of_unanalyzed env items :
  forall n, Forall unanalyzed (records_of env n items).
Proof.
  induction items as [|item rest IH]; intros n; simpl; constructor; auto.
  repeat split.
Qed.

Lemma scrapeProjects_unanalyzed env w :
  exists ps w',
    ProjectAnalyzer.scrapeProjects env w = (Ok ps, w') /\ Forall unanalyzed ps.
Proof.
  rewrite scrapeProjects_cases.
  destruct (http env (clock w) listing_url) as [data|t]; [|eauto].
  destruct (html_parser env data) as [document|t]; [|eauto].
  do 2 eexists. split; [reflexivity|]. apply records_of_unanalyzed.
Qed.

Lemma loadProjects_state env s w :
  App.loadProjects env s w =
  match ProjectAnalyzer.scrapeProjects env w with
  | (Ok ps, w') =>
      (Ok {| App.projects := ps; App.loading := false;
             App.analyzing := App.analyzing s;
             App.selectedProject := App.selectedProject s;
             App.filter := App.filter s; App.error := App.error s |}, w')
  | (Throw t, w') => (Throw t, w')
  end.
Proof.
  unfold App.loadProjects. run.
  destruct (ProjectAnalyzer.scrapeProjects env w) as [[ps|t] w']; reflexivity.
Qed.

(** X1: loading never throws.  It ends with [loading] off and with the
    working set replaced by exactly what the scraper returned, every record
    of it unanalyzed; the selection, the filter, the error banner and the
    [analyzing] flag stay as they were. *)
Theorem X1_loadProjects_replaces_the_working_set :
  forall env s w,
    exists ps w',
      ProjectAnalyzer.scrapeProjects env w = (Ok ps, w')
      /\ App.loadProjects env s w
         = (Ok {| App.projects := ps; App.loading := false;
                  App.analyzing := App.analyzing s;
                  App.selectedProject := App.selectedProject s;
                  App.filter := App.filter s; App.error := App.error s |}, w')
      /\ Forall unanalyzed ps.
Proof.
  intros env s w.
  destruct (scrapeProjects_unanalyzed env w) as (ps & w' & E & H).
  exists ps, w'. rewrite loadProjects_state, E. auto.
Qed.

Lemma filter_none {A} (f : A -> bool) (l : list A) :
  Forall (fun x => f x = false) l -> List.filter f l = [].
Proof.
  induction 1 as [|x l Hx _ IH]; simpl; [reflexivity|]. rewrite Hx. exact IH.
Qed.

Lemma filter_every {A} (f : A -> bool) (l : list A) :
  Forall (fun x => f x = true) l -> List.filter f l = l.
Proof.
  induction 1 as [|x l Hx _ IH]; simpl; [reflexivity|]. rewrite Hx, IH. reflexivity.
Qed.

(** X2: right after loading, the list shows every project under the filter
    "all" and none under "school", "adult" or "both": the scraper's
    default category matches no filter. *)
Theorem X2_loaded_projects_show_only_under_all :
  forall env s w,
    exists s' w',
      App.loadProjects env s w = (Ok s', w')
      /\ App.filteredProjects s'
         = match App.filter s with
           | App.all => App.projects s'
           | _ => []
           end.
Proof.
  intros env s w.
  destruct (scrapeProjects_unanalyzed env w) as (ps & w' & E & H).
  rewrite loadProjects_state, E. do 2 eexists. split; [reflexivity|].
  unfold App.filteredProjects. simpl.
  destruct (App.filter s); simpl.
  - apply filter_every. apply Forall_forall. reflexivity.
  - apply filter_none. eapply Forall_impl; [|exact H].
    intros p (-> & _). reflexivity.
  - apply filter_none. eapply Forall_impl; [|exact H].
    intros p (-> & _). reflexivity.
  - apply filter_none. eapply Forall_impl; [|exact H].
    intros p (-> & _). reflexivity.
Qed.

Lemma strict_equal_true v s : App.strict_equal v s = true <-> v = JStr s.
Proof.
  unfold App.strict_equal. destruct v; split; try discriminate.
  - intros H. apply String.eqb_eq in H. congruence.
  - intros [= ->]. apply String.eqb_refl.
Qed.

(** X3: what the list shows is a selection of the working set.  Under a
    filter other than "all" every project shown has exactly that category
    and is drawn with that category's icon; a project that gets no icon
    (unsuitable, no category, or a category outside the three) is shown
    under "all" only. *)
Theorem X3_listed_projects_match_filter_and_icon :
  forall s,
    Forall
      (fun p =>
         In p (App.projects s)
         /\ (App.filter s = App.all
             \/ (category p = JStr (App.filter_name (App.filter s))
                 /\ App.getCategoryIcon (category p) = icon_of (App.filter s))))
      (App.filteredProjects s)
    /\ (forall p,
          App.getCategoryIcon (category p) = None ->
          App.filter s <> App.all ->
          ~ In p (App.filteredProjects s))
    /\ (forall c,
          App.getCategoryIcon c = None
          <-> c <> JStr "school" /\ c <> JStr "adult" /\ c <> JStr "both").
Proof.
  intros s.
  assert (A : forall p, In p (App.filteredProjects s) ->
              In p (App.projects s)
              /\ (App.filter s = App.all
                  \/ (category p = JStr (App.filter_name (App.filter s))
                      /\ App.getCategoryIcon (category p) = icon_of (App.filter s)))).
  { intros p Hp. unfold App.filteredProjects in Hp. apply filter_In in Hp as [Hin Hc].
    split; [exact Hin|]. apply orb_true_iff in Hc as [Hc | Hc].
    - left. destruct (App.filter s); [reflexivity|discriminate..].
    - apply strict_equal_true in Hc. rewrite Hc.
      destruct (App.filter s); [left; reflexivity|right; split; reflexivity..]. }
  split; [apply Forall_forall; exact A|]. split.
  - intros p Hi Hf Hp. destruct (A p Hp) as [_ [Hall | [_ Hicon]]]; [contradiction|].
    rewrite Hi in Hicon. destruct (App.filter s); [contradiction|discriminate..].
  - intros c. unfold App.getCategoryIcon.
    destruct (App.strict_equal c "school") eqn:E1.
    { apply strict_equal_true in E1. split; [discriminate|]. intros (H & _). contradiction. }
    destruct (App.strict_equal c "adult") eqn:E2.
    { apply strict_equal_true in E2. split; [discriminate|]. intros (_ & H & _). contradiction. }
    destruct (App.strict_equal c "both") eqn:E3.
    { apply strict_equal_true in E3. split; [discriminate|]. intros (_ & _ & H). contradiction. }
    split; [|reflexivity]. intros _.
    repeat split; intros ->; simpl in *; discriminate.
Qed.

(** ** What the classifier can return *)

Lemma number_defined q : number q <> JUndefined.
Proof.
  unfold number. destruct (Qnum (Qred q)); [discriminate| |];
    destruct (binary64_positive _ _); discriminate.
Qed.

Lemma parse_never_undefined f :
  (forall s v r, parse_value f s = Some (v, r) -> v <> JUndefined)
  /\ (forall s acc v r, parse_elements f s acc = Some (v, r) -> v <> JUndefined)
  /\ (forall s acc v r, parse_members f s acc = Some (v, r) -> v <> JUndefined).
Proof.
  induction f as [|f (IHv & IHe & IHm)]; [repeat split; discriminate|].
  split; [|split].
  - intros s v r H. cbn [parse_value] in H. cbv zeta in H.
    destruct (skip_ws s) as [|c r0]; [discriminate|].
    repeat match type of H with
           | (if ?b then _ else _) = _ => destruct b
           | match skip_ws ?x with _ => _ end = _ => destruct (skip_ws x)
           | match string_body ?x ?y with _ => _ end = _ =>
               destruct (string_body x y) as [[? ?]|]
           | match parse_number ?x with _ => _ end = _ =>
               destruct (parse_number x) as [[? ?]|]
           | option_map _ ?x = _ => destruct x; cbn [option_map] in H
           | None = Some _ => discriminate H
           | Some (number _, _) = Some _ => injection H as <- <-; apply number_defined
           | Some _ = Some _ => injection H as <- <-; discriminate
           | parse_members _ _ _ = Some _ => exact (IHm _ _ _ _ H)
           | parse_elements _ _ _ = Some _ => exact (IHe _ _ _ _ H)
           end.
  - intros s acc v r H. cbn [parse_elements] in H.
    destruct (parse_value f s) as [[v1 r1]|]; [|discriminate].
    destruct (skip_ws r1) as [|c r2]; [discriminate|].
    destruct (code c =? 44)%N; [exact (IHe _ _ _ _ H)|].
    destruct (code c =? 93)%N; [|discriminate].
    injection H as <- <-. discriminate.
  - intros s acc v r H. cbn [parse_members] in H.
    destruct (skip_ws s) as [|q r0]; [discriminate|].
    destruct (code q =? 34)%N; [|discriminate].
    destruct (string_body r0 []) as [[k r1]|]; [|discriminate].
    destruct (skip_ws r1) as [|c r2]; [discriminate|].
    destruct (code c =? 58)%N; [|discriminate].
    destruct (parse_value f r2) as [[v1 r3]|]; [|discriminate].
    destruct (skip_ws r3) as [|d r4]; [discriminate|].
    destruct (code d =? 44)%N; [exact (IHm _ _ _ _ H)|].
    destruct (code d =? 125)%N; [|discriminate].
    injection H as <- <-. discriminate.
Qed.

Lemma JSON_parse_defined s v : JSON_parse s = Ok v -> v <> JUndefined.
Proof.
  unfold JSON_parse.
  destruct (parse_value _ _) as [[v0 r]|] eqn:E; [|discriminate].
  destruct (skip_ws r); [|discriminate]. intros [= <-].
  destruct (parse_never_undefined (2 * String.length s + 3)) as (H & _ & _).
  exact (H _ _ _ E).
Qed.

Lemma classifier_defined env project w v w' :
  ProjectAnalyzer.analyzeProject env project w = (Ok v, w') -> v <> JUndefined.
Proof.
  destruct (ProjectAnalyzer.openai env) as [client|] eqn:E.
  - rewrite (analyzeProject_with_client _ _ _ _ E).
    destruct (completion_endpoint env (clock w) client (ProjectAnalyzer.request project));
      [|intros [= <- _]; discriminate].
    destruct (ProjectAnalyzer.first_content a); [|intros [= <- _]; discriminate].
    destruct (JSON_parse (ProjectAnalyzer.content_or_empty_object a0)) eqn:P;
      [|intros [= <- _]; discriminate].
    intros [= <- _]. exact (JSON_parse_defined _ _ P).
  - unfold ProjectAnalyzer.analyzeProject. rewrite E. discriminate.
Qed.

(** ** The callback's outcomes *)

Lemma updatedProject_id env project w updated w' :
  App.updatedProject env project w = (Ok updated, w') -> id updated = id project.
Proof.
  rewrite updatedProject_cases.
  destruct (ProjectAnalyzer.findOfficialWebsite env (name project) w)
    as [[site|t] w1]; [|discriminate].
  destruct (ProjectAnalyzer.analyzeProject env project w1)
    as [[analysis|t] w2]; [|discriminate].
  intros [= Hm _]. exact (merge_id _ _ _ _ Hm).
Qed.

Lemma replace_keeps_ids (project updated : Project) (l : list Project) :
  id updated = id project ->
  map id (map (fun p => if id p =? id project then updated else p) l) = map id l.
Proof.
  intros H. rewrite map_map. apply map_ext. intros p.
  destruct (String.eqb_spec (id p) (id project)); congruence.
Qed.

Lemma merge_throws project site analysis t :
  merge project site analysis = Throw t ->
  analysis <> JUndefined ->
  analysis = JNull
  /\ t = ErrorObject "TypeError"
           "Cannot read properties of null (reading 'suitabilityScore')".
Proof.
  intros H Hd. destruct analysis; try contradiction; try discriminate.
  unfold merge in H. simpl in H. injection H as <-. split; reflexivity.
Qed.

(** X4: without a credential the callback changes nothing but the flags
    and the banner: the working set and the selection stay, the error
    banner holds the configuration message.  The search request of line 30
    has been made all the same, whenever the name could be encoded. *)
Theorem X4_analyze_without_credential :
  forall env project s w,
    ~ configured env ->
    exists w',
      App.analyzeProject env project s w
      = (Ok {| App.projects := App.projects s;
               App.loading := App.loading s;
               App.analyzing := false;
               App.selectedProject := App.selectedProject s;
               App.filter := App.filter s;
               App.error :=
               Some "OpenAI API key is not configured. Please add your API key to the .env file as VITE_OPENAI_API_KEY." |},
         w')
      /\ uuids w' = uuids w
      /\ (forall query,
            encodeURIComponent (search_text (name project)) = Ok query ->
            clock w' = S (clock w)).
Proof.
  intros env project s w Hn. apply not_configured_null in Hn.
  rewrite analyzeProject_state, updatedProject_cases.
  destruct (findOfficialWebsite_returns env (name project) w) as (site & w1 & Hs).
  rewrite Hs. unfold ProjectAnalyzer.analyzeProject at 1. rewrite Hn.
  unfold throw. eexists. split; [reflexivity|].
  rewrite findOfficialWebsite_cases in Hs.
  destruct (encodeURIComponent (search_text (name project))) as [q|t].
  - destruct (http env (clock w) (ProjectAnalyzer.search_url q)) as [data|t].
    + destruct (get_prop data "AbstractURL"); injection Hs as _ <-;
        split; reflexivity.
    + injection Hs as _ <-. split; reflexivity.
  - injection Hs as _ <-. split; [reflexivity|discriminate].
Qed.

Lemma X4_witness :
  exists w',
    App.analyzeProject (sample_env None found_site (reply None)) cleanseas
      App.initial world0
    = (Ok {| App.projects := App.projects App.initial;
             App.loading := App.loading App.initial;
             App.analyzing := false;
             App.selectedProject := App.selectedProject App.initial;
             App.filter := App.filter App.initial;
             App.error :=
               Some "OpenAI API key is not configured. Please add your API key to the .env file as VITE_OPENAI_API_KEY." |},
       w')
    /\ uuids w' = uuids world0
    /\ (forall query,
          encodeURIComponent (search_text (name cleanseas)) = Ok query ->
          clock w' = S (clock world0)).
Proof.
  apply (X4_analyze_without_credential (sample_env None found_site (reply None))
           cleanseas App.initial world0).
  intros (k & H & _). discriminate H.
Defined.

(** X5: the callback never throws.  It always ends with [analyzing] off
    and leaves [loading], the filter and the identifiers of the working set,
    in their order, as they were.  Either it shows no error and selects a
    record with the input's id, or it shows an error and leaves working set
    and selection untouched. *)
Theorem X5_analyze_keeps_flags_and_identifiers :
  forall env project s w,
    exists s' w',
      App.analyzeProject env project s w = (Ok s', w')
      /\ App.analyzing s' = false
      /\ App.loading s' = App.loading s
      /\ App.filter s' = App.filter s
      /\ map id (App.projects s') = map id (App.projects s)
      /\ ((App.error s' = None
           /\ exists updated,
                App.selectedProject s' = Some updated /\ id updated = id project)
          \/ (App.error s' <> None
              /\ App.projects s' = App.projects s
              /\ App.selectedProject s' = App.selectedProject s)).
Proof.
  intros env project s w. rewrite analyzeProject_state.
  destruct (App.updatedProject env project w) as [[updated|t] w'] eqn:Hu.
  - apply updatedProject_id in Hu. do 2 eexists. split; [reflexivity|]. simpl.
    repeat split; [apply replace_keeps_ids; exact Hu|]. left. eauto.
  - do 2 eexists. split; [reflexivity|]. simpl. repeat split.
    right. repeat split. discriminate.
Qed.

(** X6: the callback touches only entries that carry the input's id: the
    working set keeps its length, and every entry with another id stays the
    same entry at the same position. *)
Theorem X6_analyze_leaves_other_entries :
  forall env project s w,
    exists s' w',
      App.analyzeProject env project s w = (Ok s', w')
      /\ length (App.projects s') = length (App.projects s)
      /\ forall i p,
           nth_error (App.projects s) i = Some p ->
           id p <> id project ->
           nth_error (App.projects s') i = Some p.
Proof.
  intros env project s w. rewrite analyzeProject_state.
  destruct (App.updatedProject env project w) as [[updated|t] w'].
  - do 2 eexists. split; [reflexivity|]. simpl. split; [apply length_map|].
    intros i p Hi Hp. rewrite nth_error_map, Hi. simpl.
    apply String.eqb_neq in Hp. rewrite Hp. reflexivity.
  - do 2 eexists. split; [reflexivity|]. simpl. auto.
Qed.

(** X7: building the record fails in two cases only.  Without a credential
    the classifier's configuration error comes through; with one, the only
    failure is a TypeError, raised when the completion text was the JSON
    value null.  In every other case a record is built, and a credential
    was configured. *)
Theorem X7_merge_fails_only_on_missing_key_or_null :
  forall env project w,
    match App.updatedProject env project w with
    | (Ok _, _) => configured env
    | (Throw t, w') =>
        (~ configured env /\ t = ProjectAnalyzer.ConfigurationError)
        \/ (configured env
            /\ (exists m, t = ErrorObject "TypeError" m)
            /\ ProjectAnalyzer.analyzeProject env project
                 (snd (ProjectAnalyzer.findOfficialWebsite env (name project) w))
               = (Ok JNull, w'))
    end.
Proof.
  intros env project w. rewrite updatedProject_cases.
  destruct (findOfficialWebsite_returns env (name project) w) as (site & w1 & Hs).
  rewrite Hs. simpl snd.
  destruct (ProjectAnalyzer.openai env) as [client|] eqn:E.
  - assert (Hc : configured env) by (apply configured_client; eauto).
    destruct (analyzeProject_returns env client project w1 E) as (v & w2 & Ha).
    rewrite Ha. pose proof (classifier_defined _ _ _ _ _ Ha) as Hd.
    destruct (merge project site v) as [u|t] eqn:Hm; [exact Hc|].
    destruct (merge_throws _ _ _ _ Hm Hd) as (-> & ->).
    right. split; [exact Hc|]. split; [eauto|reflexivity].
  - unfold ProjectAnalyzer.analyzeProject. rewrite E. unfold throw.
    left. split; [apply not_configured_null; exact E|reflexivity].
Qed.

(** X8: an answer whose content is null or the empty string is read as an
    empty object and not logged; the record built from it has
    suitabilityScore, category and educationalPlan undefined, whatever the
    project held in them before. *)
Theorem X8_empty_answer_clears_the_analysis :
  forall env project w client completion,
    ProjectAnalyzer.openai env = Some client ->
    completion_endpoint env
      (clock (snd (ProjectAnalyzer.findOfficialWebsite env (name project) w)))
      client (ProjectAnalyzer.request project) = Ok completion ->
    (ProjectAnalyzer.first_content completion = Ok None
     \/ ProjectAnalyzer.first_content completion = Ok (Some "")) ->
    exists site w1,
      ProjectAnalyzer.findOfficialWebsite env (name project) w = (Ok site, w1)
      /\ ProjectAnalyzer.analyzeProject env project w1 = (Ok (JObj []), tick w1)
      /\ App.updatedProject env project w
         = (Ok {| id := id project; name := name project;
                  description := description project; url := url project;
                  officialWebsite := site; results := results project;
                  educationalPlan := JUndefined; suitabilityScore := JUndefined;
                  category := JUndefined |}, tick w1).
Proof.
  intros env project w client completion Hc He Hf.
  destruct (findOfficialWebsite_returns env (name project) w) as (site & w1 & Hs).
  rewrite Hs in He. simpl in He. exists site, w1. split; [exact Hs|].
  assert (Ha : ProjectAnalyzer.analyzeProject env project w1 = (Ok (JObj []), tick w1)).
  { rewrite (analyzeProject_with_client _ _ _ _ Hc), He.
    destruct Hf as [-> | ->]; reflexivity. }
  split; [exact Ha|]. rewrite updatedProject_cases, Hs, Ha. reflexivity.
Qed.

Lemma X8_witness :
  exists site w1,
    ProjectAnalyzer.findOfficialWebsite
      (sample_env (Some "sk-test") found_site (reply None)) (name cleanseas) world0
    = (Ok site, w1)
    /\ ProjectAnalyzer.analyzeProject
         (sample_env (Some "sk-test") found_site (reply None)) cleanseas w1
       = (Ok (JObj []), tick w1)
    /\ App.updatedProject
         (sample_env (Some "sk-test") found_site (reply None)) cleanseas world0
       = (Ok {| id := id cleanseas; name := name cleanseas;
                description := description cleanseas; url := url cleanseas;
                officialWebsite := site; results := results cleanseas;
                educationalPlan := JUndefined; suitabilityScore := JUndefined;
                category := JUndefined |}, tick w1).
Proof.
  apply (X8_empty_answer_clears_the_analysis
           (sample_env (Some "sk-test") found_site (reply None)) cleanseas world0
           {| apiKey := "sk-test"; dangerouslyAllowBrowser := true |}
           {| choices := [ {| message := {| content := None |} |} ] |}).
  - reflexivity.
  - reflexivity.
  - left. reflexivity.
Defined.

(** X9: the classifier never returns undefined, so any answer but null
    gives a record; in it, each of suitabilityScore, category and
    educationalPlan is undefined when the answer is no object or is an
    object without that key. *)
Theorem X9_omitted_fields_become_undefined :
  forall env project w analysis w2,
    ProjectAnalyzer.analyzeProject env project
      (snd (ProjectAnalyzer.findOfficialWebsite env (name project) w))
      = (Ok analysis, w2) ->
    analysis <> JNull ->
    exists updated,
      App.updatedProject env project w = (Ok updated, w2)
      /\ ((forall o, analysis = JObj o -> lookup "suitabilityScore" o = None) ->
          suitabilityScore updated = JUndefined)
      /\ ((forall o, analysis = JObj o -> lookup "category" o = None) ->
          category updated = JUndefined)
      /\ ((forall o, analysis = JObj o -> lookup "educationalPlan" o = None) ->
          educationalPlan updated = JUndefined).
Proof.
  intros env project w analysis w2 Ha Hn.
  destruct (findOfficialWebsite_returns env (name project) w) as (site & w1 & Hs).
  rewrite Hs in Ha. simpl in Ha.
  pose proof (classifier_defined _ _ _ _ _ Ha) as Hd.
  assert (Hnull : nullish analysis = false).
  { destruct analysis; try reflexivity; [contradiction Hd | contradiction Hn];
      reflexivity. }
  destruct (merge_returns project site analysis Hnull)
    as (score & cat & plan & Hscore & Hcat & Hplan & Hm).
  eexists. split; [rewrite updatedProject_cases, Hs, Ha, Hm; reflexivity|].
  destruct analysis as [| |b|q|neg|str|els|o];
    [contradiction Hd; reflexivity | contradiction Hn; reflexivity | ..];
    simpl in Hscore, Hcat, Hplan;
    injection Hscore as <-; injection Hcat as <-; injection Hplan as <-;
    simpl; repeat split; intros H; try reflexivity;
    rewrite (H o eq_refl); reflexivity.
Qed.

Lemma X9_witness :
  exists updated,
    App.updatedProject
      (sample_env (Some "sk-test") found_site (reply (Some "[82]"))) cleanseas world0
    = (Ok updated, tick (tick world0))
    /\ ((forall o, JArr [JNum 82] = JObj o -> lookup "suitabilityScore" o = None) ->
        suitabilityScore updated = JUndefined)
    /\ ((forall o, JArr [JNum 82] = JObj o -> lookup "category" o = None) ->
        category updated = JUndefined)
    /\ ((forall o, JArr [JNum 82] = JObj o -> lookup "educationalPlan" o = None) ->
        educationalPlan updated = JUndefined).
Proof.
  apply (X9_omitted_fields_become_undefined
           (sample_env (Some "sk-test") found_site (reply (Some "[82]")))
           cleanseas world0).
  - reflexivity.
  - discriminate.
Defined.

(** X10: when the completion call raises, the callback shows no error: it
    selects a record with score 0, category unsuitable, the error's message
    as plan and the resolver's answer as website.  The score being falsy,
    the Analyze button is offered again for that record. *)
Theorem X10_failed_classification_is_a_normal_record :
  forall env project s w client t,
    ProjectAnalyzer.openai env = Some client ->
    completion_endpoint env
      (clock (snd (ProjectAnalyzer.findOfficialWebsite env (name project) w)))
      client (ProjectAnalyzer.request project) = Throw t ->
    exists site s' w',
      fst (ProjectAnalyzer.findOfficialWebsite env (name project) w) = Ok site
      /\ App.analyzeProject env project s w = (Ok s', w')
      /\ App.error s' = None
      /\ App.selectedProject s'
         = Some {| id := id project; name := name project;
                   description := description project; url := url project;
                   officialWebsite := site; results := results project;
                   educationalPlan := JStr (message_or "Analysis failed" t);
                   suitabilityScore := JNum 0;
                   category := JStr "unsuitable" |}
      /\ App.showsAnalyzeButton s' = true.
Proof.
  intros env project s w client t Hc He.
  destruct (findOfficialWebsite_returns env (name project) w) as (site & w1 & Hs).
  rewrite Hs in He. simpl in He. exists site.
  rewrite analyzeProject_state, updatedProject_cases, Hs.
  rewrite (analyzeProject_with_client _ _ _ _ Hc), He.
  do 2 eexists. repeat split.
Qed.

Lemma X10_witness :
  exists site s' w',
    fst (ProjectAnalyzer.findOfficialWebsite
           (sample_env (Some "sk-test") found_site
              (Throw (ErrorObject "APIConnectionError" "Connection error.")))
           (name cleanseas) world0) = Ok site
    /\ App.analyzeProject
         (sample_env (Some "sk-test") found_site
            (Throw (ErrorObject "APIConnectionError" "Connection error.")))
         cleanseas App.initial world0 = (Ok s', w')
    /\ App.error s' = None
    /\ App.selectedProject s'
       = Some {| id := id cleanseas; name := name cleanseas;
                 description := description cleanseas; url := url cleanseas;
                 officialWebsite := site; results := results cleanseas;
                 educationalPlan :=
                   JStr (message_or "Analysis failed"
                           (ErrorObject "APIConnectionError" "Connection error."));
                 suitabilityScore := JNum 0;
                 category := JStr "unsuitable" |}
    /\ App.showsAnalyzeButton s' = true.
Proof.
  apply (X10_failed_classification_is_a_normal_record
           (sample_env (Some "sk-test") found_site
              (Throw (ErrorObject "APIConnectionError" "Connection error.")))
           cleanseas App.initial world0
           {| apiKey := "sk-test"; dangerouslyAllowBrowser := true |});
    reflexivity.
Defined.

Lemma keyMissing_not_configured env :
  App.keyMissing env = true <-> ~ configured env.
Proof.
  rewrite not_configured_null, openai_of_key. unfold App.keyMissing.
  destruct (VITE_OPENAI_API_KEY env) as [k|]; [|split; reflexivity].
  destruct (k =? ""); split; congruence.
Qed.

(** X11: the warning banner is shown exactly when no credential is
    configured.  When the Analyze button is enabled a credential is
    configured, and a click never ends in the configuration error: the
    callback ends without error, or with the TypeError of a null answer. *)
Theorem X11_enabled_button_never_hits_the_configuration_error :
  forall env project s w,
    App.analyzeButtonDisabled env s = false ->
    App.keyMissing env = false
    /\ configured env
    /\ exists s' w',
         App.analyzeProject env project s w = (Ok s', w')
         /\ (App.error s' = None
             \/ App.error s'
                = Some "Cannot read properties of null (reading 'suitabilityScore')").
Proof.
  intros env project s w H. unfold App.analyzeButtonDisabled in H.
  apply orb_false_iff in H as [_ Hk]. split; [exact Hk|].
  assert (Hc : configured env).
  { destruct (ProjectAnalyzer.openai env) as [client|] eqn:E.
    - apply configured_client. eauto.
    - apply not_configured_null, keyMissing_not_configured in E. congruence. }
  split; [exact Hc|].
  rewrite analyzeProject_state, updatedProject_cases.
  destruct (findOfficialWebsite_returns env (name project) w) as (site & w1 & Hs).
  rewrite Hs. apply configured_client in Hc as (client & Hcl).
  destruct (analyzeProject_returns env client project w1 Hcl) as (v & w2 & Ha).
  rewrite Ha. pose proof (classifier_defined _ _ _ _ _ Ha) as Hd.
  destruct (merge project site v) as [u|t] eqn:Hm.
  - do 2 eexists. split; [reflexivity|]. left. reflexivity.
  - destruct (merge_throws _ _ _ _ Hm Hd) as (_ & ->).
    do 2 eexists. split; [reflexivity|]. right. reflexivity.
Qed.

Lemma X11_witness :
  App.keyMissing cleanseas_env = false
  /\ configured cleanseas_env
  /\ exists s' w',
       App.analyzeProject cleanseas_env cleanseas App.initial world0 = (Ok s', w')
       /\ (App.error s' = None
           \/ App.error s'
              = Some "Cannot read properties of null (reading 'suitabilityScore')").
Proof.
  apply (X11_enabled_button_never_hits_the_configuration_error
           cleanseas_env cleanseas App.initial world0).
  reflexivity.
Defined.

(** ** What the calls do to the world *)

(** X12: one scrape makes exactly one request and draws exactly one
    identifier per record returned.  It logs nothing when fetch and parse
    succeed, and logs the failure, once, when it returns no records for a
    failed fetch or parse. *)
Theorem X12_scrape_effects :
  forall env w,
    exists ps w',
      ProjectAnalyzer.scrapeProjects env w = (Ok ps, w')
      /\ clock w' = S (clock w)
      /\ uuids w' = uuids w + length ps
      /\ ((console w' = console w
           /\ exists data document,
                http env (clock w) listing_url = Ok data
                /\ html_parser env data = Ok document)
          \/ (ps = []
              /\ exists t,
                   console w' = (console w ++ [("Error scraping projects:", t)])%list
                   /\ (http env (clock w) listing_url = Throw t
                       \/ exists data,
                            http env (clock w) listing_url = Ok data
                            /\ html_parser env data = Throw t))).
Proof.
  intros env w. rewrite scrapeProjects_cases.
  destruct (http env (clock w) listing_url) as [data|t] eqn:Hget.
  - destruct (html_parser env data) as [document|t] eqn:Hload.
    + do 2 eexists. split; [reflexivity|]. cbv zeta. simpl.
      rewrite records_of_length. repeat split. left. split; [reflexivity|]. eauto.
    + do 2 eexists. split; [reflexivity|]. simpl. repeat split; [lia|].
      right. split; [reflexivity|]. exists t. split; [reflexivity|]. right. eauto.
  - do 2 eexists. split; [reflexivity|]. simpl. repeat split; [lia|].
    right. split; [reflexivity|]. exists t. split; [reflexivity|]. left. reflexivity.
Qed.

Lemma resolver_effects env projectName w :
  let w' := snd (ProjectAnalyzer.findOfficialWebsite env projectName w) in
  uuids w' = uuids w
  /\ clock w <= clock w' <= S (clock w)
  /\ exists entries,
       console w' = (console w ++ entries)%list /\ length entries <= 1.
Proof.
  rewrite findOfficialWebsite_cases.
  destruct (encodeURIComponent (search_text projectName)) as [q|t].
  - destruct (http env (clock w) (ProjectAnalyzer.search_url q)) as [data|t].
    + destruct (get_prop data "AbstractURL"); simpl; repeat split; try lia.
      * exists []. rewrite app_nil_r. auto.
      * eexists. split; [reflexivity|]. simpl. lia.
    + simpl. repeat split; try lia. eexists. split; [reflexivity|]. simpl. lia.
  - simpl. repeat split; try lia. eexists. split; [reflexivity|]. simpl. lia.
Qed.

Lemma classifier_effects env project w :
  let w' := snd (ProjectAnalyzer.analyzeProject env project w) in
  uuids w' = uuids w
  /\ clock w <= clock w' <= S (clock w)
  /\ exists entries,
       console w' = (console w ++ entries)%list /\ length entries <= 1.
Proof.
  destruct (ProjectAnalyzer.openai env) as [client|] eqn:E.
  - rewrite (analyzeProject_with_client _ _ _ _ E).
    assert (L : forall t,
              let w' := log "Error analyzing project:" t (tick w) in
              uuids w' = uuids w /\ clock w <= clock w' <= S (clock w)
              /\ exists entries,
                   console w' = (console w ++ entries)%list /\ length entries <= 1).
    { intros t. simpl. repeat split; try lia.
      eexists. split; [reflexivity|]. simpl. lia. }
    destruct (completion_endpoint env (clock w) client (ProjectAnalyzer.request project));
      [|apply L].
    destruct (ProjectAnalyzer.first_content a); [|apply L].
    destruct (JSON_parse (ProjectAnalyzer.content_or_empty_object a0)); [|apply L].
    simpl. repeat split; try lia. exists []. rewrite app_nil_r. auto.
  - unfold ProjectAnalyzer.analyzeProject. rewrite E. unfold throw. simpl.
    repeat split; try lia. exists []. rewrite app_nil_r. auto.
Qed.

(** X13: building the record for one project draws no identifier, calls
    [axios.get] at most once and then [openai.chat.completions.create] at
    most once (the clock counts these calls, not what the SDK sends over the
    network for one of them), and adds at most two entries to the log, after
    those already there.  Without a credential nothing happens after the
    resolver's call. *)
Theorem X13_analyze_effects :
  forall env project w,
    uuids (snd (App.updatedProject env project w)) = uuids w
    /\ clock w
       <= clock (snd (ProjectAnalyzer.findOfficialWebsite env (name project) w))
       <= S (clock w)
    /\ clock (snd (ProjectAnalyzer.findOfficialWebsite env (name project) w))
       <= clock (snd (App.updatedProject env project w))
       <= S (clock (snd (ProjectAnalyzer.findOfficialWebsite env (name project) w)))
    /\ (exists entries,
          console (snd (App.updatedProject env project w))
          = (console w ++ entries)%list
          /\ length entries <= 2)
    /\ (~ configured env ->
        snd (App.updatedProject env project w)
        = snd (ProjectAnalyzer.findOfficialWebsite env (name project) w)).
Proof.
  intros env project w. rewrite updatedProject_cases.
  pose proof (resolver_effects env (name project) w) as R.
  destruct (findOfficialWebsite_returns env (name project) w) as (site & w1 & Hs).
  rewrite Hs in *. simpl in R. destruct R as (Ru & Rc & e1 & Re & Rl).
  pose proof (classifier_effects env project w1) as C.
  destruct (ProjectAnalyzer.analyzeProject env project w1) as [r w2] eqn:Ha.
  simpl in C. destruct C as (Cu & Cc & e2 & Ce & Cl).
  assert (G : uuids w2 = uuids w
              /\ clock w <= clock w1 <= S (clock w)
              /\ clock w1 <= clock w2 <= S (clock w1)
              /\ exists entries,
                   console w2 = (console w ++ entries)%list /\ length entries <= 2).
  { repeat split; try lia. exists (e1 ++ e2)%list.
    rewrite Ce, Re, app_assoc, length_app. split; [reflexivity|lia]. }
  assert (N : ~ configured env -> w2 = w1).
  { intros Hn. apply not_configured_null in Hn.
    unfold ProjectAnalyzer.analyzeProject in Ha. rewrite Hn in Ha.
    unfold throw in Ha. congruence. }
  destruct r as [analysis|t]; simpl; tauto.
Qed.

(** X14: fetching twice gives new identifiers the second time.  When the
    identifier source repeats none of the draws of the two calls, no record
    of the second fetch shares its id with a record of the first, even
    where the page, and so every other field, is the same. *)
Theorem X14_second_fetch_draws_new_identifiers :
  forall env w ps w1 ps' w2,
    ProjectAnalyzer.scrapeProjects env w = (Ok ps, w1) ->
    ProjectAnalyzer.scrapeProjects env w1 = (Ok ps', w2) ->
    (forall i j,
       i < length ps + length ps' ->
       j < length ps + length ps' ->
       uuid_source env (uuids w + i) = uuid_source env (uuids w + j) -> i = j) ->
    (forall p p', In p ps -> In p' ps' -> id p <> id p')
    /\ (http env (clock w1) listing_url = http env (clock w) listing_url ->
        length ps' = length ps
        /\ map name ps' = map name ps
        /\ map description ps' = map description ps
        /\ map url ps' = map url ps).
Proof.
  intros env w ps w1 ps' w2 H1 H2 Hfresh.
  rewrite scrapeProjects_cases in H1, H2.
  assert (Hids : forall n items p,
            In p (records_of env n items) ->
            exists i, i < length items /\ id p = uuid_source env (n + i)).
  { intros n items p Hp. apply In_nth_error in Hp as (i & Hi).
    rewrite records_of_nth in Hi.
    destruct (nth_error items i) as [item|] eqn:E; [|discriminate].
    injection Hi as <-. exists i. split; [|reflexivity].
    apply nth_error_Some. congruence. }
  assert (Hfields : forall n m items,
            map name (records_of env n items) = map name (records_of env m items)
            /\ map description (records_of env n items)
               = map description (records_of env m items)
            /\ map url (records_of env n items) = map url (records_of env m items)).
  { intros n m items. revert n m.
    induction items as [|item rest IH]; intros n m; simpl; [auto|].
    destruct (IH (S n) (S m)) as (-> & -> & ->). auto. }
  destruct (http env (clock w) listing_url) as [data|t] eqn:G1.
  - destruct (html_parser env data) as [document|t] eqn:L1.
    + cbv zeta in H1. injection H1 as <- <-. cbn [clock uuids console] in *.
      set (items := select (has_class "project-item") document) in *.
      destruct (http env (S (clock w)) listing_url) as [data'|t] eqn:G2.
      * destruct (html_parser env data') as [document'|t] eqn:L2.
        -- cbv zeta in H2. injection H2 as <- _.
           set (items' := select (has_class "project-item") document') in *.
           rewrite !records_of_length in Hfresh. split.
           ++ intros p p' Hp Hp' E.
              apply Hids in Hp as (i & Hi & Ei), Hp' as (j & Hj & Ej).
              rewrite Ei, Ej in E. rewrite <- Nat.add_assoc in E.
              apply Hfresh in E; lia.
           ++ intros [= ->]. rewrite L1 in L2. injection L2 as <-.
              subst items'. rewrite !records_of_length. split; [reflexivity|].
              apply Hfields.
        -- injection H2 as <- _. split; [intros p p' _ []|].
           intros [= ->]. congruence.
      * injection H2 as <- _. split; [intros p p' _ []|]. discriminate.
    + injection H1 as <- <-. split; [intros p p' []|].
      cbn [clock uuids console log tick] in *. intros E. rewrite E, L1 in H2.
      injection H2 as <- _. repeat split.
  - injection H1 as <- <-. split; [intros p p' []|].
    cbn [clock uuids console log tick] in *. intros E. rewrite E in H2.
    injection H2 as <- _. repeat split.
Qed.

Lemma X14_witness :
  exists ps w1 ps' w2,
    ProjectAnalyzer.scrapeProjects two_items_env world0 = (Ok ps, w1)
    /\ ProjectAnalyzer.scrapeProjects two_items_env w1 = (Ok ps', w2)
    /\ (forall p p', In p ps -> In p' ps' -> id p <> id p')
    /\ (http two_items_env (clock w1) listing_url
        = http two_items_env (clock world0) listing_url ->
        length ps' = length ps
        /\ map name ps' = map name ps
        /\ map description ps' = map description ps
        /\ map url ps' = map url ps).
Proof.
  do 4 eexists. split; [reflexivity|]. split; [reflexivity|].
  eapply (X14_second_fetch_draws_new_identifiers two_items_env world0).
  - reflexivity.
  - reflexivity.
  - simpl. intros i j Hi Hj E.
    assert (Hi' : i = 0 \/ i = 1 \/ i = 2 \/ i = 3) by lia.
    assert (Hj' : j = 0 \/ j = 1 \/ j = 2 \/ j = 3) by lia.
    destruct Hi' as [-> | [-> | [-> | ->]]], Hj' as [-> | [-> | [-> | ->]]];
      try reflexivity; vm_compute in E; discriminate E.
Defined.

(** ** What the answers depend on *)

(** X15: the classifier reads only the name and the description of the
    project.  Two projects that agree on both get the same answer in the
    same world, and the records built for them agree on officialWebsite,
    suitabilityScore, category and educationalPlan. *)
Theorem X15_analysis_depends_on_name_and_description_only :
  forall env p p' w,
    name p = name p' ->
    description p = description p' ->
    ProjectAnalyzer.analyzeProject env p w = ProjectAnalyzer.analyzeProject env p' w
    /\ match App.updatedProject env p w, App.updatedProject env p' w with
       | (Ok u, w1), (Ok u', w1') =>
           w1 = w1'
           /\ officialWebsite u = officialWebsite u'
           /\ suitabilityScore u = suitabilityScore u'
           /\ category u = category u'
           /\ educationalPlan u = educationalPlan u'
       | (Throw t, w1), (Throw t', w1') => t = t' /\ w1 = w1'
       | _, _ => False
       end.
Proof.
  intros env p p' w Hn Hd.
  assert (Hr : ProjectAnalyzer.request p = ProjectAnalyzer.request p').
  { unfold ProjectAnalyzer.request, ProjectAnalyzer.prompt. rewrite Hn, Hd. reflexivity. }
  assert (Ha : forall w0, ProjectAnalyzer.analyzeProject env p w0
                          = ProjectAnalyzer.analyzeProject env p' w0).
  { intros w0. unfold ProjectAnalyzer.analyzeProject. rewrite Hr. reflexivity. }
  split; [apply Ha|].
  rewrite !updatedProject_cases, <- Hn.
  destruct (ProjectAnalyzer.findOfficialWebsite env (name p) w) as [[site|t] w1];
    [|auto].
  rewrite <- Ha.
  destruct (ProjectAnalyzer.analyzeProject env p w1) as [[analysis|t] w2]; [|auto].
  unfold merge.
  destruct (get_prop analysis "suitabilityScore"); [|auto].
  destruct (get_prop analysis "category"); [|auto].
  destruct (get_prop analysis "educationalPlan"); [|auto].
  simpl. auto.
Qed.

Lemma X15_witness :
  ProjectAnalyzer.analyzeProject cleanseas_env cleanseas world0
  = ProjectAnalyzer.analyzeProject cleanseas_env
      {| id := sample_uuid 5; name := "CleanSeas";
         description := "Ocean plastics education"; url := "";
         officialWebsite := JNull; results := JArr [];
         educationalPlan := JStr "old"; suitabilityScore := JNum 0;
         category := JStr "adult" |} world0
  /\ match App.updatedProject cleanseas_env cleanseas world0,
           App.updatedProject cleanseas_env
             {| id := sample_uuid 5; name := "CleanSeas";
                description := "Ocean plastics education"; url := "";
                officialWebsite := JNull; results := JArr [];
                educationalPlan := JStr "old"; suitabilityScore := JNum 0;
                category := JStr "adult" |} world0 with
     | (Ok u, w1), (Ok u', w1') =>
         w1 = w1'
         /\ officialWebsite u = officialWebsite u'
         /\ suitabilityScore u = suitabilityScore u'
         /\ category u = category u'
         /\ educationalPlan u = educationalPlan u'
     | (Throw t, w1), (Throw t', w1') => t = t' /\ w1 = w1'
     | _, _ => False
     end.
Proof.
  apply (X15_analysis_depends_on_name_and_description_only cleanseas_env cleanseas
           {| id := sample_uuid 5; name := "CleanSeas";
              description := "Ocean plastics education"; url := "";
              officialWebsite := JNull; results := JArr [];
              educationalPlan := JStr "old"; suitabilityScore := JNum 0;
              category := JStr "adult" |} world0); reflexivity.
Defined.

Lemma percent_encode_safe s :
  Forall (fun c => uri_unreserved c || (code c =? 37)%N = true) (percent_encode s).
Proof.
  assert (Hhex : forall n, (n < 16)%N ->
            uri_unreserved (hex_digit n) || (code (hex_digit n) =? 37)%N = true).
  { intros [|p] Hn; [reflexivity|].
    do 4 (try destruct p as [p|p|]); try lia; reflexivity. }
  induction s as [|c r IH]; simpl; [constructor|].
  destruct (uri_unreserved c) eqn:E.
  - constructor; [rewrite E; reflexivity|exact IH].
  - constructor; [reflexivity|].
    constructor; [apply Hhex, N.Div0.div_lt_upper_bound|].
    + unfold code. pose proof (N_ascii_bounded c). lia.
    + constructor; [apply Hhex, N.mod_lt; lia|exact IH].
Qed.

(** X16: the query the resolver puts into the search address consists of
    unreserved characters and percent signs only, so no character of a
    project name can end the query or add a parameter to it; and a name of
    plain ASCII is always encoded, so the request is always made for it. *)
Theorem X16_search_query_is_escaped :
  forall projectName,
    (forall query,
       encodeURIComponent (search_text projectName) = Ok query ->
       Forall (fun c => uri_unreserved c || (code c =? 37)%N = true) (chars query)
       /\ forall c,
            In c (chars query) ->
            ~ In (code c) [38; 61; 35; 63; 47; 43; 32; 34]%N)
    /\ (Forall (fun c => (code c <? 128)%N = true) (chars projectName) ->
        exists query, encodeURIComponent (search_text projectName) = Ok query).
Proof.
  intros projectName. split.
  - intros query H. unfold encodeURIComponent in H.
    destruct (has_lone_surrogate _); [discriminate|]. injection H as <-.
    rewrite chars_text.
    pose proof (percent_encode_safe (chars (search_text projectName))) as S.
    split; [exact S|]. intros c Hc.
    rewrite Forall_forall in S. specialize (S c Hc).
    intros Hin. simpl in Hin.
    repeat (destruct Hin as [Hin | Hin];
            [unfold uri_unreserved in S; rewrite <- Hin in S; discriminate S|]).
    exact Hin.
  - intros Hascii. unfold encodeURIComponent.
    assert (Hall : Forall (fun c => (code c <? 128)%N = true)
                     (chars (search_text projectName))).
    { unfold search_text, chars in *. 
      assert (A : forall a b, list_ascii_of_string (a ++ b)
                              = (list_ascii_of_string a ++ list_ascii_of_string b)%list).
      { induction a; intros b; simpl; [reflexivity|]. rewrite IHa. reflexivity. }
      rewrite A. apply Forall_app. split; [exact Hascii|].
      repeat constructor. }
    assert (Hs : forall l, Forall (fun c => (code c <? 128)%N = true) l ->
                           has_lone_surrogate l = false).
    { induction 1 as [|c l Hc Hl IH]; [reflexivity|].
      simpl. destruct l as [|b l']; [reflexivity|].
      rewrite IH. apply N.ltb_lt in Hc.
      assert ((code c =? 237)%N = false) as -> by (apply N.eqb_neq; lia).
      reflexivity. }
    rewrite (Hs _ Hall). eauto.
Qed.

(** X17: what the resolver returns is a truthy value or the empty string;
    it is never undefined, null, false or zero, and it is the empty string
    whenever a failure was logged. *)
Theorem X17_resolver_result_is_truthy_or_empty :
  forall env projectName w,
    exists v w',
      ProjectAnalyzer.findOfficialWebsite env projectName w = (Ok v, w')
      /\ (truthy v = true \/ v = JStr "")
      /\ (console w' <> console w -> v = JStr "").
Proof.
  intros env projectName w. rewrite findOfficialWebsite_cases.
  destruct (encodeURIComponent (search_text projectName)) as [q|t].
  - destruct (http env (clock w) (ProjectAnalyzer.search_url q)) as [data|t].
    + destruct (get_prop data "AbstractURL") as [x|t].
      * do 2 eexists. split; [reflexivity|]. unfold js_or. split.
        -- destruct (truthy x) eqn:E; auto.
        -- simpl. intros H. contradiction H. reflexivity.
      * do 2 eexists. split; [reflexivity|]. auto.
    + do 2 eexists. split; [reflexivity|]. auto.
  - do 2 eexists. split; [reflexivity|]. auto.
Qed.

(** X18: once a record has been built for a project of the working set,
    the list shows that record exactly when the filter is "all" or names
    the record's new category. *)
Theorem X18_analyzed_project_is_listed_under_its_category :
  forall env project s w updated w',
    App.updatedProject env project w = (Ok updated, w') ->
    (exists p, In p (App.projects s) /\ id p = id project) ->
    exists s',
      App.analyzeProject env project s w = (Ok s', w')
      /\ (In updated (App.filteredProjects s')
          <-> App.filter s = App.all
              \/ category updated = JStr (App.filter_name (App.filter s))).
Proof.
  intros env project s w updated w' Hu (p & Hp & Hid).
  rewrite analyzeProject_state, Hu. eexists. split; [reflexivity|].
  unfold App.filteredProjects. simpl. rewrite filter_In.
  assert (Hin : In updated
                  (map (fun p0 => if id p0 =? id project then updated else p0)
                     (App.projects s))).
  { apply in_map_iff. exists p. split; [|exact Hp].
    rewrite Hid, String.eqb_refl. reflexivity. }
  rewrite orb_true_iff, strict_equal_true. split.
  - intros [_ [H | H]]; [left|right; exact H].
    destruct (App.filter s); [reflexivity|discriminate..].
  - intros [H | H]; (split; [exact Hin|]); [left; rewrite H; reflexivity|right; exact H].
Qed.

Lemma X18_witness :
  exists s',
    App.analyzeProject cleanseas_env cleanseas
      {| App.projects := [cleanseas]; App.loading := false; App.analyzing := false;
         App.selectedProject := Some cleanseas; App.filter := App.school;
         App.error := None |} world0
    = (Ok s', tick (tick world0))
    /\ (In {| id := id cleanseas; name := "CleanSeas";
              description := "Ocean plastics education";
              url := "https://ied.eu/cleanseas";
              officialWebsite := JStr "https://cleanseas.example";
              results := JUndefined;
              educationalPlan := JStr "...";
              suitabilityScore := JNum 82;
              category := JStr "school" |}
          (App.filteredProjects s')
        <-> App.school = App.all
            \/ JStr "school" = JStr (App.filter_name App.school)).
Proof.
  apply (X18_analyzed_project_is_listed_under_its_category cleanseas_env cleanseas
           {| App.projects := [cleanseas]; App.loading := false;
              App.analyzing := false; App.selectedProject := Some cleanseas;
              App.filter := App.school; App.error := None |} world0).
  - reflexivity.
  - exists cleanseas. split; [left|]; reflexivity.
Defined.
